(** * Orchestrator core of the GPU build control plane

    A shallow embedding of the orchestration subsystem
    ([src/orchestrator/*.py]) and of the constants and DTO fields it reads
    ([src/common/config/constants.py], [src/common/dto/build.py]):

    - [Constants]   the [BuildStatus] and [Priority] enumerations;
    - [Py]          the few Python notions the sources rely on (exceptions,
                    insertion-ordered dictionaries, [str] operations);
    - [Scheduler]   [priority_scheduler.py];
    - [Heapq]       the binary heap of CPython's [heapq] used by the queue;
    - [Queue]       [queue_manager.py];
    - [Allocator]   [resource_allocator.py];
    - [Balancer]    [load_balancer.py];
    - [State]       [state_manager.py];
    - [Coordinator] [coordinator.py].

    Conventions.  Python [int] is [Z]; Python [float] is the kernel's binary64
    [float]; [str] is [string]; a [UUID] is its 128-bit value as [N]; a
    [datetime] is the clock reading it was taken at, as [Z] microseconds.
    Clock readings, fresh UUIDs and the answers of the outside world (cluster
    API, probes) are arguments of the functions that consume them.  A [dict]
    whose iteration order is observable is an association list in insertion
    order; one that is only looked up is a [gmap].

    The components run as asyncio tasks on one thread.  No method suspends
    while it holds its component's lock, so a lock is always free when a task
    asks for it, and a method body is modelled as one step from call to
    return; the calls that do suspend ([dequeue] with a timeout, the probes,
    the cluster and store requests) take what the outside world answers as an
    argument. *)

From Stdlib Require Import ZArith Lia List Bool Ascii String Sorted.
From Stdlib Require Import Floats.PrimFloat Uint63.
From stdpp Require Import gmap strings list pretty.

Local Open Scope Z_scope.

Definition UUID := N.
Definition datetime := Z.

(** ** Python notions *)
Module Py.

(** The exceptions that the modelled code can raise. *)
Inductive exn :=
| AttributeError (name : string)
| UnboundLocalError (name : string)
| ValidationError (what : string)
| ValueError (what : string)
| ZeroDivisionError
| CancelledError.

(** A computation over a store [S]: it always leaves a store behind, and
    either returns a value or raises. *)
Inductive outcome (A : Type) :=
| Return (a : A)
| Raise (e : exn).
Arguments Return {A} a.
Arguments Raise {A} e.

(** [x or d] for an optional integer: [None] and [0] are falsy. *)
Definition int_or (x : option Z) (d : Z) : Z :=
  match x with
  | Some v => if Z.eqb v 0 then d else v
  | None => d
  end.

(** [x or d] for an optional float: [None], [0.0] and [-0.0] are falsy. *)
Definition float_or (x : option float) (d : float) : float :=
  match x with
  | Some v => if PrimFloat.eqb v 0%float then d else v
  | None => d
  end.

Section Dict.
Context {K V : Type} `{EqDecision K}.

(** [d.get(k)] on an insertion-ordered dictionary. *)
Fixpoint get (d : list (K * V)) (k : K) : option V :=
  match d with
  | [] => None
  | (k', v) :: r => if decide (k' = k) then Some v else get r k
  end.

(** [d[k] = v]: overwrite in place, or append a new key. *)
Fixpoint set (d : list (K * V)) (k : K) (v : V) : list (K * V) :=
  match d with
  | [] => [(k, v)]
  | (k', v') :: r => if decide (k' = k) then (k', v) :: r else (k', v') :: set r k v
  end.

(** [del d[k]] for a key that may be absent. *)
Fixpoint del (d : list (K * V)) (k : K) : list (K * V) :=
  match d with
  | [] => []
  | (k', v) :: r => if decide (k' = k) then r else (k', v) :: del r k
  end.

Definition values (d : list (K * V)) : list V := map snd d.
Definition keys (d : list (K * V)) : list K := map fst d.

End Dict.

(** Computations over a store [S]: the store is threaded through, also when
    the computation raises. *)
Definition M (S A : Type) : Type := S → S * outcome A.

Definition ret {S A} (a : A) : M S A := fun s => (s, Return a).

Definition raise {S A} (e : exn) : M S A := fun s => (s, Raise e).

Definition bind {S A B} (m : M S A) (k : A → M S B) : M S B :=
  fun s =>
    match m s with
    | (s', Return a) => k a s'
    | (s', Raise e) => (s', Raise e)
    end.

(** [except Exception] does not catch [asyncio.CancelledError]. *)
Definition is_Exception (e : exn) : bool :=
  match e with CancelledError => false | _ => true end.

(** [try: body  except Exception as e: handler(e)]. *)
Definition try_except {S A} (body : M S A) (handler : exn → M S A) : M S A :=
  fun s =>
    match body s with
    | (s', Raise e) => if is_Exception e then handler e s' else (s', Raise e)
    | r => r
    end.

(** [try: body  finally: final]: an exception of [final] replaces the
    outcome of [body]. *)
Definition try_finally {S A} (body : M S A) (final : M S unit) : M S A :=
  fun s =>
    let '(s', o) := body s in
    match final s' with
    | (s'', Return _) => (s'', o)
    | (s'', Raise e) => (s'', Raise e)
    end.

(** An outcome that does not touch the store. *)
Definition lift {S A} (o : outcome A) : M S A := fun s => (s, o).

(** Run a pure store update. *)
Definition modify {S} (f : S → S) : M S unit := fun s => (f s, Return tt).

(** A computation on a component [T] of the store, run inside the store. *)
Definition zoom {S T A} (proj : S → T) (upd : S → T → S) (m : M T A) : M S A :=
  fun s => let '(t', o) := m (proj s) in (upd s t', o).

(** [float(n)] for an integer; exact below [2^53] in absolute value. *)
Definition float_of_Z (n : Z) : float :=
  if n <? 0 then PrimFloat.opp (PrimFloat.of_uint63 (Uint63.of_Z (- n)))
  else PrimFloat.of_uint63 (Uint63.of_Z n).

(** [str.lower()] on ASCII text. *)
Definition ascii_lower (c : ascii) : ascii :=
  let n := nat_of_ascii c in
  if ((65 <=? n) && (n <=? 90))%nat then ascii_of_nat (n + 32) else c.

Fixpoint lower (s : string) : string :=
  match s with
  | EmptyString => EmptyString
  | String c r => String (ascii_lower c) (lower r)
  end.

(** [s.startswith(p)]. *)
Definition startswith (s p : string) : bool := String.prefix p s.

(** [needle in hay] on strings. *)
Fixpoint contains (needle hay : string) : bool :=
  String.prefix needle hay ||
  match hay with
  | EmptyString => false
  | String _ r => contains needle r
  end.

End Py.

Notation "'let*' x ':=' m 'in' k" := (Py.bind m (fun x => k))
  (at level 10, x name, m at level 100, k at level 200, only parsing).
Notation "m ';;;' k" := (Py.bind m (fun _ => k))
  (at level 100, k at level 200, right associativity, only parsing).

(** ** common/config/constants.py *)
Module Constants.

Inductive BuildStatus :=
| PENDING | QUEUED | RUNNING | SUCCESS | FAILURE | CANCELLED | TIMEOUT | SKIPPED.

#[global] Instance BuildStatus_eq_dec : EqDecision BuildStatus.
Proof. solve_decision. Defined.

(** The members of the enumeration, by name, with their values. *)
Definition BuildStatus_members : list (string * BuildStatus) :=
  [("PENDING", PENDING); ("QUEUED", QUEUED); ("RUNNING", RUNNING); ("SUCCESS", SUCCESS);
   ("FAILURE", FAILURE); ("CANCELLED", CANCELLED); ("TIMEOUT", TIMEOUT); ("SKIPPED", SKIPPED)].

Definition BuildStatus_value (s : BuildStatus) : string :=
  match s with
  | PENDING => "pending" | QUEUED => "queued" | RUNNING => "running" | SUCCESS => "success"
  | FAILURE => "failure" | CANCELLED => "cancelled" | TIMEOUT => "timeout" | SKIPPED => "skipped"
  end.

(** The attribute access [BuildStatus.NAME]: a name that is no member raises
    [AttributeError]. *)
Definition BuildStatus_attr (name : string) : Py.outcome BuildStatus :=
  match Py.get BuildStatus_members name with
  | Some s => Py.Return s
  | None => Py.Raise (Py.AttributeError name)
  end.

(** [Priority(IntEnum)]. *)
Inductive Priority := LOW | NORMAL | HIGH | CRITICAL.

#[global] Instance Priority_eq_dec : EqDecision Priority.
Proof. solve_decision. Defined.

Definition Priority_value (p : Priority) : Z :=
  match p with LOW => 10 | NORMAL => 100 | HIGH => 500 | CRITICAL => 1000 end.

End Constants.

(** ** common/dto/build.py and common/dto/base.py *)
Module Dto.
Import Constants.

(** [BuildConfiguration]: the declared fields the orchestrator touches.  The
    class declares neither [cpu_cores] nor [memory_gb]. *)
Record BuildConfiguration := {
  rocm_version : string;
  gpu_architecture : string;
  python_version : string;
  parallel_jobs : Z;
}.

#[global] Instance BuildConfiguration_eq_dec : EqDecision BuildConfiguration.
Proof. solve_decision. Defined.

(** The entries of [BuildRequest.metadata] that the orchestrator reads, each
    absent ([None]) or present with the type the reader expects. *)
Record Metadata := {
  labels : option (list string);
  is_ready_for_review : option bool;
  is_draft : option bool;
  retry_count : option Z;
  retry_of : option string;
}.

#[global] Instance Metadata_eq_dec : EqDecision Metadata.
Proof. solve_decision. Defined.

Definition no_metadata : Metadata :=
  {| labels := None; is_ready_for_review := None; is_draft := None;
     retry_count := None; retry_of := None |}.

(** [BuildRequest], with the fields of [BaseDTO]: those the orchestrator
    reads. *)
Record BuildRequest := {
  id : UUID;
  repository : string;
  branch : string;
  commit_sha : string;
  pr_number : option Z;
  configurations : list BuildConfiguration;
  priority : Priority;
  triggered_by : string;
  metadata : Metadata;
  created_at : datetime;
}.

#[global] Instance BuildRequest_eq_dec : EqDecision BuildRequest.
Proof. solve_decision. Defined.

(** [request.priority = p]. *)
Definition set_priority (r : BuildRequest) (p : Priority) : BuildRequest :=
  {| id := id r; repository := repository r; branch := branch r;
     commit_sha := commit_sha r; pr_number := pr_number r;
     configurations := configurations r; priority := p;
     triggered_by := triggered_by r; metadata := metadata r;
     created_at := created_at r |}.

Record BuildEnvironment := {
  env_node_name : option string;
}.

(** [BuildResult]: [request_id] and [configuration] are required fields. *)
Record BuildResult := {
  request_id : UUID;
  configuration : BuildConfiguration;
  environment : option BuildEnvironment;
  status : BuildStatus;
  started_at : option datetime;
  finished_at : option datetime;
}.

(** The names [getattr] resolves on a [BuildResult]: its fields (with those
    of [BaseDTO]), properties and methods. *)
Definition BuildResult_attributes : list string :=
  ["id"; "version"; "created_at"; "updated_at"; "metadata"; "tags";
   "request_id"; "configuration"; "environment"; "status"; "started_at";
   "finished_at"; "metrics"; "artifacts"; "log_url"; "error_message";
   "failure_ids"; "retry_count"; "parent_build_id";
   "duration"; "is_successful"; "is_failed"; "is_running";
   "start"; "complete"; "fail"; "cancel"].

(** The names [getattr] resolves on a [BuildConfiguration]. *)
Definition BuildConfiguration_attributes : list string :=
  ["rocm_version"; "gpu_architecture"; "build_type"; "python_version";
   "cmake_flags"; "environment_variables"; "compiler"; "enable_tests";
   "enable_benchmarks"; "parallel_jobs"; "use_ccache"; "debug_symbols"].

End Dto.

(** ** priority_scheduler.py *)
Module Scheduler.
Import Constants Dto.

Definition MAIN_BRANCHES : list string := ["main"; "master"; "develop"; "release"].
Definition HOTFIX_PREFIXES : list string := ["hotfix/"; "hotfix-"; "fix/"].
Definition RELEASE_PREFIXES : list string := ["release/"; "release-"; "v"].

Definition _priority_weights : list (string * Z) :=
  [("is_main_branch", 100); ("is_release_branch", 80); ("is_hotfix_branch", 90);
   ("has_priority_label", 50); ("is_ready_for_review", 30); ("is_draft", -20);
   ("is_dependabot", -10); ("retry_count", -5); ("queue_age_minutes", 2)].

Definition _label_priority_boost : list (string * Z) :=
  [("critical", 100); ("urgent", 80); ("high-priority", 60); ("quick-test", 40)].

(** [self._priority_weights[key]], for the keys of the table. *)
Definition weight (key : string) : Z := default 0 (Py.get _priority_weights key).

Definition _is_main_branch (branch : string) : bool :=
  bool_decide (branch ∈ MAIN_BRANCHES).

Definition _is_release_branch (branch : string) : bool :=
  existsb (Py.startswith branch) RELEASE_PREFIXES.

Definition _is_hotfix_branch (branch : string) : bool :=
  existsb (Py.startswith branch) HOTFIX_PREFIXES.

(** The inner loop of [_get_label_priority_boost], for one entry of the
    boost table. *)
Definition boost_step (label_lower : string) (max_boost : Z) (entry : string * Z) : Z :=
  if Py.contains (fst entry) label_lower then Z.max max_boost (snd entry) else max_boost.

Definition _get_label_priority_boost (labels : list string) : Z :=
  fold_left (fun max_boost label =>
               fold_left (boost_step (Py.lower label)) _label_priority_boost max_boost)
            labels 0.

Definition _is_dependabot_pr (request : BuildRequest) : bool :=
  let triggered_by := Py.lower (triggered_by request) in
  Py.contains "dependabot" triggered_by || Py.contains "renovate" triggered_by.

Definition _calculate_priority_score (request : BuildRequest) : Z :=
  let score := 50 in
  let score := if _is_main_branch (branch request) then score + weight "is_main_branch" else score in
  let score := if _is_release_branch (branch request) then score + weight "is_release_branch" else score in
  let score := if _is_hotfix_branch (branch request) then score + weight "is_hotfix_branch" else score in
  let label_boost := _get_label_priority_boost (default [] (labels (metadata request))) in
  let score := score + label_boost in
  let score := if default false (is_ready_for_review (metadata request))
               then score + weight "is_ready_for_review" else score in
  let score := if default false (is_draft (metadata request))
               then score + weight "is_draft" else score in
  let score := if _is_dependabot_pr request then score + weight "is_dependabot" else score in
  let retry_count := default 0 (retry_count (metadata request)) in
  score + retry_count * weight "retry_count".

Definition calculate_priority (request : BuildRequest) : Priority :=
  let score := _calculate_priority_score request in
  if 150 <=? score then CRITICAL
  else if 80 <=? score then HIGH
  else if 20 <=? score then NORMAL
  else LOW.

Definition should_preempt (new_request running_request : BuildRequest) : bool :=
  let new_priority := calculate_priority new_request in
  let running_priority := priority running_request in
  if bool_decide (new_priority = CRITICAL) && negb (bool_decide (running_priority = CRITICAL))
  then true
  else if bool_decide (new_priority = CRITICAL) && bool_decide (running_priority = CRITICAL)
          && _is_hotfix_branch (branch new_request)
  then true
  else false.

(** One entry of the [factors] list of [get_priority_explanation]; its
    [description], a formatted text, is left out. *)
Record Factor := {
  factor : string;
  score_change : Z;
}.

Record Explanation := {
  final_priority : Z;
  total_score : Z;
  base_score : Z;
  factors : list Factor;
}.

Definition get_priority_explanation (request : BuildRequest) : Explanation :=
  let factors := [] in
  let score := 50 in
  let '(factors, score) :=
    if _is_main_branch (branch request)
    then (factors ++ [{| factor := "main_branch"; score_change := weight "is_main_branch" |}],
          score + weight "is_main_branch")
    else (factors, score) in
  let '(factors, score) :=
    if _is_release_branch (branch request)
    then (factors ++ [{| factor := "release_branch"; score_change := weight "is_release_branch" |}],
          score + weight "is_release_branch")
    else (factors, score) in
  let '(factors, score) :=
    if _is_hotfix_branch (branch request)
    then (factors ++ [{| factor := "hotfix_branch"; score_change := weight "is_hotfix_branch" |}],
          score + weight "is_hotfix_branch")
    else (factors, score) in
  let label_boost := _get_label_priority_boost (default [] (labels (metadata request))) in
  let '(factors, score) :=
    if 0 <? label_boost
    then (factors ++ [{| factor := "priority_labels"; score_change := label_boost |}],
          score + label_boost)
    else (factors, score) in
  let priority := calculate_priority request in
  {| final_priority := Priority_value priority; total_score := score; base_score := 50;
     factors := factors |}.

(** [compare_requests(request_a, request_b)].  A [datetime] is never falsy,
    so [created_at or datetime.now(...)] is [created_at]. *)
Definition compare_requests (request_a request_b : BuildRequest) : Z :=
  let score_a := _calculate_priority_score request_a in
  let score_b := _calculate_priority_score request_b in
  if score_a >? score_b then -1
  else if score_a <? score_b then 1
  else
    let time_a := created_at request_a in
    let time_b := created_at request_b in
    if time_a <? time_b then -1
    else if time_a >? time_b then 1
    else 0.

(** *** The scoring policy as the specification words it *)

(** The boosts of the table entries that occur, as substrings, in the
    lower-cased label. *)
Definition label_boosts (label : string) : list Z :=
  map snd (filter (fun e => Py.contains (fst e) (Py.lower label) = true)
                  [("critical", 100); ("urgent", 80); ("high-priority", 60); ("quick-test", 40)]).

(** The maximum of the boosts of all matched labels, 0 when none matches. *)
Definition spec_label_boost (labels : list string) : Z :=
  foldr Z.max 0 (concat (map label_boosts labels)).

Definition delta (b : bool) (d : Z) : Z := if b then d else 0.

Definition spec_score (request : BuildRequest) : Z :=
  let b := branch request in
  let who := Py.lower (triggered_by request) in
  50
  + delta (bool_decide (b = "main" ∨ b = "master" ∨ b = "develop" ∨ b = "release")) 100
  + delta (Py.startswith b "release/" || Py.startswith b "release-" || Py.startswith b "v") 80
  + delta (Py.startswith b "hotfix/" || Py.startswith b "hotfix-" || Py.startswith b "fix/") 90
  + spec_label_boost (default [] (labels (metadata request)))
  + delta (default false (is_ready_for_review (metadata request))) 30
  - delta (default false (is_draft (metadata request))) 20
  - delta (Py.contains "dependabot" who || Py.contains "renovate" who) 10
  - 5 * default 0 (retry_count (metadata request)).

End Scheduler.

(** ** heapq (CPython): the binary heap on a Python list *)
Module Heapq.
Local Open Scope nat_scope.

(** The parent of a position: [(pos - 1) >> 1]. *)
Definition parent (i : nat) : nat := (i - 1) / 2.

Section Heap.
Context {A : Type} (lt : A → A → bool).

(** The [while pos > startpos] loop of [_siftdown]; it ends within
    [length heap] rounds, as [pos] at least halves. *)
Fixpoint siftdown_loop (fuel : nat) (heap : list A) (newitem : A) (startpos pos : nat)
    : list A * nat :=
  match fuel with
  | O => (heap, pos)
  | S fuel' =>
      if startpos <? pos then
        let parentpos := (pos - 1) / 2 in
        match heap !! parentpos with
        | Some parent =>
            if lt newitem parent
            then siftdown_loop fuel' (<[pos := parent]> heap) newitem startpos parentpos
            else (heap, pos)
        | None => (heap, pos)
        end
      else (heap, pos)
  end.

Definition _siftdown (heap : list A) (startpos pos : nat) : list A :=
  match heap !! pos with
  | Some newitem =>
      let '(h, p) := siftdown_loop (length heap) heap newitem startpos pos in
      <[p := newitem]> h
  | None => heap
  end.

(** The [while childpos < endpos] loop of [_siftup]: the smaller child
    bubbles up until a leaf is reached. *)
Fixpoint siftup_loop (fuel : nat) (heap : list A) (pos : nat) : list A * nat :=
  match fuel with
  | O => (heap, pos)
  | S fuel' =>
      let childpos := 2 * pos + 1 in
      if childpos <? length heap then
        let rightpos := childpos + 1 in
        let childpos :=
          match heap !! childpos, heap !! rightpos with
          | Some c, Some r => if negb (lt c r) then rightpos else childpos
          | _, _ => childpos
          end in
        match heap !! childpos with
        | Some c => siftup_loop fuel' (<[pos := c]> heap) childpos
        | None => (heap, pos)
        end
      else (heap, pos)
  end.

Definition _siftup (heap : list A) (pos : nat) : list A :=
  match heap !! pos with
  | Some newitem =>
      let '(h, p) := siftup_loop (length heap) heap pos in
      _siftdown (<[p := newitem]> h) pos p
  | None => heap
  end.

(** [heappush(heap, item)]. *)
Definition heappush (heap : list A) (item : A) : list A :=
  let heap := heap ++ [item] in
  _siftdown heap 0 (length heap - 1).

(** [heappop(heap)]; [None] stands for the [IndexError] on an empty heap. *)
Definition heappop (heap : list A) : option (A * list A) :=
  match last heap with
  | None => None
  | Some lastelt =>
      let heap := removelast heap in
      match heap with
      | [] => Some (lastelt, [])
      | returnitem :: _ => Some (returnitem, _siftup (<[0 := lastelt]> heap) 0)
      end
  end.

(** [heapify(x)]. *)
Definition heapify (x : list A) : list A :=
  fold_left _siftup (rev (seq 0 (length x / 2))) x.


(** The heap invariant from position [s] on: no element whose parent lies at
    [s] or beyond is smaller than that parent.  [ordered_from 0] is the
    invariant that heapq documents, [heap[k] <= heap[2*k+1]] and
    [heap[k] <= heap[2*k+2]] for all [k]. *)
Definition ordered_from (s : nat) (h : list A) : Prop :=
  ∀ i x p, 0 < i → s ≤ parent i → h !! i = Some x → h !! parent i = Some p →
           lt x p = false.

Definition heap_ordered (h : list A) : Prop := ordered_from 0 h.

End Heap.

(** The positions of the subtree rooted at [s]. *)
Inductive below (s : nat) : nat → Prop :=
| below_refl : below s s
| below_step c : 0 < c → below s (parent c) → below s c.

End Heapq.

(** ** queue_manager.py *)
Module Queue.
Import Constants Dto.

Record QueueItem := {
  priority_value : Z;
  timestamp : Z;
  request : BuildRequest;
}.

Definition _get_priority_value (p : Priority) : Z :=
  match p with
  | CRITICAL => 0
  | HIGH => 100
  | NORMAL => 200
  | LOW => 300
  end.

(** [QueueItem.from_request(request)], at the clock reading [now]. *)
Definition from_request (request : BuildRequest) (now : datetime) : QueueItem :=
  {| priority_value := _get_priority_value (priority request);
     timestamp := now;
     request := request |}.

(** The order of [dataclass(order=True)]: the tuples
    [(priority_value, timestamp)] compared; [request] has [compare=False]. *)
Definition QueueItem_lt (a b : QueueItem) : bool :=
  (priority_value a <? priority_value b)
  || ((priority_value a =? priority_value b) && (timestamp a <? timestamp b)).

Definition QueueItem_eq (a b : QueueItem) : bool :=
  (priority_value a =? priority_value b) && (timestamp a =? timestamp b).

(** [list.remove(item)]: drop the first equal element; [None] stands for the
    [ValueError] when there is none. *)
Fixpoint list_remove (l : list QueueItem) (item : QueueItem) : option (list QueueItem) :=
  match l with
  | [] => None
  | x :: r =>
      if QueueItem_eq x item then Some r
      else option_map (cons x) (list_remove r item)
  end.

Record QueueManager := {
  _queue : list QueueItem;
  _max_queue_size : Z;
  _build_ids : gmap UUID QueueItem;
  _queue_not_empty : bool;
}.

Definition QueueManager_new (max_queue_size : Z) : QueueManager :=
  {| _queue := []; _max_queue_size := max_queue_size; _build_ids := ∅;
     _queue_not_empty := false |}.

Definition with_event (q : QueueManager) (flag : bool) : QueueManager :=
  {| _queue := _queue q; _max_queue_size := _max_queue_size q;
     _build_ids := _build_ids q; _queue_not_empty := flag |}.

Definition is_empty (q : QueueManager) : bool :=
  match _queue q with [] => true | _ => false end.

Definition enqueue (q : QueueManager) (request : BuildRequest) (now : datetime)
    : QueueManager * bool :=
  if _max_queue_size q <=? Z.of_nat (length (_queue q)) then (q, false)
  else if bool_decide (is_Some (_build_ids q !! id request)) then (q, false)
  else
    let item := from_request request now in
    ({| _queue := Heapq.heappush QueueItem_lt (_queue q) item;
        _max_queue_size := _max_queue_size q;
        _build_ids := <[id request := item]> (_build_ids q);
        _queue_not_empty := true |},
     true).

(** The first critical section of [dequeue]. *)
Definition dequeue_begin (q : QueueManager) : QueueManager :=
  if is_empty q then with_event q false else q.

(** The last critical section of [dequeue]. *)
Definition dequeue_take (q : QueueManager) : QueueManager * option BuildRequest :=
  match Heapq.heappop QueueItem_lt (_queue q) with
  | None => (q, None)
  | Some (item, queue') =>
      ({| _queue := queue';
          _max_queue_size := _max_queue_size q;
          _build_ids := delete (id (request item)) (_build_ids q);
          _queue_not_empty := match queue' with [] => false | _ => _queue_not_empty q end |},
       Some (request item))
  end.

(** What a call of [dequeue] does until it first suspends or returns: it
    returns, or it is left waiting on the [_queue_not_empty] event for at
    most [timeout] seconds. *)
Inductive dequeued :=
| Returned (r : option BuildRequest)
| Waiting (timeout : float).

(** [if timeout:] is false for [None] and for a zero timeout. *)
Definition timeout_given (timeout : option float) : option float :=
  match timeout with
  | Some t => if PrimFloat.eqb t 0%float then None else Some t
  | None => None
  end.

Definition dequeue (q : QueueManager) (timeout : option float) : QueueManager * dequeued :=
  let q := dequeue_begin q in
  match timeout_given timeout with
  | Some t =>
      if _queue_not_empty q
      then let '(q', r) := dequeue_take q in (q', Returned r)
      else (q, Waiting t)
  | None =>
      if is_empty q then (q, Returned None)
      else let '(q', r) := dequeue_take q in (q', Returned r)
  end.

(** How a waiting [dequeue] goes on: the event was set in time, or the
    timeout elapsed ([asyncio.TimeoutError]). *)
Definition dequeue_resume (q : QueueManager) (event_set : bool)
    : QueueManager * option BuildRequest :=
  if event_set then dequeue_take q else (q, None).


Definition remove (q : QueueManager) (build_id : UUID) : QueueManager * bool :=
  match _build_ids q !! build_id with
  | None => (q, false)
  | Some item =>
      let build_ids' := delete build_id (_build_ids q) in
      match list_remove (_queue q) item with
      | Some queue' =>
          ({| _queue := Heapq.heapify QueueItem_lt queue';
              _max_queue_size := _max_queue_size q;
              _build_ids := build_ids';
              _queue_not_empty := _queue_not_empty q |}, true)
      | None =>
          ({| _queue := _queue q;
              _max_queue_size := _max_queue_size q;
              _build_ids := build_ids';
              _queue_not_empty := _queue_not_empty q |}, false)
      end
  end.

Definition reprioritize (q : QueueManager) (build_id : UUID) (new_priority : Priority)
    (now : datetime) : QueueManager * bool :=
  match _build_ids q !! build_id with
  | None => (q, false)
  | Some old_item =>
      let build_ids' := delete build_id (_build_ids q) in
      match list_remove (_queue q) old_item with
      | None =>
          ({| _queue := _queue q;
              _max_queue_size := _max_queue_size q;
              _build_ids := build_ids';
              _queue_not_empty := _queue_not_empty q |}, false)
      | Some queue' =>
          let new_item := from_request (set_priority (request old_item) new_priority) now in
          ({| _queue := Heapq.heappush QueueItem_lt queue' new_item;
              _max_queue_size := _max_queue_size q;
              _build_ids := <[build_id := new_item]> build_ids';
              _queue_not_empty := _queue_not_empty q |}, true)
      end
  end.

Definition get_queue_depth (q : QueueManager) : Z := Z.of_nat (length (_queue q)).

Definition contains (q : QueueManager) (build_id : UUID) : bool :=
  bool_decide (is_Some (_build_ids q !! build_id)).

(** [get_queue_depth_by_priority()]: the dictionary is keyed by
    [item.request.priority.value], an integer. *)
Definition get_queue_depth_by_priority (q : QueueManager) : list (Z * Z) :=
  fold_left (fun counts item =>
               let priority_name := Priority_value (priority (request item)) in
               Py.set counts priority_name (default 0 (Py.get counts priority_name) + 1))
            (_queue q) [].

(** [sorted(l)] on queue items.  Python's sort is stable, and the items are
    compared by [<] only; inserting the items from left to right, each one
    behind those that are not greater, yields the stably sorted list. *)
Fixpoint insort (x : QueueItem) (l : list QueueItem) : list QueueItem :=
  match l with
  | [] => [x]
  | y :: r => if QueueItem_lt x y then x :: y :: r else y :: insort x r
  end.

Definition sorted (l : list QueueItem) : list QueueItem :=
  fold_left (fun acc x => insort x acc) l [].

(** The [for i, item in enumerate(sorted_queue)] loop of [get_position],
    entered at index [i]. *)
Fixpoint position_from (build_id : UUID) (l : list QueueItem) (i : Z) : option Z :=
  match l with
  | [] => None
  | item :: r =>
      if bool_decide (id (request item) = build_id) then Some (i + 1)
      else position_from build_id r (i + 1)
  end.

Definition get_position (q : QueueManager) (build_id : UUID) : option Z :=
  if bool_decide (is_Some (_build_ids q !! build_id))
  then position_from build_id (sorted (_queue q)) 0
  else None.

Definition clear (q : QueueManager) : QueueManager * Z :=
  ({| _queue := []; _max_queue_size := _max_queue_size q; _build_ids := ∅;
      _queue_not_empty := false |},
   Z.of_nat (length (_queue q))).

Definition get_all_items (q : QueueManager) : list BuildRequest :=
  map request (sorted (_queue q)).

(** [position * avg_build_time_seconds]: an integer times a float. *)
Definition get_estimated_wait_time (q : QueueManager) (build_id : UUID)
    (avg_build_time_seconds : float) : option float :=
  match get_position q build_id with
  | None => None
  | Some position => Some (PrimFloat.mul (Py.float_of_Z position) avg_build_time_seconds)
  end.

End Queue.

(** ** resource_allocator.py *)
Module Allocator.

(** [GPUArchitecture] of constants.py. *)
Inductive GPUArchitecture := GFX900 | GFX906 | GFX908 | GFX90A | GFX1030 | GFX1100 | GFX1101.

Definition GPUArchitecture_value (a : GPUArchitecture) : string :=
  match a with
  | GFX900 => "gfx900" | GFX906 => "gfx906" | GFX908 => "gfx908" | GFX90A => "gfx90a"
  | GFX1030 => "gfx1030" | GFX1100 => "gfx1100" | GFX1101 => "gfx1101"
  end.

Definition all_GPUArchitecture : list GPUArchitecture :=
  [GFX900; GFX906; GFX908; GFX90A; GFX1030; GFX1100; GFX1101].

(** [GPUArchitecture(s)], with the [except ValueError] fallback of
    [refresh_node_resources]. *)
Definition GPUArchitecture_of (s : string) : GPUArchitecture :=
  match filter (fun a => GPUArchitecture_value a = s) all_GPUArchitecture with
  | a :: _ => a
  | [] => GFX90A
  end.

Record ResourceAllocation := {
  allocation_id : UUID;
  ra_gpu_ids : list string;
  ra_cpu_cores : Z;
  ra_memory_gb : float;
  ra_node_name : string;
  allocated_at : datetime;
}.

Record NodeResources := {
  node_name : string;
  total_gpus : Z;
  available_gpus : Z;
  gpu_ids : list string;
  gpu_architectures : list GPUArchitecture;
  total_cpu_cores : Z;
  available_cpu_cores : Z;
  total_memory_gb : float;
  available_memory_gb : float;
  is_healthy : bool;
  last_updated : datetime;
}.

(** [NodeResources(node_name=name)]: the dataclass defaults. *)
Definition NodeResources_new (name : string) (now : datetime) : NodeResources :=
  {| node_name := name; total_gpus := 0; available_gpus := 0; gpu_ids := [];
     gpu_architectures := []; total_cpu_cores := 0; available_cpu_cores := 0;
     total_memory_gb := 0%float; available_memory_gb := 0%float;
     is_healthy := true; last_updated := now |}.

(** The object passed as [config], seen through the attributes that
    [allocate_resources] reads.  An attribute is absent ([None]: reading it
    raises [AttributeError]) or present with its value, which for
    [cpu_cores] and [memory_gb] may be Python's [None]. *)
Record ConfigObject := {
  cpu_cores : option (option Z);
  memory_gb : option (option float);
  cfg_gpu_architecture : option string;
}.

(** An attribute of an instance of the DTO class [BuildConfiguration]:
    present when the class declares the name. *)
Definition declared {A} (name : string) (v : A) : option A :=
  if bool_decide (name ∈ Dto.BuildConfiguration_attributes) then Some v else None.

(** An instance of the DTO class as the allocator sees it: the class
    declares [gpu_architecture], and neither [cpu_cores] nor [memory_gb]. *)
Definition of_BuildConfiguration (c : Dto.BuildConfiguration) : ConfigObject :=
  {| cpu_cores := declared "cpu_cores" None;
     memory_gb := declared "memory_gb" None;
     cfg_gpu_architecture := declared "gpu_architecture" (Dto.gpu_architecture c) |}.

(** [config.name] for an attribute that is absent or present. *)
Definition getattr {A} (name : string) (a : option A) : Py.outcome A :=
  match a with
  | Some v => Py.Return v
  | None => Py.Raise (Py.AttributeError name)
  end.

Record ResourceAllocator := {
  _nodes : list (string * NodeResources);
  _allocations : gmap UUID ResourceAllocation;
  _k8s_client : bool;
}.

(** [ResourceAllocator()]; [k8s] tells whether a cluster client could be
    initialised. *)
Definition ResourceAllocator_new (k8s : bool) : ResourceAllocator :=
  {| _nodes := []; _allocations := ∅; _k8s_client := k8s |}.

(** What one cluster node yields once its labels and quantities are read:
    the [gpu-vendor] and [gpu-arch] labels, the allocatable GPU count, CPU
    cores and memory (already in GB), and [_is_node_healthy]. *)
Record K8sNode := {
  k_name : string;
  k_gpu_vendor : option string;
  k_gpu_arch : option string;
  k_gpu_count : Z;
  k_cpu_cores : Z;
  k_memory_gb : float;
  k_healthy : bool;
}.

(** What the machine yields in standalone mode: [os.cpu_count()], the total
    and available memory of [psutil.virtual_memory()] in GB, and
    [_detect_local_gpus()]. *)
Record LocalProbe := {
  os_cpu_count : option Z;
  vm_total_gb : float;
  vm_available_gb : float;
  detected_gpus : Z;
}.

(** The inventory sources at the time of one refresh.  [list_node] is [None]
    when the cluster call raises; an item is [None] when reading that node
    raises (a quantity that does not parse). *)
Record Inventory := {
  local_probe : LocalProbe;
  list_node : option (list (option K8sNode));
}.

(** [[f(i) for i in range(n)]]. *)
Definition range_map {A} (n : Z) (f : Z → A) : list A :=
  map (fun i => f (Z.of_nat i)) (seq 0 (Z.to_nat n)).

Definition local_gpu_id (i : Z) : string := "gpu-" +:+ pretty i.
Definition k8s_gpu_id (name : string) (i : Z) : string := name +:+ "-gpu-" +:+ pretty i.

(** The node stored under [name], created first when absent. *)
Definition node_or_new (nodes : list (string * NodeResources)) (name : string)
    (now : datetime) : NodeResources :=
  match Py.get nodes name with
  | Some n => n
  | None => NodeResources_new name now
  end.

Definition _refresh_local_resources (a : ResourceAllocator) (p : LocalProbe)
    (now : datetime) : ResourceAllocator :=
  let node := node_or_new (_nodes a) "local" now in
  let total_cpu := Py.int_or (os_cpu_count p) 4 in
  let gpu_count := detected_gpus p in
  let node' :=
    {| node_name := node_name node;
       total_gpus := gpu_count;
       available_gpus := gpu_count;
       gpu_ids := range_map gpu_count local_gpu_id;
       gpu_architectures := replicate (Z.to_nat gpu_count) GFX90A;
       total_cpu_cores := total_cpu;
       available_cpu_cores := total_cpu;
       total_memory_gb := vm_total_gb p;
       available_memory_gb := vm_available_gb p;
       is_healthy := true;
       last_updated := now |} in
  {| _nodes := Py.set (_nodes a) "local" node';
     _allocations := _allocations a;
     _k8s_client := _k8s_client a |}.

(** The body of the [for node in nodes.items] loop for one node. *)
Definition refresh_k8s_node (nodes : list (string * NodeResources)) (k : K8sNode)
    (now : datetime) : list (string * NodeResources) :=
  if bool_decide (k_gpu_vendor k = Some "amd") then
    let gpu_arch := GPUArchitecture_of (default "gfx90a" (k_gpu_arch k)) in
    let node := node_or_new nodes (k_name k) now in
    let node' :=
      {| node_name := node_name node;
         total_gpus := k_gpu_count k;
         available_gpus := k_gpu_count k;
         gpu_ids := range_map (k_gpu_count k) (k8s_gpu_id (k_name k));
         gpu_architectures := replicate (Z.to_nat (k_gpu_count k)) gpu_arch;
         total_cpu_cores := k_cpu_cores k;
         available_cpu_cores := k_cpu_cores k;
         total_memory_gb := k_memory_gb k;
         available_memory_gb := k_memory_gb k;
         is_healthy := k_healthy k;
         last_updated := now |} in
    Py.set nodes (k_name k) node'
  else nodes.

(** The loop; a node that raises ends it (the [except] around the loop only
    logs). *)
Fixpoint refresh_k8s_nodes (nodes : list (string * NodeResources))
    (items : list (option K8sNode)) (now : datetime) : list (string * NodeResources) :=
  match items with
  | [] => nodes
  | None :: _ => nodes
  | Some k :: rest => refresh_k8s_nodes (refresh_k8s_node nodes k now) rest now
  end.

Definition refresh_node_resources (a : ResourceAllocator) (inv : Inventory)
    (now : datetime) : ResourceAllocator :=
  if _k8s_client a then
    match list_node inv with
    | None => a
    | Some items =>
        {| _nodes := refresh_k8s_nodes (_nodes a) items now;
           _allocations := _allocations a;
           _k8s_client := _k8s_client a |}
    end
  else _refresh_local_resources a (local_probe inv) now.

(** The filter of the selection loop of [allocate_resources]. *)
Definition node_fits (node : NodeResources) (required_gpus required_cpu : Z)
    (required_memory : float) (required_arch : string) : bool :=
  is_healthy node
  && negb (available_gpus node <? required_gpus)
  && negb (available_cpu_cores node <? required_cpu)
  && negb (PrimFloat.ltb (available_memory_gb node) required_memory)
  && negb (negb (bool_decide (required_arch = ""))
           && negb (bool_decide (required_arch ∈ map GPUArchitecture_value (gpu_architectures node)))).

(** One iteration of the selection loop: [selected] is the dictionary key of
    the node selected so far, with that node. *)
Definition select_step (required_gpus required_cpu : Z) (required_memory : float)
    (required_arch : string) (selected : option (string * NodeResources))
    (entry : string * NodeResources) : option (string * NodeResources) :=
  if node_fits (snd entry) required_gpus required_cpu required_memory required_arch then
    match selected with
    | None => Some entry
    | Some s => if available_gpus (snd entry) >? available_gpus (snd s) then Some entry else selected
    end
  else selected.

(** The critical section of [allocate_resources], once the requirements are
    read off the configuration. *)
Definition allocate_locked (a : ResourceAllocator) (now : datetime) (uuid4 : UUID)
    (required_cpu : Z) (required_memory : float) (required_arch : string)
    : ResourceAllocator * option ResourceAllocation :=
  let required_gpus := 1 in
  match fold_left (select_step required_gpus required_cpu required_memory required_arch)
                  (_nodes a) None with
  | None => (a, None)
  | Some (key, selected_node) =>
      let allocated_gpu_ids := take (Z.to_nat required_gpus) (gpu_ids selected_node) in
      let node' :=
        {| node_name := node_name selected_node;
           total_gpus := total_gpus selected_node;
           available_gpus := available_gpus selected_node - required_gpus;
           gpu_ids := gpu_ids selected_node;
           gpu_architectures := gpu_architectures selected_node;
           total_cpu_cores := total_cpu_cores selected_node;
           available_cpu_cores := available_cpu_cores selected_node - required_cpu;
           total_memory_gb := total_memory_gb selected_node;
           available_memory_gb := PrimFloat.sub (available_memory_gb selected_node) required_memory;
           is_healthy := is_healthy selected_node;
           last_updated := last_updated selected_node |} in
      let allocation :=
        {| allocation_id := uuid4;
           ra_gpu_ids := allocated_gpu_ids;
           ra_cpu_cores := required_cpu;
           ra_memory_gb := required_memory;
           ra_node_name := node_name selected_node;
           allocated_at := now |} in
      ({| _nodes := Py.set (_nodes a) key node';
          _allocations := <[uuid4 := allocation]> (_allocations a);
          _k8s_client := _k8s_client a |},
       Some allocation)
  end.

(** [allocate_resources(config)]: the refresh comes first, then the reads of
    the configuration, then the critical section. *)
Definition allocate_resources (inv : Inventory) (now : datetime) (uuid4 : UUID)
    (config : ConfigObject) : Py.M ResourceAllocator (option ResourceAllocation) :=
  fun a =>
    let a := refresh_node_resources a inv now in
    match getattr "cpu_cores" (cpu_cores config) with
    | Py.Raise e => (a, Py.Raise e)
    | Py.Return cpu =>
        match getattr "memory_gb" (memory_gb config) with
        | Py.Raise e => (a, Py.Raise e)
        | Py.Return mem =>
            match getattr "gpu_architecture" (cfg_gpu_architecture config) with
            | Py.Raise e => (a, Py.Raise e)
            | Py.Return required_arch =>
                let '(a', r) :=
                  allocate_locked a now uuid4 (Py.int_or cpu 8)
                    (Py.float_or mem 32%float) required_arch in
                (a', Py.Return r)
            end
        end
    end.

(** [release_resources(allocation)]; it cannot raise. *)
Definition release_resources (a : ResourceAllocator) (allocation : ResourceAllocation)
    : ResourceAllocator * bool :=
  match _allocations a !! allocation_id allocation with
  | None => (a, false)
  | Some _ =>
      let allocations' := delete (allocation_id allocation) (_allocations a) in
      let nodes' :=
        match Py.get (_nodes a) (ra_node_name allocation) with
        | Some node =>
            Py.set (_nodes a) (ra_node_name allocation)
              {| node_name := node_name node;
                 total_gpus := total_gpus node;
                 available_gpus := available_gpus node + Z.of_nat (length (ra_gpu_ids allocation));
                 gpu_ids := gpu_ids node;
                 gpu_architectures := gpu_architectures node;
                 total_cpu_cores := total_cpu_cores node;
                 available_cpu_cores := available_cpu_cores node + ra_cpu_cores allocation;
                 total_memory_gb := total_memory_gb node;
                 available_memory_gb := PrimFloat.add (available_memory_gb node) (ra_memory_gb allocation);
                 is_healthy := is_healthy node;
                 last_updated := last_updated node |}
        | None => _nodes a
        end in
      ({| _nodes := nodes'; _allocations := allocations'; _k8s_client := _k8s_client a |}, true)
  end.

(** [get_available_resources()]: the refresh, then the sums over the healthy
    nodes.  The [memory_gb] entry, a float sum that no modelled caller reads,
    is left out. *)
Record Available := {
  gpu_count : Z;
  avail_cpu_cores : Z;
  healthy_nodes : Z;
  total_nodes : Z;
}.

Definition get_available_resources (inv : Inventory) (now : datetime)
    (a : ResourceAllocator) : ResourceAllocator * Available :=
  let a := refresh_node_resources a inv now in
  let healthy := filter (fun n => is_healthy n = true) (Py.values (_nodes a)) in
  (a,
   {| gpu_count := fold_left (fun acc n => acc + available_gpus n) healthy 0;
      avail_cpu_cores := fold_left (fun acc n => acc + available_cpu_cores n) healthy 0;
      healthy_nodes := Z.of_nat (length healthy);
      total_nodes := Z.of_nat (length (_nodes a)) |}).

(** The GPUs, CPU cores and memory held by the outstanding allocations that
    name the node [name]. *)
Definition on_node (a : ResourceAllocator) (name : string) : list ResourceAllocation :=
  filter (fun al => ra_node_name al = name) (map snd (map_to_list (_allocations a))).

Definition outstanding_gpus (a : ResourceAllocator) (name : string) : Z :=
  foldr (fun al acc => Z.of_nat (length (ra_gpu_ids al)) + acc) 0 (on_node a name).

Definition outstanding_cpu (a : ResourceAllocator) (name : string) : Z :=
  foldr (fun al acc => ra_cpu_cores al + acc) 0 (on_node a name).

End Allocator.

(** ** load_balancer.py *)
Module Balancer.
Import Dto.

Inductive LoadBalancingStrategy :=
| ROUND_ROBIN | LEAST_CONNECTIONS | WEIGHTED_ROUND_ROBIN | RANDOM | RESOURCE_AWARE.

Record WorkerInfo := {
  worker_id : string;
  address : string;
  port : Z;
  weight : Z;
  current_load : Z;
  max_load : Z;
  is_healthy : bool;
  last_health_check : datetime;
  total_builds_completed : Z;
  average_build_time_seconds : float;
}.

Definition available_capacity (w : WorkerInfo) : Z := Z.max 0 (max_load w - current_load w).

Definition with_load (w : WorkerInfo) (load : Z) : WorkerInfo :=
  {| worker_id := worker_id w; address := address w; port := port w; weight := weight w;
     current_load := load; max_load := max_load w; is_healthy := is_healthy w;
     last_health_check := last_health_check w;
     total_builds_completed := total_builds_completed w;
     average_build_time_seconds := average_build_time_seconds w |}.

Definition with_health (w : WorkerInfo) (healthy : bool) (checked : datetime) : WorkerInfo :=
  {| worker_id := worker_id w; address := address w; port := port w; weight := weight w;
     current_load := current_load w; max_load := max_load w; is_healthy := healthy;
     last_health_check := checked;
     total_builds_completed := total_builds_completed w;
     average_build_time_seconds := average_build_time_seconds w |}.

Record LoadBalancer := {
  _strategy : LoadBalancingStrategy;
  _workers : list (string * WorkerInfo);
  _round_robin_index : Z;
  _health_check_interval : Z;
}.

Definition LoadBalancer_new (strategy : LoadBalancingStrategy) (interval : Z) : LoadBalancer :=
  {| _strategy := strategy; _workers := []; _round_robin_index := 0;
     _health_check_interval := interval |}.

Definition with_workers (lb : LoadBalancer) (ws : list (string * WorkerInfo)) : LoadBalancer :=
  {| _strategy := _strategy lb; _workers := ws;
     _round_robin_index := _round_robin_index lb;
     _health_check_interval := _health_check_interval lb |}.

Definition register_worker (lb : LoadBalancer) (wid addr : string) (port weight max_load : Z)
    (now : datetime) : LoadBalancer :=
  with_workers lb
    (Py.set (_workers lb) wid
       {| worker_id := wid; address := addr; port := port; weight := weight;
          current_load := 0; max_load := max_load; is_healthy := true;
          last_health_check := now; total_builds_completed := 0;
          average_build_time_seconds := 600%float |}).

Definition unregister_worker (lb : LoadBalancer) (wid : string) : LoadBalancer * bool :=
  match Py.get (_workers lb) wid with
  | Some _ => (with_workers lb (Py.del (_workers lb) wid), true)
  | None => (lb, false)
  end.

(** The draws of [random] that one selection consumes: the index picked by
    [random.choice] and the number returned by [random.randint]. *)
Record Draw := {
  choice : nat;
  randint : Z;
}.

(** [min(workers, key=lambda w: w.current_load)]: the first minimum. *)
Definition _select_least_connections (workers : list WorkerInfo) : option WorkerInfo :=
  match workers with
  | [] => None
  | w :: rest =>
      Some (fold_left (fun best x => if current_load x <? current_load best then x else best)
                      rest w)
  end.

(** The [for worker in workers] loop of [_select_weighted_round_robin]. *)
Fixpoint weighted_scan (workers : list WorkerInfo) (current target : Z) : option WorkerInfo :=
  match workers with
  | [] => None
  | w :: rest =>
      let current := current + weight w * available_capacity w in
      if target <=? current then Some w else weighted_scan rest current target
  end.

Definition _select_weighted_round_robin (workers : list WorkerInfo) (d : Draw)
    : Py.outcome (option WorkerInfo) :=
  let total_weight := fold_left (fun acc w => acc + weight w * available_capacity w) workers 0 in
  if total_weight =? 0 then Py.Return (_select_least_connections workers)
  else if total_weight <? 1 then Py.Raise (Py.ValueError "empty range for randrange()")
  else
    match weighted_scan workers 0 (randint d) with
    | Some w => Py.Return (Some w)
    | None => Py.Return (last workers)
    end.

(** The score of [_select_resource_aware] for one worker.  The literals
    0.4, 0.3 and 0.15 are written as the binary64 values they denote. *)
Definition resource_score (w : WorkerInfo) : float :=
  let cap := Py.float_of_Z (Z.max (max_load w) 1) in
  let load_score := PrimFloat.sub 1%float (PrimFloat.div (Py.float_of_Z (current_load w)) cap) in
  let score := PrimFloat.add 0%float (PrimFloat.mul load_score 0x1.999999999999ap-2%float) in
  let capacity_score := PrimFloat.div (Py.float_of_Z (available_capacity w)) cap in
  let score := PrimFloat.add score (PrimFloat.mul capacity_score 0x1.3333333333333p-2%float) in
  if 0 <? total_builds_completed w then
    let avg := average_build_time_seconds w in
    let efficiency_score :=
      PrimFloat.div 600%float (if PrimFloat.ltb avg 1%float then 1%float else avg) in
    PrimFloat.add score
      (PrimFloat.mul (if PrimFloat.ltb 1%float efficiency_score then 1%float else efficiency_score)
                     0x1.3333333333333p-2%float)
  else PrimFloat.add score 0x1.3333333333333p-3%float.

(** The head of the list sorted by decreasing score (a stable sort): the
    first worker of maximal score. *)
Definition _select_resource_aware (workers : list WorkerInfo) : option WorkerInfo :=
  match workers with
  | [] => None
  | w :: rest =>
      Some (fold_left (fun best x =>
                         if PrimFloat.ltb (resource_score best) (resource_score x) then x else best)
                      rest w)
  end.

(** [_select_by_strategy] on a non-empty list, with the new round-robin
    index. *)
Definition _select_by_strategy (lb : LoadBalancer) (workers : list WorkerInfo) (d : Draw)
    : Z * Py.outcome (option WorkerInfo) :=
  match _strategy lb with
  | ROUND_ROBIN =>
      let i := (_round_robin_index lb + 1) `mod` Z.of_nat (length workers) in
      (i, Py.Return (workers !! Z.to_nat i))
  | LEAST_CONNECTIONS => (_round_robin_index lb, Py.Return (_select_least_connections workers))
  | WEIGHTED_ROUND_ROBIN => (_round_robin_index lb, _select_weighted_round_robin workers d)
  | RANDOM => (_round_robin_index lb, Py.Return (workers !! (choice d `mod` length workers)%nat))
  | RESOURCE_AWARE => (_round_robin_index lb, Py.Return (_select_resource_aware workers))
  end.

Definition select_worker (request : BuildRequest) (d : Draw)
    : Py.M LoadBalancer (option string) :=
  fun lb =>
    let available_workers :=
      filter (fun w => is_healthy w = true ∧ current_load w < max_load w)
             (Py.values (_workers lb)) in
    match available_workers with
    | [] => (lb, Py.Return None)
    | _ =>
        let '(i, o) := _select_by_strategy lb available_workers d in
        let lb := {| _strategy := _strategy lb; _workers := _workers lb;
                     _round_robin_index := i;
                     _health_check_interval := _health_check_interval lb |} in
        match o with
        | Py.Raise e => (lb, Py.Raise e)
        | Py.Return None => (lb, Py.Return None)
        | Py.Return (Some selected) =>
            (with_workers lb
               (Py.set (_workers lb) (worker_id selected)
                       (with_load selected (current_load selected + 1))),
             Py.Return (Some (worker_id selected)))
        end
    end.

Definition update_worker_load (lb : LoadBalancer) (wid : string) (load_delta : Z)
    : LoadBalancer :=
  match Py.get (_workers lb) wid with
  | Some worker =>
      with_workers lb
        (Py.set (_workers lb) wid (with_load worker (Z.max 0 (current_load worker + load_delta))))
  | None => lb
  end.

Definition record_build_completion (wid : string) (build_time_seconds : float)
    : Py.M LoadBalancer unit :=
  fun lb =>
    match Py.get (_workers lb) wid with
    | Some worker =>
        let load := Z.max 0 (current_load worker - 1) in
        let n := total_builds_completed worker + 1 in
        let old_avg := average_build_time_seconds worker in
        let counted :=
          {| worker_id := worker_id worker; address := address worker; port := port worker;
             weight := weight worker; current_load := load; max_load := max_load worker;
             is_healthy := is_healthy worker; last_health_check := last_health_check worker;
             total_builds_completed := n;
             average_build_time_seconds := old_avg |} in
        if n =? 0 then (with_workers lb (Py.set (_workers lb) wid counted), Py.Raise Py.ZeroDivisionError)
        else
          let new_avg :=
            PrimFloat.div
              (PrimFloat.add (PrimFloat.mul (Py.float_of_Z (n - 1)) old_avg) build_time_seconds)
              (Py.float_of_Z n) in
          (with_workers lb
             (Py.set (_workers lb) wid
                {| worker_id := worker_id worker; address := address worker; port := port worker;
                   weight := weight worker; current_load := load; max_load := max_load worker;
                   is_healthy := is_healthy worker; last_health_check := last_health_check worker;
                   total_builds_completed := n;
                   average_build_time_seconds := new_avg |}),
           Py.Return tt)
    | None => (lb, Py.Return tt)
    end.

Definition mark_worker_unhealthy (lb : LoadBalancer) (wid : string) : LoadBalancer :=
  match Py.get (_workers lb) wid with
  | Some w => with_workers lb (Py.set (_workers lb) wid (with_health w false (last_health_check w)))
  | None => lb
  end.

Definition mark_worker_healthy (lb : LoadBalancer) (wid : string) (now : datetime) : LoadBalancer :=
  match Py.get (_workers lb) wid with
  | Some w => with_workers lb (Py.set (_workers lb) wid (with_health w true now))
  | None => lb
  end.

(** What the HTTP probe of one worker comes to: a response with its status
    code, or an exception inside the [try] (timeout, refused connection). *)
Inductive Probe :=
| Responded (status : Z)
| TimedOut
| ConnectionFailed.

(** The probe succeeded: a response with status 200. *)
Definition probe_ok (p : Probe) : bool :=
  match p with Responded st => st =? 200 | _ => false end.

Definition _check_worker_health (lb : LoadBalancer) (wid : string) (p : Probe) : bool :=
  match Py.get (_workers lb) wid with
  | None => false
  | Some _ =>
      match p with
      | Responded st => st =? 200
      | TimedOut => true
      | ConnectionFailed => true
      end
  end.

(** The body of the loop of [_perform_health_checks] for one worker id. *)
Definition health_check_one (probe : string → Probe) (now : datetime)
    (lb : LoadBalancer) (wid : string) : LoadBalancer :=
  if _check_worker_health lb wid (probe wid)
  then mark_worker_healthy lb wid now
  else mark_worker_unhealthy lb wid.

Definition _perform_health_checks (lb : LoadBalancer) (probe : string → Probe)
    (now : datetime) : LoadBalancer :=
  let worker_ids := Py.keys (_workers lb) in
  fold_left (health_check_one probe now) worker_ids lb.

End Balancer.

(** ** state_manager.py *)
Module State.
Import Constants Dto.

(** The values stored in a build's state dictionary. *)
Inductive value :=
| VNone
| VStr (s : string)
| VInt (z : Z)
| VFloat (f : float)
| VTime (t : datetime).

Record StateManager := {
  _build_states : list (UUID * gmap string value);
  _build_requests : gmap UUID BuildRequest;
  _persistence_enabled : bool;
}.

Definition StateManager_new : StateManager :=
  {| _build_states := []; _build_requests := ∅; _persistence_enabled := false |}.

Definition with_states (sm : StateManager) (states : list (UUID * gmap string value))
    : StateManager :=
  {| _build_states := states; _build_requests := _build_requests sm;
     _persistence_enabled := _persistence_enabled sm |}.

Definition opt_int (o : option Z) : value :=
  match o with Some z => VInt z | None => VNone end.

Definition save_build_request (sm : StateManager) (request : BuildRequest) (now : datetime)
    : StateManager :=
  {| _build_states :=
       Py.set (_build_states sm) (id request)
         (<["created_at" := VTime now]>
          (<["pr_number" := opt_int (pr_number request)]>
           (<["commit_sha" := VStr (commit_sha request)]>
            (<["branch" := VStr (branch request)]>
             (<["repository" := VStr (repository request)]>
              (<["status" := VStr (BuildStatus_value PENDING)]> ∅))))));
     _build_requests := <[id request := request]> (_build_requests sm);
     _persistence_enabled := _persistence_enabled sm |}.

Definition get_build_state (sm : StateManager) (build_id : UUID) : option (gmap string value) :=
  Py.get (_build_states sm) build_id.

(** [get_build_state(build_id)[key]], when both are there. *)
Definition state_of (sm : StateManager) (build_id : UUID) (key : string) : option value :=
  get_build_state sm build_id ≫= (fun st => st !! key).

(** [d.update(metadata)]. *)
Definition dict_update (d : gmap string value) (metadata : list (string * value))
    : gmap string value :=
  fold_left (fun acc kv => <[fst kv := snd kv]> acc) metadata d.

(** The tuple [(BuildStatus.SUCCESS, BuildStatus.FAILED, BuildStatus.CANCELLED)]
    of [update_build_status], its members looked up from left to right. *)
Definition terminal_statuses : Py.outcome (list BuildStatus) :=
  match BuildStatus_attr "SUCCESS" with
  | Py.Raise e => Py.Raise e
  | Py.Return a =>
      match BuildStatus_attr "FAILED" with
      | Py.Raise e => Py.Raise e
      | Py.Return b =>
          match BuildStatus_attr "CANCELLED" with
          | Py.Raise e => Py.Raise e
          | Py.Return c => Py.Return [a; b; c]
          end
      end
  end.

(** [update_build_status(build_id, status, metadata)] at the clock reading
    [now].  The writes of the status, of [updated_at] and of the metadata come
    before the terminal-status test.  (The write-through to the persistent
    store, which follows the critical section, is outside the model.) *)
Definition update_build_status (build_id : UUID) (status : BuildStatus)
    (metadata : option (list (string * value))) (now : datetime) : Py.M StateManager unit :=
  fun sm =>
    let st := default ∅ (Py.get (_build_states sm) build_id) in
    let st := <["status" := VStr (BuildStatus_value status)]> st in
    let st := <["updated_at" := VTime now]> st in
    let st := match metadata with
              | Some (kv :: md) => dict_update st (kv :: md)
              | _ => st
              end in
    match terminal_statuses with
    | Py.Raise e => (with_states sm (Py.set (_build_states sm) build_id st), Py.Raise e)
    | Py.Return terminal =>
        let st := if bool_decide (status ∈ terminal)
                  then <["completed_at" := VTime now]> st else st in
        (with_states sm (Py.set (_build_states sm) build_id st), Py.Return tt)
    end.

Definition is_pending_or_running (st : gmap string value) : bool :=
  match st !! "status" with
  | Some (VStr v) =>
      bool_decide (v = BuildStatus_value PENDING) || bool_decide (v = BuildStatus_value RUNNING)
  | _ => false
  end.

(** One round of the loop of [restore_pending_builds]. *)
Definition restore_step (sm : StateManager) (restored_builds : list BuildRequest)
    (entry : UUID * gmap string value) : list BuildRequest :=
  if is_pending_or_running (snd entry) then
    match _build_requests sm !! fst entry with
    | Some request =>
        if bool_decide (request ∈ restored_builds) then restored_builds
        else restored_builds ++ [request]
    | None => restored_builds
    end
  else restored_builds.

(** [restore_pending_builds()]; [from_redis] is what
    [_load_pending_builds_from_redis] returns when persistence is enabled. *)
Definition restore_pending_builds (sm : StateManager) (from_redis : list BuildRequest)
    : list BuildRequest :=
  let restored_builds := if _persistence_enabled sm then from_redis else [] in
  fold_left (restore_step sm) (_build_states sm) restored_builds.

(** [get_build_request(build_id)]; [from_redis] is what
    [_load_request_from_redis] returns when persistence is enabled. *)
Definition get_build_request (sm : StateManager) (build_id : UUID)
    (from_redis : option BuildRequest) : option BuildRequest :=
  match _build_requests sm !! build_id with
  | Some request => Some request
  | None => if _persistence_enabled sm then from_redis else None
  end.

(** [get_build_state(build_id)] with the fallback to the persistent store:
    [from_redis] is what [_load_state_from_redis] returns. *)
Definition load_build_state (sm : StateManager) (build_id : UUID)
    (from_redis : option (gmap string value)) : option (gmap string value) :=
  match get_build_state sm build_id with
  | Some state => Some state
  | None => if _persistence_enabled sm then from_redis else None
  end.

(** [get_all_active_builds()]: copies of the states that are pending or
    running, in the order of [_build_states]. *)
Definition get_all_active_builds (sm : StateManager) : list (UUID * gmap string value) :=
  fold_left (fun active_builds entry =>
               if is_pending_or_running (snd entry)
               then Py.set active_builds (fst entry) (snd entry)
               else active_builds)
            (_build_states sm) [].

(** *** Checkpoints

    The dictionary [_checkpoints] of the state manager, which none of the
    methods above reads or writes; the methods that do take it as their
    store. *)
Record Checkpoint := {
  stage : string;
  cp_timestamp : datetime;
  data : list (string * value);
}.

(** An entry of [_checkpoints]: the list under ["checkpoints"], and
    ["latest_stage"] once it is set. *)
Record CheckpointData := {
  checkpoints : list Checkpoint;
  latest_stage : option string;
}.

Abbreviation Checkpoints := (gmap UUID CheckpointData) (only parsing).

(** [checkpoint_build(build_id, stage, data)] at the clock reading [now];
    [data or {}] is the data given, or an empty dictionary. *)
Definition checkpoint_build (cps : Checkpoints) (build_id : UUID) (stage : string)
    (data : option (list (string * value))) (now : datetime) : Checkpoints :=
  let checkpoint := {| stage := stage; cp_timestamp := now; data := default [] data |} in
  let entry := default {| checkpoints := []; latest_stage := None |} (cps !! build_id) in
  <[build_id := {| checkpoints := checkpoints entry ++ [checkpoint];
                   latest_stage := Some stage |}]> cps.

(** [get_latest_checkpoint(build_id)]; [from_redis] is what
    [_load_checkpoint_from_redis] returns when persistence is enabled. *)
Definition get_latest_checkpoint (sm : StateManager) (cps : Checkpoints) (build_id : UUID)
    (from_redis : option Checkpoint) : option Checkpoint :=
  match cps !! build_id ≫= (fun checkpoint_data => last (checkpoints checkpoint_data)) with
  | Some checkpoint => Some checkpoint
  | None => if _persistence_enabled sm then from_redis else None
  end.

(** [delete_build_state(build_id)], on the three dictionaries. *)
Definition delete_build_state (sm : StateManager) (cps : Checkpoints) (build_id : UUID)
    : StateManager * Checkpoints :=
  ({| _build_states := Py.del (_build_states sm) build_id;
      _build_requests := delete build_id (_build_requests sm);
      _persistence_enabled := _persistence_enabled sm |},
   delete build_id cps).

End State.

(** ** coordinator.py *)
Module Coordinator.
Import Constants Dto.

Record BuildCoordinator := {
  _queue_manager : Queue.QueueManager;
  _resource_allocator : Allocator.ResourceAllocator;
  _load_balancer : Balancer.LoadBalancer;
  _state_manager : State.StateManager;
  _active_builds : gmap UUID BuildRequest;
  _running : bool;
  _processing_task : bool;
}.

Definition BuildCoordinator_new (q : Queue.QueueManager) (a : Allocator.ResourceAllocator)
    (lb : Balancer.LoadBalancer) (sm : State.StateManager) : BuildCoordinator :=
  {| _queue_manager := q; _resource_allocator := a; _load_balancer := lb;
     _state_manager := sm; _active_builds := ∅; _running := false;
     _processing_task := false |}.

Definition with_queue (c : BuildCoordinator) (q : Queue.QueueManager) : BuildCoordinator :=
  {| _queue_manager := q; _resource_allocator := _resource_allocator c;
     _load_balancer := _load_balancer c; _state_manager := _state_manager c;
     _active_builds := _active_builds c; _running := _running c;
     _processing_task := _processing_task c |}.

Definition with_allocator (c : BuildCoordinator) (a : Allocator.ResourceAllocator)
    : BuildCoordinator :=
  {| _queue_manager := _queue_manager c; _resource_allocator := a;
     _load_balancer := _load_balancer c; _state_manager := _state_manager c;
     _active_builds := _active_builds c; _running := _running c;
     _processing_task := _processing_task c |}.

Definition with_balancer (c : BuildCoordinator) (lb : Balancer.LoadBalancer)
    : BuildCoordinator :=
  {| _queue_manager := _queue_manager c; _resource_allocator := _resource_allocator c;
     _load_balancer := lb; _state_manager := _state_manager c;
     _active_builds := _active_builds c; _running := _running c;
     _processing_task := _processing_task c |}.

Definition with_state (c : BuildCoordinator) (sm : State.StateManager) : BuildCoordinator :=
  {| _queue_manager := _queue_manager c; _resource_allocator := _resource_allocator c;
     _load_balancer := _load_balancer c; _state_manager := sm;
     _active_builds := _active_builds c; _running := _running c;
     _processing_task := _processing_task c |}.

Definition with_active (c : BuildCoordinator) (active : gmap UUID BuildRequest)
    : BuildCoordinator :=
  {| _queue_manager := _queue_manager c; _resource_allocator := _resource_allocator c;
     _load_balancer := _load_balancer c; _state_manager := _state_manager c;
     _active_builds := active; _running := _running c;
     _processing_task := _processing_task c |}.

(** What the outside world supplies to one coordinator step: the inventory
    seen by a refresh, the clock, a fresh UUID, the draws of [random], and
    the pending builds found in the persistent store. *)
Record World := {
  inventory : Allocator.Inventory;
  now : datetime;
  uuid4 : UUID;
  draw : Balancer.Draw;
  from_redis : list BuildRequest;
}.

(** The statements of [start] up to and including [create_task]. *)
Definition start_spawn (c : BuildCoordinator) : BuildCoordinator :=
  {| _queue_manager := _queue_manager c; _resource_allocator := _resource_allocator c;
     _load_balancer := _load_balancer c; _state_manager := _state_manager c;
     _active_builds := _active_builds c; _running := true;
     _processing_task := true |}.

(** [await self._state_manager.restore_pending_builds()]: the returned list
    is not bound to anything. *)
Definition start_restore (w : World) (c : BuildCoordinator) : BuildCoordinator :=
  let _ := State.restore_pending_builds (_state_manager c) (from_redis w) in
  c.

Definition start (w : World) (c : BuildCoordinator) : BuildCoordinator :=
  start_restore w (start_spawn c).

Definition submit_build (w : World) (request : BuildRequest) (c : BuildCoordinator)
    : BuildCoordinator * UUID :=
  let priority := Scheduler.calculate_priority request in
  let request := set_priority request priority in
  let c := with_state c (State.save_build_request (_state_manager c) request (now w)) in
  let c := with_queue c (fst (Queue.enqueue (_queue_manager c) request (now w))) in
  (c, id request).

(** [request.configurations[0] if request.configurations else
    BuildConfiguration()]: the constructor without arguments lacks the
    required [rocm_version] and [gpu_architecture]. *)
Definition first_configuration (request : BuildRequest) : Py.outcome BuildConfiguration :=
  match configurations request with
  | c :: _ => Py.Return c
  | [] => Py.Raise (Py.ValidationError "BuildConfiguration")
  end.

(** [BuildResult(...)] with the keyword arguments given; [request_id] is a
    required field. *)
Definition BuildResult_init (request_id : option UUID) (configuration : BuildConfiguration)
    (status : BuildStatus) (started_at : option datetime) : Py.outcome BuildResult :=
  match request_id with
  | None => Py.Raise (Py.ValidationError "BuildResult.request_id")
  | Some rid =>
      Py.Return {| Dto.request_id := rid; Dto.configuration := configuration;
                   environment := None; status := status;
                   Dto.started_at := started_at; finished_at := None |}
  end.

(** [_dispatch_to_worker]: the call passes [build_id], [request],
    [configuration], [status], [started_at] and [completed_at], and no
    [request_id]. *)
Definition _dispatch_to_worker {S} (w : World) (worker : string) (request : BuildRequest)
    (allocation : Allocator.ResourceAllocation) : Py.M S BuildResult :=
  let* configuration := Py.lift (first_configuration request) in
  let* status := Py.lift (BuildStatus_attr "SUCCESS") in
  Py.lift (BuildResult_init None configuration status (Some (now w))).

(** [result.name] as a state value, for the names read by
    [_handle_build_result]. *)
Definition BuildResult_getattr (result : BuildResult) (name : string) : Py.outcome State.value :=
  if bool_decide (name ∈ BuildResult_attributes) then
    Py.Return
      (if bool_decide (name = "started_at") then
         match Dto.started_at result with Some t => State.VTime t | None => State.VNone end
       else if bool_decide (name = "finished_at") then
         match finished_at result with Some t => State.VTime t | None => State.VNone end
       else if bool_decide (name = "status") then State.VStr (BuildStatus_value (status result))
       else State.VNone)
  else Py.Raise (Py.AttributeError name).

Definition on_state {A} (m : Py.M State.StateManager A) : Py.M BuildCoordinator A :=
  Py.zoom _state_manager with_state m.

Definition on_allocator {A} (m : Py.M Allocator.ResourceAllocator A) : Py.M BuildCoordinator A :=
  Py.zoom _resource_allocator with_allocator m.

Definition on_balancer {A} (m : Py.M Balancer.LoadBalancer A) : Py.M BuildCoordinator A :=
  Py.zoom _load_balancer with_balancer m.

(** The worker named by a result: [result.environment.node_name if
    result.environment else "unknown"]. *)
Definition result_worker (result : BuildResult) : option string :=
  match environment result with
  | Some env => env_node_name env
  | None => Some "unknown"
  end.

Definition _handle_build_result (w : World) (build_id : UUID) (result : BuildResult)
    : Py.M BuildCoordinator unit :=
  let* completed_at := Py.lift (BuildResult_getattr result "completed_at") in
  let* duration_seconds := Py.lift (BuildResult_getattr result "duration_seconds") in
  on_state (State.update_build_status build_id (status result)
              (Some [("completed_at", completed_at); ("duration_seconds", duration_seconds)])
              (now w)) ;;;
  Py.modify (fun c =>
    match result_worker result with
    | Some wid => with_balancer c (Balancer.update_worker_load (_load_balancer c) wid (-1))
    | None => c
    end).

(** The frame of one call of [_execute_build]: the coordinator and the local
    variable [allocation], unbound until the assignment is reached. *)
Record Frame := {
  self : BuildCoordinator;
  allocation : option (option Allocator.ResourceAllocation);
}.

Definition on_self {A} (m : Py.M BuildCoordinator A) : Py.M Frame A :=
  Py.zoom self (fun f c => {| self := c; allocation := allocation f |}) m.

Definition assign_allocation (a : option Allocator.ResourceAllocation) : Py.M Frame unit :=
  Py.modify (fun f => {| self := self f; allocation := Some a |}).

(** Reading the local variable [allocation]. *)
Definition read_allocation : Py.M Frame (option Allocator.ResourceAllocation) :=
  fun f =>
    match allocation f with
    | Some a => (f, Py.Return a)
    | None => (f, Py.Raise (Py.UnboundLocalError "allocation"))
    end.

Definition enqueue_again (w : World) (request : BuildRequest) : Py.M BuildCoordinator unit :=
  Py.modify (fun c => with_queue c (fst (Queue.enqueue (_queue_manager c) request (now w)))).

Definition release (al : Allocator.ResourceAllocation) : Py.M BuildCoordinator unit :=
  Py.modify (fun c =>
    with_allocator c (fst (Allocator.release_resources (_resource_allocator c) al))).

(** The [try] block of [_execute_build]. *)
Definition execute_try (w : World) (request : BuildRequest) : Py.M Frame unit :=
  let build_id := id request in
  on_self (Py.modify (fun c => with_active c (<[build_id := request]> (_active_builds c)))) ;;;
  on_self (on_state (State.update_build_status build_id RUNNING
                       (Some [("started_at", State.VTime (now w))]) (now w))) ;;;
  let* config := Py.lift (first_configuration request) in
  let* al := on_self (on_allocator
                (Allocator.allocate_resources (inventory w) (now w) (uuid4 w)
                   (Allocator.of_BuildConfiguration config))) in
  assign_allocation al ;;;
  match al with
  | None => on_self (enqueue_again w request)
  | Some al =>
      let* worker := on_self (on_balancer (Balancer.select_worker request (draw w))) in
      match worker with
      | None => on_self (release al) ;;; on_self (enqueue_again w request)
      | Some worker =>
          let* result := _dispatch_to_worker w worker request al in
          on_self (_handle_build_result w build_id result)
      end
  end.

(** The [except Exception as e] block: [BuildStatus.FAILED] is looked up
    before [update_build_status] is called. *)
Definition execute_except (w : World) (request : BuildRequest) (e : Py.exn) : Py.M Frame unit :=
  let* failed := Py.lift (BuildStatus_attr "FAILED") in
  on_self (on_state (State.update_build_status (id request) failed
                       (Some [("error", State.VStr "error")]) (now w))).

(** The [finally] block. *)
Definition execute_finally (request : BuildRequest) : Py.M Frame unit :=
  on_self (Py.modify (fun c => with_active c (delete (id request) (_active_builds c)))) ;;;
  let* al := read_allocation in
  match al with
  | Some al => on_self (release al)
  | None => Py.ret tt
  end.

Definition _execute_build (w : World) (request : BuildRequest) : Py.M BuildCoordinator unit :=
  fun c =>
    let '(f, o) :=
      Py.try_finally (Py.try_except (execute_try w request) (execute_except w request))
                     (execute_finally request)
                     {| self := c; allocation := None |} in
    (self f, o).

(** One round of the [while self._running] loop of [_process_queue], up to
    the [sleep]: the coordinator afterwards and the request, if any, for
    which an [_execute_build] task is created. *)
Definition process_queue_round (w : World) (c : BuildCoordinator)
    : BuildCoordinator * option BuildRequest :=
  let '(a, resources) :=
    Allocator.get_available_resources (inventory w) (now w) (_resource_allocator c) in
  let c := with_allocator c a in
  if 0 <? Allocator.gpu_count resources then
    match Queue.dequeue (_queue_manager c) None with
    | (q, Queue.Returned r) => (with_queue c q, r)
    | (q, Queue.Waiting _) => (with_queue c q, None)
    end
  else (c, None).

(** [BuildStatus(v)]: the member with the value [v]; [ValueError] when
    there is none. *)
Definition BuildStatus_of_value (v : State.value) : Py.outcome BuildStatus :=
  match v with
  | State.VStr s =>
      match filter (fun m => BuildStatus_value (snd m) = s) BuildStatus_members with
      | m :: _ => Py.Return (snd m)
      | [] => Py.Raise (Py.ValueError "BuildStatus")
      end
  | _ => Py.Raise (Py.ValueError "BuildStatus")
  end.

(** [BuildSummary]: the fields without a default. *)
Record BuildSummary := {
  bs_build_id : UUID;
  bs_status : BuildStatus;
  bs_repository : string;
  bs_branch : string;
  bs_commit_sha : string;
  bs_rocm_version : string;
  bs_gpu_architecture : string;
}.

(** [BuildSummary(...)] with the keyword arguments given; [commit_sha],
    [rocm_version] and [gpu_architecture] are required fields, and
    [repository] and [branch] must be strings. *)
Definition BuildSummary_init (build_id : UUID) (repository branch : State.value)
    (status : BuildStatus) (commit_sha rocm_version gpu_architecture : option string)
    : Py.outcome BuildSummary :=
  match repository, branch, commit_sha, rocm_version, gpu_architecture with
  | State.VStr repository, State.VStr branch, Some commit_sha, Some rocm_version,
    Some gpu_architecture =>
      Py.Return {| bs_build_id := build_id; bs_status := status; bs_repository := repository;
                   bs_branch := branch; bs_commit_sha := commit_sha;
                   bs_rocm_version := rocm_version; bs_gpu_architecture := gpu_architecture |}
  | _, _, _, _, _ => Py.Raise (Py.ValidationError "BuildSummary")
  end.

(** [get_build_status(build_id)]; [state_from_redis] is what the persistent
    store holds for the build.  The keyword arguments are evaluated from left
    to right: [BuildStatus.UNKNOWN] is looked up before [BuildStatus(...)] is
    called, and the call passes no [commit_sha], [rocm_version] or
    [gpu_architecture]. *)
Definition get_build_status (state_from_redis : option (gmap string State.value))
    (build_id : UUID) : Py.M BuildCoordinator (option BuildSummary) :=
  fun c =>
    match State.load_build_state (_state_manager c) build_id state_from_redis with
    | None => (c, Py.Return None)
    | Some state =>
        (let repository := default (State.VStr "") (state !! "repository") in
         let branch := default (State.VStr "") (state !! "branch") in
         let* unknown := Py.lift (BuildStatus_attr "UNKNOWN") in
         let* status :=
           Py.lift (BuildStatus_of_value
                      (default (State.VStr (BuildStatus_value unknown)) (state !! "status"))) in
         let* summary :=
           Py.lift (BuildSummary_init build_id repository branch status None None None) in
         Py.ret (Some summary)) c
    end.

Definition opt_str (o : option string) : State.value :=
  match o with Some s => State.VStr s | None => State.VNone end.

Definition _cancel_active_build (w : World) (build_id : UUID)
    (cancelled_by reason : option string) : Py.M BuildCoordinator unit :=
  let* cancelled := Py.lift (BuildStatus_attr "CANCELLED") in
  on_state (State.update_build_status build_id cancelled
              (Some [("cancelled_by", opt_str cancelled_by); ("reason", opt_str reason)])
              (now w)).

Definition cancel_build (w : World) (build_id : UUID) (cancelled_by reason : option string)
    : Py.M BuildCoordinator bool :=
  fun c =>
    let '(q, removed_from_queue) := Queue.remove (_queue_manager c) build_id in
    let c := with_queue c q in
    if removed_from_queue then
      (let* cancelled := Py.lift (BuildStatus_attr "CANCELLED") in
       on_state (State.update_build_status build_id cancelled
                   (Some [("cancelled_by", opt_str cancelled_by); ("reason", opt_str reason)])
                   (now w)) ;;;
       Py.ret true) c
    else if bool_decide (is_Some (_active_builds c !! build_id)) then
      (_cancel_active_build w build_id cancelled_by reason ;;; Py.ret true) c
    else (c, Py.Return false).

End Coordinator.

(** ** Invariants and scenarios *)
Module Scenario.
Import Constants Dto.

(** *** Allocator *)

(** The accounting invariant for the GPUs of one node: what is available
    plus what the outstanding allocations on the node hold is the total. *)
Definition gpus_accounted (a : Allocator.ResourceAllocator) (name : string) : Prop :=
  match Py.get (Allocator._nodes a) name with
  | Some n =>
      Allocator.available_gpus n + Allocator.outstanding_gpus a name = Allocator.total_gpus n
  | None => True
  end.

(** A cluster of one healthy AMD node with a single GPU. *)
Definition single_gpu_node : Allocator.K8sNode :=
  {| Allocator.k_name := "n1"; Allocator.k_gpu_vendor := Some "amd";
     Allocator.k_gpu_arch := Some "gfx90a"; Allocator.k_gpu_count := 1;
     Allocator.k_cpu_cores := 64; Allocator.k_memory_gb := 256%float;
     Allocator.k_healthy := true |}.

Definition idle_machine : Allocator.LocalProbe :=
  {| Allocator.os_cpu_count := Some 16; Allocator.vm_total_gb := 64%float;
     Allocator.vm_available_gb := 48%float; Allocator.detected_gpus := 0 |}.

Definition single_gpu_cluster : Allocator.Inventory :=
  {| Allocator.local_probe := idle_machine;
     Allocator.list_node := Some [Some single_gpu_node] |}.

(** A configuration object that has the attributes read by the allocator,
    both requests left at [None] (so 8 cores and 32 GB), any architecture. *)
Definition default_request : Allocator.ConfigObject :=
  {| Allocator.cpu_cores := Some None; Allocator.memory_gb := Some None;
     Allocator.cfg_gpu_architecture := Some "" |}.

Definition after_first : Allocator.ResourceAllocator :=
  fst (Allocator.allocate_resources single_gpu_cluster 1 101%N default_request
         (Allocator.ResourceAllocator_new true)).

Definition after_second : Allocator.ResourceAllocator :=
  fst (Allocator.allocate_resources single_gpu_cluster 2 102%N default_request after_first).

Definition after_refresh : Allocator.ResourceAllocator :=
  Allocator.refresh_node_resources after_second single_gpu_cluster 3.

(** An allocation that the allocator never made. *)
Definition stray : Allocator.ResourceAllocation :=
  {| Allocator.allocation_id := 999%N; Allocator.ra_gpu_ids := ["n1-gpu-0"];
     Allocator.ra_cpu_cores := 8; Allocator.ra_memory_gb := 32%float;
     Allocator.ra_node_name := "n1"; Allocator.allocated_at := 5 |}.

(** *** Scheduler and queue *)

Definition sample_request (b : string) (who : string) (md : Metadata) : BuildRequest :=
  {| id := 1%N; repository := "rocm/pytorch"; branch := b; commit_sha := "0123abc";
     pr_number := None; configurations := []; priority := NORMAL; triggered_by := who;
     metadata := md; created_at := 0 |}.

Definition job (i : UUID) (p : Priority) : BuildRequest :=
  {| id := i; repository := "rocm/pytorch"; branch := "feature/x"; commit_sha := "0123abc";
     pr_number := None; configurations := []; priority := p; triggered_by := "webhook";
     metadata := no_metadata; created_at := 0 |}.

Definition job_A : BuildRequest := job 1%N CRITICAL.
Definition job_B : BuildRequest := job 2%N LOW.
Definition job_C : BuildRequest := job 3%N HIGH.

(** A, B and C enqueued at the clock readings 1, 2 and 3. *)
Definition three_queued : Queue.QueueManager :=
  fst (Queue.enqueue
         (fst (Queue.enqueue (fst (Queue.enqueue (Queue.QueueManager_new 1000) job_A 1)) job_B 2))
         job_C 3).

(** Then A, the head of the heap, is reprioritized to Low at reading 4. *)
Definition demoted : Queue.QueueManager := fst (Queue.reprioritize three_queued 1%N LOW 4).

(** The dispatch order on queue items: by class, then by arrival. *)
Definition item_le (a b : Queue.QueueItem) : Prop :=
  Queue.priority_value a < Queue.priority_value b
  ∨ (Queue.priority_value a = Queue.priority_value b ∧ Queue.timestamp a ≤ Queue.timestamp b).

(** The queues that [enqueue], [dequeue] and [remove] build from an empty
    one, without any [reprioritize]. *)
Inductive built : Queue.QueueManager → Prop :=
| built_new n : built (Queue.QueueManager_new n)
| built_enqueue q r now : built q → built (fst (Queue.enqueue q r now))
| built_dequeue q timeout : built q → built (fst (Queue.dequeue q timeout))
| built_resume q b : built q → built (fst (Queue.dequeue_resume q b))
| built_remove q i : built q → built (fst (Queue.remove q i)).

(** *** Load balancer *)

Definition worker_of (lb : Balancer.LoadBalancer) (wid : string) : option Balancer.WorkerInfo :=
  Py.get (Balancer._workers lb) wid.

(** A registry with one worker, registered at reading 0 and since marked
    unhealthy. *)
Definition one_worker : Balancer.LoadBalancer :=
  Balancer.mark_worker_unhealthy
    (Balancer.register_worker (Balancer.LoadBalancer_new Balancer.LEAST_CONNECTIONS 30)
       "w1" "10.0.0.1" 8080 1 5 0) "w1".

(** *** State manager and coordinator *)

Definition saved_job : BuildRequest :=
  {| id := 7%N; repository := "rocm/pytorch"; branch := "main"; commit_sha := "0123abc";
     pr_number := Some 12; configurations := []; priority := HIGH; triggered_by := "webhook";
     metadata := no_metadata; created_at := 0 |}.

Definition one_saved : State.StateManager :=
  State.save_build_request State.StateManager_new saved_job 1.

Definition quiet_world (t : datetime) : Coordinator.World :=
  {| Coordinator.inventory := single_gpu_cluster; Coordinator.now := t;
     Coordinator.uuid4 := 500%N;
     Coordinator.draw := {| Balancer.choice := 0; Balancer.randint := 1 |};
     Coordinator.from_redis := [] |}.

(** A coordinator just constructed around a state manager that holds the
    pending build 7, as after a restart with the state at hand. *)
Definition restarted : Coordinator.BuildCoordinator :=
  Coordinator.BuildCoordinator_new (Queue.QueueManager_new 1000)
    (Allocator.ResourceAllocator_new true)
    (Balancer.LoadBalancer_new Balancer.LEAST_CONNECTIONS 30) one_saved.

(** The same after a restart of the process: nothing in memory, the build
    found pending in the persistent store. *)
Definition restarted_from_store : Coordinator.BuildCoordinator :=
  Coordinator.BuildCoordinator_new (Queue.QueueManager_new 1000)
    (Allocator.ResourceAllocator_new true)
    (Balancer.LoadBalancer_new Balancer.LEAST_CONNECTIONS 30)
    {| State._build_states := []; State._build_requests := ∅;
       State._persistence_enabled := true |}.

Definition store_world (t : datetime) : Coordinator.World :=
  {| Coordinator.inventory := single_gpu_cluster; Coordinator.now := t;
     Coordinator.uuid4 := 500%N;
     Coordinator.draw := {| Balancer.choice := 0; Balancer.randint := 1 |};
     Coordinator.from_redis := [saved_job] |}.

(** The claim of C3 for one re-enqueue: the request [r], which first
    arrived at [t_arrival], is put back by the coordinator; its queue item
    still carries [t_arrival], and the next dequeue returns it. *)
Definition reenqueue_keeps_rank (c : Coordinator.BuildCoordinator) (w : Coordinator.World)
    (r : BuildRequest) (t_arrival : datetime) : Prop :=
  let q := Coordinator._queue_manager (fst (Coordinator.enqueue_again w r c)) in
  option_map Queue.timestamp (Queue._build_ids q !! id r) = Some t_arrival ∧
  snd (Queue.dequeue q None) = Queue.Returned (Some r).

Definition job_R2 : BuildRequest := job 2%N NORMAL.
Definition job_R3 : BuildRequest := job 3%N NORMAL.

(** R2 arrived at reading 10 and was dequeued; R3, of the same class, was
    submitted at reading 20 and waits in the queue. *)
Definition r3_waiting : Coordinator.BuildCoordinator :=
  let q := fst (Queue.enqueue (Queue.QueueManager_new 1000) job_R2 10) in
  let q := fst (Queue.dequeue q None) in
  let q := fst (Queue.enqueue q job_R3 20) in
  Coordinator.with_queue restarted q.

Definition some_configuration : BuildConfiguration :=
  {| rocm_version := "6.1"; gpu_architecture := "gfx90a"; python_version := "3.10";
     parallel_jobs := 8 |}.

(** A result as a worker would report it. *)
Definition success_result : BuildResult :=
  {| request_id := 7%N; configuration := some_configuration; environment := None;
     status := SUCCESS; started_at := Some 20; finished_at := Some 30 |}.

(** A coordinator whose worker w1 has been selected once. *)
Definition w1_busy : Coordinator.BuildCoordinator :=
  let lb := Balancer.register_worker (Balancer.LoadBalancer_new Balancer.LEAST_CONNECTIONS 30)
              "w1" "10.0.0.1" 8080 1 5 0 in
  Coordinator.with_balancer restarted
    (fst (Balancer.select_worker saved_job (Coordinator.draw (quiet_world 15)) lb)).

(** *** More on the queue *)


(** The heap and the index by id are in step: they hold the same items,
    and the index holds each item under the id of its request. *)
Definition in_step (q : Queue.QueueManager) : Prop :=
  Queue._queue q ≡ₚ map snd (map_to_list (Queue._build_ids q)) ∧
  ∀ k item, Queue._build_ids q !! k = Some item → id (Queue.request item) = k.

(** The queues that the operations build from an empty one when the clock
    has advanced between any two readings taken for a queue item:
    [ticking t q] holds of the queue [q] when [t] is the last such reading. *)
Inductive ticking : datetime → Queue.QueueManager → Prop :=
| ticking_new n t : ticking t (Queue.QueueManager_new n)
| ticking_enqueue q r t now :
    ticking t q → t < now → ticking now (fst (Queue.enqueue q r now))
| ticking_dequeue q timeout t : ticking t q → ticking t (fst (Queue.dequeue q timeout))
| ticking_resume q b t : ticking t q → ticking t (fst (Queue.dequeue_resume q b))
| ticking_remove q i t : ticking t q → ticking t (fst (Queue.remove q i))
| ticking_reprioritize q i p t now :
    ticking t q → t < now → ticking now (fst (Queue.reprioritize q i p now))
| ticking_clear q t : ticking t q → ticking t (fst (Queue.clear q)).

(** The timestamps of the queued items are pairwise distinct, and none is
    later than [t]. *)
Definition stamped (t : datetime) (q : Queue.QueueManager) : Prop :=
  NoDup (map Queue.timestamp (Queue._queue q)) ∧
  Forall (fun item => Queue.timestamp item ≤ t) (Queue._queue q).


(** *** Dictionaries as association lists *)

(** An association list that stands for a dictionary holds no key twice. *)
Definition is_dict {K V} (d : list (K * V)) : Prop := NoDup (Py.keys d).

(** *** More on the allocator *)

(** Each node is stored under its own name, as a refresh stores it. *)
Definition named (a : Allocator.ResourceAllocator) : Prop :=
  Forall (fun e => Allocator.node_name (snd e) = fst e) (Allocator._nodes a).

(** The names under which a refresh stores what the inventory reports: the
    machine itself in standalone mode, the listed nodes in cluster mode. *)
Definition reported (a : Allocator.ResourceAllocator) (inv : Allocator.Inventory)
    (name : string) : Prop :=
  if Allocator._k8s_client a then
    ∃ items k, Allocator.list_node inv = Some items ∧ Some k ∈ items ∧
               Allocator.k_name k = name
  else name = "local".

(** *** More on the load balancer *)

(** The workers that [select_worker] considers. *)
Definition eligible (w : Balancer.WorkerInfo) : Prop :=
  Balancer.is_healthy w = true ∧ Balancer.current_load w < Balancer.max_load w.

(** A registry as [register_worker] builds it: a dictionary that holds each
    worker under its own id. *)
Definition registry (lb : Balancer.LoadBalancer) : Prop :=
  is_dict (Balancer._workers lb) ∧
  Forall (fun e => Balancer.worker_id (snd e) = fst e) (Balancer._workers lb).

(** A registry with the one worker w1, just registered. *)
Definition fresh_registry : Balancer.LoadBalancer :=
  Balancer.register_worker (Balancer.LoadBalancer_new Balancer.LEAST_CONNECTIONS 30)
    "w1" "10.0.0.1" 8080 1 5 0.

(** What [_check_worker_health] makes of the probe of a registered
    worker. *)
Definition check_of (p : Balancer.Probe) : bool :=
  match p with
  | Balancer.Responded st => st =? 200
  | Balancer.TimedOut => true
  | Balancer.ConnectionFailed => true
  end.

(** A worker after its health check at the reading [now]. *)
Definition checked (p : Balancer.Probe) (now : datetime) (w : Balancer.WorkerInfo)
    : Balancer.WorkerInfo :=
  if check_of p then Balancer.with_health w true now
  else Balancer.with_health w false (Balancer.last_health_check w).

(** The allocation that the first call on the one-GPU cluster returns. *)
Definition first_allocation : Allocator.ResourceAllocation :=
  {| Allocator.allocation_id := 101%N; Allocator.ra_gpu_ids := ["n1-gpu-0"];
     Allocator.ra_cpu_cores := 8; Allocator.ra_memory_gb := 32%float;
     Allocator.ra_node_name := "n1"; Allocator.allocated_at := 1 |}.

(** Every load lies between 0 and the worker's bound. *)
Definition within_capacity (lb : Balancer.LoadBalancer) : Prop :=
  Forall (fun e => 0 ≤ Balancer.current_load (snd e) ≤ Balancer.max_load (snd e))
         (Balancer._workers lb).

End Scenario.

(** * Properties *)

(** ** Insertion-ordered dictionaries *)
Module PyFacts.

Section Dict.
Context {K V : Type} `{EqDecision K}.

Lemma get_set_eq (d : list (K * V)) k v : Py.get (Py.set d k v) k = Some v.
Proof.
  induction d as [|[k' v'] d IH]; simpl.
  - by rewrite decide_True.
  - destruct (decide (k' = k)) as [->|Hne]; simpl.
    + by rewrite decide_True.
    + by rewrite decide_False.
Qed.

Lemma get_set_ne (d : list (K * V)) k k' v :
  k ≠ k' → Py.get (Py.set d k v) k' = Py.get d k'.
Proof.
  intros Hne. induction d as [|[k0 v0] d IH]; simpl.
  - by rewrite decide_False.
  - destruct (decide (k0 = k)) as [->|Hk]; simpl.
    + by rewrite !decide_False.
    + destruct (decide (k0 = k')); [done | apply IH].
Qed.

End Dict.

End PyFacts.

(** ** The binary heap *)
Module HeapqFacts.
Import Heapq.
Local Open Scope nat_scope.

Ltac div2 :=
  repeat match goal with
         | |- context [?a / 2] =>
             let q := fresh "q" in let H := fresh "Hq" in
             pose proof (Nat.div_mod_eq a 2);
             pose proof (Nat.mod_upper_bound a 2 ltac:(lia));
             remember (a / 2) as q eqn:H; clear H
         | H : context [?a / 2] |- _ =>
             let q := fresh "q" in let H := fresh "Hq" in
             pose proof (Nat.div_mod_eq a 2);
             pose proof (Nat.mod_upper_bound a 2 ltac:(lia));
             remember (a / 2) as q eqn:H; clear H
         end; lia.

Lemma parent_lt i : 0 < i → parent i < i.
Proof. unfold parent. intros. div2. Qed.

Lemma parent_children i p : 0 < i → parent i = p ↔ i = 2 * p + 1 ∨ i = 2 * p + 2.
Proof. unfold parent. intros. split; intros; div2. Qed.

Lemma below_le s c : below s c → s ≤ c.
Proof.
  induction 1 as [|c Hc _ IH]; [lia|]. pose proof (parent_lt c Hc). lia.
Qed.

Lemma below_parent s c : below s c → c ≠ s → 0 < c ∧ below s (parent c).
Proof. destruct 1; [done|]. auto. Qed.

Lemma below_zero c : below 0 c.
Proof.
  induction c as [c IH] using lt_wf_ind.
  destruct c; [constructor|]. apply below_step; [lia|]. apply IH. apply parent_lt. lia.
Qed.

(** The order: [lt] is a strict weak order, and [lt y x = false] reads
    "x is at most y". *)
Section Order.
Context {A : Type} (lt : A → A → bool).
Hypothesis lt_irrefl : ∀ x, lt x x = false.
Hypothesis lt_asym : ∀ x y, lt x y = true → lt y x = false.
Hypothesis le_trans : ∀ x y z, lt y x = false → lt z y = false → lt z x = false.

Lemma siftdown_loop_S fuel h newitem s pos :
  siftdown_loop lt (S fuel) h newitem s pos
  = if s <? pos then
      match h !! parent pos with
      | Some q =>
          if lt newitem q then siftdown_loop lt fuel (<[pos := q]> h) newitem s (parent pos)
          else (h, pos)
      | None => (h, pos)
      end
    else (h, pos).
Proof. reflexivity. Qed.

Lemma siftdown_loop_length fuel h newitem s pos :
  length (siftdown_loop lt fuel h newitem s pos).1 = length h.
Proof.
  revert h pos. induction fuel as [|fuel IH]; intros h pos; [reflexivity|].
  rewrite siftdown_loop_S.
  destruct (s <? pos); [|reflexivity].
  destruct (h !! parent pos) as [q|]; [|reflexivity].
  destruct (lt newitem q); [|reflexivity].
  rewrite IH. apply length_insert.
Qed.

Lemma siftdown_loop_bound fuel h newitem s pos :
  (siftdown_loop lt fuel h newitem s pos).2 ≤ pos.
Proof.
  revert h pos. induction fuel as [|fuel IH]; intros h pos; [reflexivity|].
  rewrite siftdown_loop_S.
  destruct (Nat.ltb_spec s pos) as [Hs|Hs]; [|reflexivity].
  destruct (h !! parent pos) as [q|]; [|reflexivity].
  destruct (lt newitem q); [|reflexivity].
  specialize (IH (<[pos:=q]> h) (parent pos)). pose proof (parent_lt pos). lia.
Qed.

(** Placing the item into the hole once the loop has stopped. *)
Lemma place_ordered h newitem s pos :
  pos < length h →
  (∀ i x q, 0 < i → i ≠ pos → s ≤ parent i → h !! i = Some x → h !! parent i = Some q →
            lt x q = false) →
  (∀ c x, 0 < c → parent c = pos → h !! c = Some x → lt x newitem = false) →
  (s < pos → ∀ q, h !! parent pos = Some q → lt newitem q = false) →
  ordered_from lt s (<[pos := newitem]> h).
Proof.
  intros Hpos I1 I2 Hexit i x p Hi Hsi Hx Hp.
  pose proof (parent_lt i Hi) as Hpi.
  apply list_lookup_insert_Some in Hx as [(<- & <- & _) | [Hne Hx]].
  - rewrite list_lookup_insert_ne in Hp by lia. eapply Hexit; [lia | done].
  - apply list_lookup_insert_Some in Hp as [(Heq & <- & _) | [Hne2 Hp]].
    + eapply I2; eauto.
    + eapply I1; eauto.
Qed.

Lemma siftdown_loop_spec fuel h newitem s pos :
  pos < fuel → pos < length h → below s pos →
  (∀ i x q, 0 < i → i ≠ pos → s ≤ parent i → h !! i = Some x → h !! parent i = Some q →
            lt x q = false) →
  (∀ c x, 0 < c → parent c = pos → h !! c = Some x → lt x newitem = false) →
  (pos ≠ s → ∀ c x q, 0 < c → parent c = pos → h !! c = Some x → h !! parent pos = Some q →
             lt x q = false) →
  let r := siftdown_loop lt fuel h newitem s pos in
  ordered_from lt s (<[r.2 := newitem]> r.1) ∧ <[r.2 := newitem]> r.1 ≡ₚ <[pos := newitem]> h.
Proof.
  revert h pos. induction fuel as [|fuel IH]; intros h pos Hfuel Hpos Hbelow I1 I2 I3; [lia|].
  cbv zeta. rewrite siftdown_loop_S. destruct (Nat.ltb_spec s pos) as [Hs|Hs].
  - destruct (below_parent s pos Hbelow ltac:(lia)) as [Hpos0 Hbp].
    pose proof (parent_lt pos Hpos0) as Hpp.
    pose proof (below_le _ _ Hbp) as Hsp.
    destruct (h !! parent pos) as [q|] eqn:Hq.
    2:{ apply lookup_ge_None in Hq. lia. }
    destruct (lt newitem q) eqn:Hlt.
    + specialize (IH (<[pos := q]> h) (parent pos)).
      destruct IH as [IHo IHp].
      * lia.
      * rewrite length_insert. lia.
      * done.
      * intros i x q' Hi Hne Hsi Hx Hq'.
        apply list_lookup_insert_Some in Hx as [(<- & <- & _) | [Hne1 Hx]].
        -- rewrite list_lookup_insert_ne in Hq' by lia.
           rewrite Hq in Hq'. injection Hq' as <-. apply lt_irrefl.
        -- apply list_lookup_insert_Some in Hq' as [(Heq & <- & _) | [Hne2 Hq']].
           ++ eapply I3; eauto. lia.
           ++ eapply I1; eauto.
      * intros c x Hc Hpc Hx.
        apply list_lookup_insert_Some in Hx as [(<- & <- & _) | [Hne1 Hx]].
        -- by apply lt_asym.
        -- apply (le_trans newitem q x); [by apply lt_asym|].
           apply (I1 c x q); [lia | lia | lia | done | by rewrite Hpc].
      * intros Hne c x g Hc Hpc Hx Hg.
        rewrite list_lookup_insert_ne in Hg by (pose proof (parent_lt (parent pos)); lia).
        destruct (below_parent s _ Hbp Hne) as [Hpp0 Hbpp].
        pose proof (below_le _ _ Hbpp) as Hspp.
        assert (Hqg : lt q g = false).
        { apply (I1 (parent pos) q g); [lia | lia | lia | done | done]. }
        apply list_lookup_insert_Some in Hx as [(<- & <- & _) | [Hne1 Hx]]; [done|].
        apply (le_trans g q x); [done|].
        apply (I1 c x q); [lia | lia | lia | done | by rewrite Hpc].
      * split; [exact IHo|]. rewrite IHp.
        rewrite <- (list_insert_insert_eq h pos q newitem).
        apply Permutation_insert_swap.
        -- by apply list_lookup_insert_eq.
        -- rewrite list_lookup_insert_ne by lia. done.
    + simpl. split; [|done].
      apply place_ordered; auto. intros _ q' Hq'. congruence.
  - simpl. split; [|done].
    apply place_ordered; auto. intros; lia.
Qed.


Lemma siftup_loop_S fuel h pos :
  siftup_loop lt (S fuel) h pos
  = if 2 * pos + 1 <? length h then
      let childpos :=
        match h !! (2 * pos + 1), h !! (2 * pos + 1 + 1) with
        | Some c, Some r => if negb (lt c r) then 2 * pos + 1 + 1 else 2 * pos + 1
        | _, _ => 2 * pos + 1
        end in
      match h !! childpos with
      | Some c => siftup_loop lt fuel (<[pos := c]> h) childpos
      | None => (h, pos)
      end
    else (h, pos).
Proof. reflexivity. Qed.

(** The child that the loop of [_siftup] moves up is a child of [pos], and
    the other child, if any, is not smaller. *)
Lemma smaller_child h pos :
  2 * pos + 1 < length h →
  let ci := match h !! (2 * pos + 1), h !! (2 * pos + 1 + 1) with
            | Some c, Some r => if negb (lt c r) then 2 * pos + 1 + 1 else 2 * pos + 1
            | _, _ => 2 * pos + 1
            end in
  ∃ cv, h !! ci = Some cv ∧ 0 < ci ∧ parent ci = pos ∧
        ∀ i x, 0 < i → parent i = pos → h !! i = Some x → lt x cv = false.
Proof.
  intros Hlen. cbv zeta.
  destruct (h !! (2 * pos + 1)) as [cl|] eqn:Hl.
  2:{ apply lookup_ge_None in Hl. lia. }
  assert (Hkids : ∀ i, 0 < i → parent i = pos → i = 2 * pos + 1 ∨ i = 2 * pos + 1 + 1).
  { intros i Hi Hp. apply parent_children in Hp; lia. }
  destruct (h !! (2 * pos + 1 + 1)) as [cr|] eqn:Hr.
  - destruct (lt cl cr) eqn:Hlt; simpl.
    + exists cl. split; [done|]. split; [lia|]. split; [apply parent_children; lia|].
      intros i x Hi Hp Hx. destruct (Hkids i Hi Hp) as [-> | ->].
      * rewrite Hl in Hx. injection Hx as <-. apply lt_irrefl.
      * rewrite Hr in Hx. injection Hx as <-. by apply lt_asym.
    + exists cr. split; [done|]. split; [lia|]. split; [apply parent_children; lia|].
      intros i x Hi Hp Hx. destruct (Hkids i Hi Hp) as [-> | ->].
      * rewrite Hl in Hx. by injection Hx as <-.
      * rewrite Hr in Hx. injection Hx as <-. apply lt_irrefl.
  - exists cl. split; [done|]. split; [lia|]. split; [apply parent_children; lia|].
    intros i x Hi Hp Hx. destruct (Hkids i Hi Hp) as [-> | ->].
    + rewrite Hl in Hx. injection Hx as <-. apply lt_irrefl.
    + congruence.
Qed.

Lemma siftup_loop_spec fuel h s pos newitem :
  length h ≤ 2 * pos + 1 + fuel → pos < length h → below s pos →
  (∀ i x q, 0 < i → s ≤ parent i → parent i ≠ pos → h !! i = Some x → h !! parent i = Some q →
            lt x q = false) →
  (pos ≠ s → ∀ c x q, 0 < c → parent c = pos → h !! c = Some x → h !! parent pos = Some q →
             lt x q = false) →
  let r := siftup_loop lt fuel h pos in
  length r.1 = length h ∧ r.2 < length h ∧ below s r.2 ∧ length h ≤ 2 * r.2 + 1 ∧
  (∀ i x q, 0 < i → s ≤ parent i → r.1 !! i = Some x → r.1 !! parent i = Some q →
            lt x q = false) ∧
  <[r.2 := newitem]> r.1 ≡ₚ <[pos := newitem]> h.
Proof.
  revert h pos. induction fuel as [|fuel IH]; intros h pos Hfuel Hpos Hbelow J1 J2; cbv zeta.
  - simpl. repeat split; try done; try lia.
    intros i x q Hi Hsi Hx Hq. apply (J1 i x q); try done.
    intros Hp. apply parent_children in Hp; [|done].
    apply lookup_lt_Some in Hx. lia.
  - rewrite siftup_loop_S. destruct (Nat.ltb_spec (2 * pos + 1) (length h)) as [Hc|Hc].
    + destruct (smaller_child h pos Hc) as (cv & Hcv & Hci0 & Hcip & Hmin).
      cbv zeta in *. 
      set (ci := match h !! (2 * pos + 1), h !! (2 * pos + 1 + 1) with
                 | Some c, Some r => if negb (lt c r) then 2 * pos + 1 + 1 else 2 * pos + 1
                 | _, _ => 2 * pos + 1
                 end) in *.
      rewrite Hcv.
      assert (Hcipos : pos < ci).
      { pose proof (parent_lt ci Hci0). lia. }
      pose proof (lookup_lt_Some _ _ _ Hcv) as Hcilen.
      pose proof (below_le _ _ Hbelow) as Hspos.
      specialize (IH (<[pos := cv]> h) ci).
      destruct IH as (IHl & IHp & IHb & IHleaf & IHo & IHperm).
      * rewrite length_insert. apply parent_children in Hcip; lia.
      * by rewrite length_insert.
      * apply below_step; [done | by rewrite Hcip].
      * intros i x q Hi Hsi Hne Hx Hq.
        apply list_lookup_insert_Some in Hx as [(<- & <- & _) | [Hne1 Hx]].
        -- pose proof (parent_lt pos Hi).
           rewrite list_lookup_insert_ne in Hq by lia.
           apply (J2 ltac:(lia) ci cv q); done.
        -- apply list_lookup_insert_Some in Hq as [(Heq & <- & _) | [Hne2 Hq]].
           ++ apply (Hmin i x); done.
           ++ apply (J1 i x q); auto.
      * intros _ d x q Hd Hpd Hx Hq.
        pose proof (parent_lt d Hd).
        rewrite list_lookup_insert_ne in Hx by lia.
        rewrite Hcip in Hq. rewrite list_lookup_insert_eq in Hq by done.
        injection Hq as <-.
        apply (J1 d x cv); [done | lia | lia | done | by rewrite Hpd].
      * rewrite length_insert in *. repeat split; try done.
        rewrite IHperm.
        rewrite <- (list_insert_insert_eq h pos cv newitem).
        apply Permutation_insert_swap.
        -- by apply list_lookup_insert_eq.
        -- rewrite list_lookup_insert_ne by lia. done.
    + simpl. repeat split; try done; try lia.
      intros i x q Hi Hsi Hx Hq. apply (J1 i x q); try done.
      intros Hp. apply parent_children in Hp; [|done].
      apply lookup_lt_Some in Hx. lia.
Qed.

Lemma _siftup_spec h s :
  s < length h → ordered_from lt (S s) h →
  ordered_from lt s (_siftup lt h s) ∧ _siftup lt h s ≡ₚ h ∧ length (_siftup lt h s) = length h.
Proof.
  intros Hs Hord. unfold _siftup.
  destruct (h !! s) as [newitem|] eqn:Hn.
  2:{ apply lookup_ge_None in Hn. lia. }
  pose proof (siftup_loop_spec (length h) h s s newitem) as Hup.
  destruct Hup as (Hl & Hp & Hb & Hleaf & Ho & Hperm).
  { lia. } { done. } { constructor. }
  { intros i x q Hi Hsi Hne Hx Hq. apply (Hord i x q); auto. lia. }
  { done. }
  destruct (siftup_loop lt (length h) h s) as [h1 p] eqn:E. simpl in *.
  unfold _siftdown. rewrite list_lookup_insert_eq by lia.
  pose proof (siftdown_loop_spec (length (<[p:=newitem]> h1)) (<[p:=newitem]> h1) newitem s p)
    as Hdown.
  pose proof (siftdown_loop_length (length (<[p:=newitem]> h1)) (<[p:=newitem]> h1) newitem s p)
    as Hdl.
  assert (Hnokids : ∀ c x, 0 < c → parent c = p → (<[p:=newitem]> h1) !! c = Some x → False).
  { intros c x Hc Hpc Hx. apply lookup_lt_Some in Hx. rewrite length_insert in Hx.
    apply parent_children in Hpc; lia. }
  destruct Hdown as (Hdo & Hdp).
  { rewrite length_insert. lia. } { rewrite length_insert. lia. } { done. }
  { intros i x q Hi Hne Hsi Hx Hq.
    rewrite list_lookup_insert_ne in Hx by lia.
    destruct (decide (parent i = p)) as [Hpi|Hpi].
    - exfalso. apply (Hnokids i x Hi Hpi). by rewrite list_lookup_insert_ne by lia.
    - rewrite list_lookup_insert_ne in Hq by lia. apply (Ho i x q); done. }
  { intros c x Hc Hpc Hx. exfalso. eapply Hnokids; eauto. }
  { intros _ c x q Hc Hpc Hx _. exfalso. eapply Hnokids; eauto. }
  destruct (siftdown_loop lt (length (<[p:=newitem]> h1)) (<[p:=newitem]> h1) newitem s p)
    as [h3 p3] eqn:E3. simpl in *.
  split; [done|]. split.
  - rewrite Hdp. rewrite list_insert_insert_eq. rewrite Hperm.
    by rewrite list_insert_id.
  - rewrite length_insert, Hdl, length_insert. done.
Qed.

Lemma heappush_spec h x :
  ordered_from lt 0 h →
  ordered_from lt 0 (heappush lt h x) ∧ heappush lt h x ≡ₚ x :: h ∧
  length (heappush lt h x) = S (length h).
Proof.
  intros Hord. unfold heappush, _siftdown.
  rewrite length_app. simpl length.
  replace (length h + 1 - 1) with (length h) by lia.
  rewrite lookup_app_r, Nat.sub_diag by lia. simpl.
  pose proof (siftdown_loop_spec (length h + 1) (h ++ [x]) x 0 (length h)) as Hdown.
  pose proof (siftdown_loop_length (length h + 1) (h ++ [x]) x 0 (length h)) as Hdl.
  assert (Hnokids : ∀ c y, 0 < c → parent c = length h → (h ++ [x]) !! c = Some y → False).
  { intros c y Hc Hpc Hy. apply lookup_lt_Some in Hy. rewrite length_app in Hy. simpl in Hy.
    apply parent_children in Hpc; lia. }
  destruct Hdown as (Hdo & Hdp).
  { lia. } { rewrite length_app. simpl. lia. } { apply below_zero. }
  { intros i y q Hi Hne _ Hy Hq.
    pose proof (parent_lt i Hi).
    assert (i < length h).
    { apply lookup_lt_Some in Hy. rewrite length_app in Hy. simpl in Hy. lia. }
    rewrite lookup_app_l in Hy by lia. rewrite lookup_app_l in Hq by lia.
    apply (Hord i y q); auto. lia. }
  { intros c y Hc Hpc Hy. exfalso. eapply Hnokids; eauto. }
  { intros _ c y q Hc Hpc Hy _. exfalso. eapply Hnokids; eauto. }
  destruct (siftdown_loop lt (length h + 1) (h ++ [x]) x 0 (length h)) as [h3 p3] eqn:E3.
  simpl in *. split; [done|]. split.
  - rewrite Hdp. rewrite list_insert_id.
    + by rewrite Permutation_app_comm.
    + rewrite lookup_app_r, Nat.sub_diag by lia. done.
  - rewrite length_insert, Hdl, length_app. simpl. lia.
Qed.

(** In an ordered heap the root is a minimum. *)
Lemma root_is_minimum h r :
  ordered_from lt 0 h → h !! 0 = Some r → ∀ i y, h !! i = Some y → lt y r = false.
Proof.
  intros Hord Hr i. induction i as [i IH] using lt_wf_ind. intros y Hy.
  destruct (decide (i = 0)) as [->|Hi].
  - rewrite Hr in Hy. injection Hy as <-. apply lt_irrefl.
  - pose proof (parent_lt i ltac:(lia)) as Hp.
    destruct (h !! parent i) as [p|] eqn:Hpi.
    2:{ apply lookup_ge_None in Hpi. apply lookup_lt_Some in Hy. lia. }
    apply (le_trans r p y).
    + apply (IH (parent i)); done.
    + apply (Hord i y p); auto; lia.
Qed.

Lemma ordered_from_prefix s h x : ordered_from lt s (h ++ [x]) → ordered_from lt s h.
Proof.
  intros Hord i y p Hi Hsi Hy Hp. apply (Hord i y p); auto.
  - rewrite lookup_app_l; [done | by eapply lookup_lt_Some].
  - rewrite lookup_app_l; [done | by eapply lookup_lt_Some].
Qed.

Lemma heappop_spec h x h' :
  ordered_from lt 0 h → heappop lt h = Some (x, h') →
  h !! 0 = Some x ∧ ordered_from lt 0 h' ∧ h ≡ₚ x :: h' ∧ S (length h') = length h.
Proof.
  intros Hord. unfold heappop.
  destruct (last h) as [lastelt|] eqn:Hlast; [|done].
  apply last_Some in Hlast as [heap ->].
  rewrite removelast_last.
  destruct heap as [|returnitem heap].
  - intros [= <- <-]. repeat split; try done.
  - intros [= <- <-]. simpl insert.
    pose proof (_siftup_spec (lastelt :: heap) 0) as Hup.
    destruct Hup as (Ho & Hp & Hl).
    { simpl. lia. }
    { intros i y p Hi Hsi Hy Hpp.
      assert (Hpi : 0 < parent i) by lia.
      destruct i as [|i]; [lia|].
      destruct (parent (S i)) as [|pi] eqn:Epi; [lia|].
      simpl in Hy, Hpp.
      apply (Hord (S i) y p); [lia | lia | |].
      - simpl. rewrite lookup_app_l; [done | by eapply lookup_lt_Some].
      - rewrite Epi. simpl. rewrite lookup_app_l; [done | by eapply lookup_lt_Some]. }
    repeat split; try done.
    + rewrite Hp. simpl. by rewrite (Permutation_app_comm heap [lastelt]).
    + rewrite Hl. simpl. rewrite length_app. simpl. lia.
Qed.

Lemma heapify_spec h :
  ordered_from lt 0 (heapify lt h) ∧ heapify lt h ≡ₚ h ∧ length (heapify lt h) = length h.
Proof.
  unfold heapify.
  assert (Hgen : ∀ k h0, k ≤ length h0 → ordered_from lt k h0 →
            ordered_from lt 0 (fold_left (_siftup lt) (rev (seq 0 k)) h0) ∧
            fold_left (_siftup lt) (rev (seq 0 k)) h0 ≡ₚ h0 ∧
            length (fold_left (_siftup lt) (rev (seq 0 k)) h0) = length h0).
  { induction k as [|k IH]; intros h0 Hk Hord; [done|].
    rewrite seq_S, rev_app_distr. simpl.
    destruct (_siftup_spec h0 k ltac:(lia) Hord) as (Ho & Hp & Hl).
    destruct (IH (_siftup lt h0 k) ltac:(lia) Ho) as (Ho' & Hp' & Hl').
    split; [done|]. split; [by rewrite Hp' | by rewrite Hl']. }
  apply Hgen.
  - pose proof (Nat.div_mod_eq (length h) 2). lia.
  - intros i x p Hi Hsi Hx Hp. apply lookup_lt_Some in Hx.
    unfold parent in Hsi. div2.
Qed.



End Order.

End HeapqFacts.

(** ** The queue manager *)
Module QueueFacts.
Import Constants Dto Queue Scenario.

Lemma QueueItem_lt_irrefl (x : QueueItem) : QueueItem_lt x x = false.
Proof. unfold QueueItem_lt. rewrite !Z.ltb_irrefl. by rewrite andb_false_r. Qed.

Lemma QueueItem_lt_spec (a b : QueueItem) :
  QueueItem_lt a b = true ↔
  priority_value a < priority_value b
  ∨ (priority_value a = priority_value b ∧ timestamp a < timestamp b).
Proof.
  unfold QueueItem_lt.
  rewrite orb_true_iff, andb_true_iff, !Z.ltb_lt, Z.eqb_eq. tauto.
Qed.

(** [b < a] fails exactly when [a] is dispatched no later than [b]. *)
Lemma QueueItem_lt_false (a b : QueueItem) : QueueItem_lt b a = false ↔ item_le a b.
Proof.
  rewrite <- not_true_iff_false, QueueItem_lt_spec. unfold item_le. lia.
Qed.

Lemma QueueItem_lt_asym (x y : QueueItem) : QueueItem_lt x y = true → QueueItem_lt y x = false.
Proof. rewrite QueueItem_lt_spec, QueueItem_lt_false. unfold item_le. lia. Qed.

Lemma QueueItem_le_trans (x y z : QueueItem) :
  QueueItem_lt y x = false → QueueItem_lt z y = false → QueueItem_lt z x = false.
Proof. rewrite !QueueItem_lt_false. unfold item_le. lia. Qed.

Local Abbreviation ordered := (Heapq.heap_ordered QueueItem_lt).

Lemma enqueue_keeps_heap (q : QueueManager) (r : BuildRequest) (now : datetime) :
  ordered (_queue q) → ordered (_queue (fst (enqueue q r now))).
Proof.
  intros Hord. unfold enqueue.
  destruct (_max_queue_size q <=? Z.of_nat (length (_queue q))); [done|].
  destruct (bool_decide (is_Some (_build_ids q !! id r))); [done|]. simpl.
  apply (HeapqFacts.heappush_spec QueueItem_lt QueueItem_lt_irrefl QueueItem_lt_asym
           QueueItem_le_trans); done.
Qed.

Lemma dequeue_take_keeps_heap (q : QueueManager) :
  ordered (_queue q) → ordered (_queue (fst (dequeue_take q))).
Proof.
  intros Hord. unfold dequeue_take.
  destruct (Heapq.heappop QueueItem_lt (_queue q)) as [[item queue']|] eqn:Hpop; [|done].
  simpl.
  by destruct (HeapqFacts.heappop_spec QueueItem_lt QueueItem_lt_irrefl QueueItem_lt_asym
                 QueueItem_le_trans _ _ _ Hord Hpop) as (_ & Ho & _).
Qed.

Lemma dequeue_keeps_heap (q : QueueManager) (timeout : option float) :
  ordered (_queue q) → ordered (_queue (fst (dequeue q timeout))).
Proof.
  intros Hord. unfold dequeue.
  assert (Hb : ordered (_queue (dequeue_begin q))).
  { unfold dequeue_begin. by destruct (is_empty q). }
  pose proof (dequeue_take_keeps_heap _ Hb) as Ht.
  destruct (timeout_given timeout).
  - destruct (_queue_not_empty (dequeue_begin q)); [|done].
    by destruct (dequeue_take (dequeue_begin q)).
  - destruct (is_empty (dequeue_begin q)); [done|].
    by destruct (dequeue_take (dequeue_begin q)).
Qed.

(** [remove] ends with [heapify], which orders any list. *)
Lemma remove_keeps_heap (q : QueueManager) (build_id : UUID) :
  ordered (_queue q) → ordered (_queue (fst (remove q build_id))).
Proof.
  intros Hord. unfold remove.
  destruct (_build_ids q !! build_id) as [item|]; [|done].
  destruct (list_remove (_queue q) item) as [queue'|]; [|done]. simpl.
  apply (HeapqFacts.heapify_spec QueueItem_lt QueueItem_lt_irrefl QueueItem_lt_asym
           QueueItem_le_trans).
Qed.

(** Without [reprioritize] the list is always a heap. *)
Lemma built_is_heap (q : QueueManager) : built q → ordered (_queue q).
Proof.
  induction 1 as [n | q r now _ IH | q timeout _ IH | q b _ IH | q i _ IH].
  - intros i x p _ _ Hx. by destruct i.
  - by apply enqueue_keeps_heap.
  - by apply dequeue_keeps_heap.
  - unfold dequeue_resume. destruct b; [by apply dequeue_take_keeps_heap | done].
  - by apply remove_keeps_heap.
Qed.

(** A dequeue that returns a request pops the heap. *)
Lemma dequeue_pops (q q' : QueueManager) (r : BuildRequest) :
  dequeue q None = (q', Returned (Some r)) →
  ∃ item, Heapq.heappop QueueItem_lt (_queue q) = Some (item, _queue q') ∧ request item = r.
Proof.
  unfold dequeue. simpl.
  assert (Hq : _queue (dequeue_begin q) = _queue q).
  { unfold dequeue_begin. by destruct (is_empty q). }
  destruct (is_empty (dequeue_begin q)); [discriminate|].
  unfold dequeue_take. rewrite Hq.
  destruct (Heapq.heappop QueueItem_lt (_queue q)) as [[item queue']|]; [|discriminate].
  intros [= <- <-]. by exists item.
Qed.

(** On a heap, and so on every queue built without [reprioritize], what
    [dequeue()] returns is a minimum of the queue. *)
Lemma dequeue_returns_minimum_on_heap (q q' : QueueManager) (r : BuildRequest) :
  ordered (_queue q) →
  dequeue q None = (q', Returned (Some r)) →
  ∃ item, item ∈ _queue q ∧ request item = r ∧ ∀ other, other ∈ _queue q → item_le item other.
Proof.
  intros Hord Hdq. destruct (dequeue_pops _ _ _ Hdq) as (item & Hpop & Hr).
  destruct (HeapqFacts.heappop_spec QueueItem_lt QueueItem_lt_irrefl QueueItem_lt_asym
              QueueItem_le_trans _ _ _ Hord Hpop) as (Hroot & _).
  exists item. split; [by eapply list_elem_of_lookup_2|]. split; [done|].
  intros other Hin. apply list_elem_of_lookup in Hin as [i Hi].
  apply QueueItem_lt_false.
  by apply (HeapqFacts.root_is_minimum QueueItem_lt QueueItem_lt_irrefl QueueItem_le_trans
              (_queue q) item Hord Hroot i other).
Qed.


(** [reprioritize] removes the old item from the list and pushes the new
    one without restoring the heap in between (as [remove] does with
    [heapify]): here B, of class Low, becomes the root above C, of class
    High. *)
Lemma reprioritize_breaks_heap :
  built three_queued ∧
  map (fun i => (priority_value i, timestamp i)) (_queue demoted) = [(300, 2); (100, 3); (300, 4)] ∧
  ¬ ordered (_queue demoted).
Proof.
  split; [| split].
  - repeat apply built_enqueue. apply built_new.
  - vm_compute. reflexivity.
  - intros H.
    specialize (H 1%nat (from_request job_C 3) (from_request job_B 2)).
    discriminate H; [lia | unfold Heapq.parent; simpl; lia | reflexivity | reflexivity].
Qed.

(** C6. After A, B, C are enqueued and A is reprioritized, two dequeues
    with nothing in between return B, of class Low, and then C, of class
    High: the class of the first is not at most the class of the second. *)
Theorem dequeue_order_broken_after_reprioritize :
  snd (reprioritize three_queued 1%N LOW 4) = true ∧
  ∃ q1 q2,
    dequeue demoted None = (q1, Returned (Some job_B)) ∧
    dequeue q1 None = (q2, Returned (Some job_C)) ∧
    _get_priority_value (priority job_C) < _get_priority_value (priority job_B).
Proof.
  split; [vm_compute; reflexivity|].
  do 2 eexists. split; [vm_compute; reflexivity|].
  split; [vm_compute; reflexivity|]. vm_compute. reflexivity.
Qed.

(** C10. On the same queue, [dequeue()] without a timeout returns at once,
    and what it returns is B although C, which is queued too, is smaller in
    the queue order: the returned item is not the minimum. *)
Theorem dequeue_returns_non_minimum :
  ∃ q' b c,
    dequeue demoted None = (q', Returned (Some (request b))) ∧
    b ∈ _queue demoted ∧ c ∈ _queue demoted ∧
    QueueItem_lt c b = true ∧ ¬ item_le b c.
Proof.
  exists (fst (dequeue demoted None)), (from_request job_B 2), (from_request job_C 3).
  split; [vm_compute; reflexivity|].
  split; [| split; [| split]].
  - apply list_elem_of_lookup. exists 0%nat. vm_compute. reflexivity.
  - apply list_elem_of_lookup. exists 1%nat. vm_compute. reflexivity.
  - reflexivity.
  - rewrite <- QueueItem_lt_false. discriminate.
Qed.

(** Without a timeout [dequeue] never waits. *)
Lemma dequeue_without_timeout_returns (q : QueueManager) :
  ∃ q' r, dequeue q None = (q', Returned r).
Proof.
  unfold dequeue. simpl.
  destruct (is_empty (dequeue_begin q)); [by eexists _, _|].
  destruct (dequeue_take (dequeue_begin q)). by eexists _, _.
Qed.

(** A zero timeout counts as none. *)
Lemma dequeue_zero_timeout (q : QueueManager) : dequeue q (Some 0%float) = dequeue q None.
Proof. reflexivity. Qed.


(** On a non-empty queue it returns the request at the head of the list. *)
Lemma dequeue_head (q : QueueManager) (item : QueueItem) (rest : list QueueItem) :
  _queue q = item :: rest →
  ∃ q', dequeue q None = (q', Returned (Some (request item))).
Proof.
  intros Hq. unfold dequeue, dequeue_begin, is_empty. rewrite Hq. simpl. rewrite Hq.
  unfold dequeue_take, Heapq.heappop. rewrite Hq.
  destruct (last (item :: rest)) as [l|] eqn:Hl.
  - destruct rest as [|y rest].
    + simpl in Hl. injection Hl as <-. simpl. by eexists.
    + change (removelast (item :: y :: rest)) with (item :: removelast (y :: rest)).
      by eexists.
  - by apply last_None in Hl.
Qed.

(** Only a call that passes a non-zero timeout is ever left waiting, and
    then on a queue whose event is not set. *)
Lemma dequeue_waits_only_with_timeout (q q' : QueueManager) (timeout : option float) (t : float) :
  dequeue q timeout = (q', Waiting t) →
  timeout = Some t ∧ PrimFloat.eqb t 0%float = false ∧ _queue_not_empty q' = false.
Proof.
  unfold dequeue, timeout_given. destruct timeout as [t0|].
  - destruct (PrimFloat.eqb t0 0%float) eqn:Ht0.
    + destruct (is_empty (dequeue_begin q)); [discriminate|].
      destruct (dequeue_take (dequeue_begin q)); discriminate.
    + destruct (_queue_not_empty (dequeue_begin q)) eqn:He.
      * destruct (dequeue_take (dequeue_begin q)); discriminate.
      * intros [= <- <-]. by rewrite Ht0, He.
  - destruct (is_empty (dequeue_begin q)); [discriminate|].
    destruct (dequeue_take (dequeue_begin q)); discriminate.
Qed.

(** An accepted [enqueue] records, under the request's id, a fresh item
    that carries the clock reading of the call. *)
Lemma enqueue_records_fresh_item (q : QueueManager) (r : BuildRequest) (now : datetime) :
  Z.of_nat (length (_queue q)) < _max_queue_size q →
  _build_ids q !! id r = None →
  snd (enqueue q r now) = true ∧
  _build_ids (fst (enqueue q r now)) !! id r = Some (from_request r now) ∧
  from_request r now ∈ _queue (fst (enqueue q r now)).
Proof.
  intros Hlen Hid. unfold enqueue.
  destruct (Z.leb_spec (_max_queue_size q) (Z.of_nat (length (_queue q)))); [lia|].
  rewrite bool_decide_eq_false_2.
  - simpl. split; [done|]. split; [apply lookup_insert_eq|].
    unfold Heapq.heappush, Heapq._siftdown.
    rewrite length_app. simpl length.
    replace (length (_queue q) + 1 - 1)%nat with (length (_queue q)) by lia.
    rewrite lookup_app_r, Nat.sub_diag by lia. simpl.
    destruct (Heapq.siftdown_loop _ _ _ _ _ _) as [h p] eqn:E.
    pose proof (HeapqFacts.siftdown_loop_length QueueItem_lt
                  (length (_queue q) + 1) (_queue q ++ [from_request r now])
                  (from_request r now) 0 (length (_queue q))) as Hl.
    pose proof (HeapqFacts.siftdown_loop_bound QueueItem_lt
                  (length (_queue q) + 1) (_queue q ++ [from_request r now])
                  (from_request r now) 0 (length (_queue q))) as Hb.
    rewrite E in Hl, Hb. simpl in Hl, Hb. rewrite length_app in Hl. simpl in Hl.
    eapply list_elem_of_lookup_2. apply list_lookup_insert_eq. lia.
  - rewrite Hid. by intros [? ?].
Qed.

(** On a heap, [enqueue] keeps every queued item. *)
Lemma enqueue_keeps_items (q : QueueManager) (r : BuildRequest) (now : datetime)
    (other : QueueItem) :
  Heapq.heap_ordered QueueItem_lt (_queue q) →
  other ∈ _queue q → other ∈ _queue (fst (enqueue q r now)).
Proof.
  intros Hord Hin. unfold enqueue.
  destruct (_max_queue_size q <=? Z.of_nat (length (_queue q))); [done|].
  destruct (bool_decide (is_Some (_build_ids q !! id r))); [done|]. simpl.
  destruct (HeapqFacts.heappush_spec QueueItem_lt QueueItem_lt_irrefl QueueItem_lt_asym
              QueueItem_le_trans (_queue q) (from_request r now) Hord) as (_ & Hperm & _).
  rewrite Hperm. apply elem_of_cons. by right.
Qed.

(** Within one class the queue order is the order of the timestamps. *)
Lemma same_class_order (a b : QueueItem) :
  priority_value a = priority_value b →
  timestamp a < timestamp b →
  QueueItem_lt a b = true ∧ QueueItem_lt b a = false.
Proof.
  intros Hp Ht. unfold QueueItem_lt. rewrite Hp.
  rewrite Z.ltb_irrefl, Z.eqb_refl. simpl.
  split; [by apply Z.ltb_lt | apply Z.ltb_ge; lia].
Qed.

End QueueFacts.

(** ** The priority scheduler *)
Module SchedulerFacts.
Import Constants Dto Scheduler Scenario.

Lemma max_list_nonneg (l : list Z) : 0 ≤ foldr Z.max 0 l.
Proof. induction l; simpl; lia. Qed.

Lemma max_list_app (l1 l2 : list Z) :
  foldr Z.max 0 (l1 ++ l2) = Z.max (foldr Z.max 0 l1) (foldr Z.max 0 l2).
Proof.
  induction l1 as [|x l1 IH]; simpl.
  - pose proof (max_list_nonneg l2). lia.
  - rewrite IH. lia.
Qed.

(** The inner loop computes the running maximum with the matched boosts,
    whatever the table. *)
Lemma inner_loop_max (label_lower : string) (table : list (string * Z)) (m : Z) :
  0 ≤ m →
  fold_left (boost_step label_lower) table m
  = Z.max m (foldr Z.max 0
               (map snd (filter (fun e => Py.contains (fst e) label_lower = true) table))).
Proof.
  revert m. induction table as [|e table IH]; intros m Hm; simpl.
  - lia.
  - rewrite filter_cons. unfold boost_step at 2.
    destruct (decide (Py.contains (fst e) label_lower = true)) as [Hc|Hc].
    + rewrite Hc. rewrite IH by lia. simpl. lia.
    + apply not_true_is_false in Hc. rewrite Hc. by apply IH.
Qed.

Lemma outer_loop_max (table : list (string * Z)) (labels : list string) (m : Z) :
  0 ≤ m →
  fold_left (fun max_boost label => fold_left (boost_step (Py.lower label)) table max_boost)
            labels m
  = Z.max m (foldr Z.max 0
               (concat (map (fun label =>
                               map snd (filter (fun e => Py.contains (fst e) (Py.lower label) = true)
                                               table))
                            labels))).
Proof.
  revert m. induction labels as [|l labels IH]; intros m Hm.
  - simpl. lia.
  - cbn [fold_left map concat]. rewrite max_list_app.
    rewrite IH; rewrite inner_loop_max by done; lia.
Qed.

(** The loop of [_get_label_priority_boost] yields the maximum of the
    matched boosts, not their sum. *)
Lemma label_boost_is_maximum (labels : list string) :
  _get_label_priority_boost labels = spec_label_boost labels.
Proof.
  unfold _get_label_priority_boost. rewrite outer_loop_max by done.
  pose proof (max_list_nonneg (concat (map label_boosts labels))) as Hnn.
  unfold spec_label_boost. unfold label_boosts in *.
  change _label_priority_boost
    with [("critical", 100); ("urgent", 80); ("high-priority", 60); ("quick-test", 40)].
  lia.
Qed.

Lemma main_branch_spec (b : string) :
  _is_main_branch b
  = bool_decide (b = "main" ∨ b = "master" ∨ b = "develop" ∨ b = "release").
Proof.
  unfold _is_main_branch, MAIN_BRANCHES. apply bool_decide_ext.
  rewrite !elem_of_cons, elem_of_nil. tauto.
Qed.

(** C5. The score computed by [_calculate_priority_score] is the one the
    policy describes, [spec_score]: 50, plus 100 for a main branch, 80 for
    a release prefix, 90 for a hotfix prefix, the maximum boost among the
    labels matched case-insensitively as substrings, 30 when ready for
    review, minus 20 for a draft, minus 10 when the triggerer (compared in
    lower case) contains dependabot or renovate, minus 5 per retry; and
    [calculate_priority] returns Critical iff the score is at least 150, High
    iff it is in [80, 150), Normal iff it is in [20, 80), Low iff it is
    below 20. *)
Theorem priority_policy (request : BuildRequest) :
  _calculate_priority_score request = spec_score request ∧
  (calculate_priority request = CRITICAL ↔ 150 ≤ spec_score request) ∧
  (calculate_priority request = HIGH ↔ 80 ≤ spec_score request < 150) ∧
  (calculate_priority request = NORMAL ↔ 20 ≤ spec_score request < 80) ∧
  (calculate_priority request = LOW ↔ spec_score request < 20).
Proof.
  assert (Hscore : _calculate_priority_score request = spec_score request).
  { unfold _calculate_priority_score, spec_score.
    rewrite label_boost_is_maximum, main_branch_spec.
    unfold _is_release_branch, _is_hotfix_branch, _is_dependabot_pr,
      RELEASE_PREFIXES, HOTFIX_PREFIXES, delta. simpl existsb.
    change (weight "is_main_branch") with 100.
    change (weight "is_release_branch") with 80.
    change (weight "is_hotfix_branch") with 90.
    change (weight "is_ready_for_review") with 30.
    change (weight "is_draft") with (-20).
    change (weight "is_dependabot") with (-10).
    change (weight "retry_count") with (-5).
    repeat match goal with
           | |- context [bool_decide ?P] => destruct (bool_decide P)
           | |- context [Py.startswith ?a ?b] => destruct (Py.startswith a b)
           | |- context [Py.contains ?a ?b] => destruct (Py.contains a b)
           | |- context [default false ?o] => destruct (default false o)
           end; simpl; lia. }
  split; [exact Hscore|].
  unfold calculate_priority. rewrite Hscore.
  destruct (Z.leb_spec 150 (spec_score request));
    [| destruct (Z.leb_spec 80 (spec_score request));
       [| destruct (Z.leb_spec 20 (spec_score request))]];
    repeat split; intros; try discriminate; try lia; try reflexivity.
Qed.

(** Two sample requests: a dependabot draft with two matching labels, and
    branches that combine signals. *)
Example score_takes_maximum_label :
  _calculate_priority_score
    (sample_request "feature/x" "Dependabot[bot]"
       {| labels := Some ["Quick-Test"; "URGENT fix"]; is_ready_for_review := None;
          is_draft := Some true; retry_count := Some 2; retry_of := None |})
  = 50 + 80 - 20 - 10 - 10.
Proof. reflexivity. Qed.

Example score_adds_branch_signals :
  _calculate_priority_score (sample_request "release" "alice" no_metadata) = 150 ∧
  calculate_priority (sample_request "release" "alice" no_metadata) = CRITICAL ∧
  _calculate_priority_score (sample_request "v-hotfix" "alice" no_metadata) = 130 ∧
  calculate_priority (sample_request "feature/x" "alice" no_metadata) = NORMAL.
Proof. repeat split; reflexivity. Qed.

End SchedulerFacts.

(** ** The resource allocator *)
Module AllocatorFacts.
Import Allocator PyFacts Scenario.

(** C9. Releasing an allocation whose id is not among the recorded
    outstanding allocations returns [False] and leaves the allocator (all
    nodes with their totals and available amounts, and the recorded
    allocations) as it was. *)
Theorem release_unknown_is_noop (a : ResourceAllocator) (allocation : ResourceAllocation) :
  _allocations a !! allocation_id allocation = None →
  release_resources a allocation = (a, false).
Proof.
  intros Hnone. unfold release_resources. by rewrite Hnone.
Qed.

(** The theorem at work: the allocator after one allocation does not know
    the stray allocation 999. *)
Lemma release_unknown_is_noop_witness :
  _allocations after_first !! 999%N = None ∧
  release_resources after_first stray = (after_first, false).
Proof.
  split; [ vm_compute; reflexivity
         | apply (release_unknown_is_noop after_first stray); vm_compute; reflexivity ].
Defined.

(** A known allocation, by contrast, is removed and returns [True]. *)
Lemma release_known (a : ResourceAllocator) (allocation : ResourceAllocation) :
  is_Some (_allocations a !! allocation_id allocation) →
  snd (release_resources a allocation) = true ∧
  _allocations (fst (release_resources a allocation)) !! allocation_id allocation = None.
Proof.
  intros [x Hx]. unfold release_resources. rewrite Hx. simpl.
  split; [done | apply lookup_delete_eq].
Qed.

(** After the refresh of one cluster node all of its reported GPUs and
    cores are available again, whatever is recorded as allocated on it. *)
Lemma refresh_k8s_node_resets nodes k now :
  k_gpu_vendor k = Some "amd" →
  ∃ n, Py.get (refresh_k8s_node nodes k now) (k_name k) = Some n ∧
       available_gpus n = k_gpu_count k ∧ total_gpus n = k_gpu_count k ∧
       available_cpu_cores n = k_cpu_cores k ∧ total_cpu_cores n = k_cpu_cores k.
Proof.
  intros Hv. unfold refresh_k8s_node. rewrite bool_decide_eq_true_2 by done.
  eexists. split; [apply get_set_eq | done].
Qed.

(** So a refresh breaks the accounting of every node it reports that has
    GPUs allocated. *)
Lemma refresh_breaks_accounting (a : ResourceAllocator) (inv : Inventory) (k : K8sNode)
    (now : datetime) :
  _k8s_client a = true → list_node inv = Some [Some k] → k_gpu_vendor k = Some "amd" →
  outstanding_gpus a (k_name k) ≠ 0 →
  ¬ gpus_accounted (refresh_node_resources a inv now) (k_name k).
Proof.
  intros Hc Hl Hv Hout. unfold gpus_accounted, refresh_node_resources.
  rewrite Hc, Hl. simpl.
  destruct (refresh_k8s_node_resets (_nodes a) k now Hv) as (n & Hn & Ha & Ht & _).
  rewrite Hn, Ha, Ht.
  change (outstanding_gpus _ (k_name k)) with (outstanding_gpus a (k_name k)). lia.
Qed.

(** C1. On a one-GPU node, two allocations in a row both succeed and both
    receive the node's only GPU: each [allocate_resources] starts with a
    refresh that makes the whole node available again.  Afterwards the
    accounting invariant fails, and it fails again right after a further
    [refresh_node_resources].  In standalone mode a refresh stores the
    memory that the machine reports as available, which differs from the
    reported total although nothing is allocated. *)
Theorem refresh_discards_outstanding_allocations :
  (∃ al1 al2,
     snd (allocate_resources single_gpu_cluster 1 101%N default_request
            (ResourceAllocator_new true)) = Py.Return (Some al1) ∧
     snd (allocate_resources single_gpu_cluster 2 102%N default_request after_first)
       = Py.Return (Some al2) ∧
     ra_gpu_ids al1 = ["n1-gpu-0"] ∧ ra_gpu_ids al2 = ["n1-gpu-0"]) ∧
  (option_map total_gpus (Py.get (_nodes after_second) "n1") = Some 1 ∧
   option_map available_gpus (Py.get (_nodes after_second) "n1") = Some 0 ∧
   outstanding_gpus after_second "n1" = 2 ∧
   ¬ gpus_accounted after_second "n1") ∧
  (option_map total_gpus (Py.get (_nodes after_refresh) "n1") = Some 1 ∧
   option_map available_gpus (Py.get (_nodes after_refresh) "n1") = Some 1 ∧
   option_map available_cpu_cores (Py.get (_nodes after_refresh) "n1") = Some 64 ∧
   outstanding_gpus after_refresh "n1" = 2 ∧
   outstanding_cpu after_refresh "n1" = 16 ∧
   ¬ gpus_accounted after_refresh "n1") ∧
  (let a := refresh_node_resources (ResourceAllocator_new false) single_gpu_cluster 1 in
   _allocations a = ∅ ∧
   option_map total_memory_gb (Py.get (_nodes a) "local") = Some 64%float ∧
   option_map available_memory_gb (Py.get (_nodes a) "local") = Some 48%float).
Proof.
  split; [| split; [| split]].
  - do 2 eexists. repeat split; vm_compute; reflexivity.
  - repeat split; try (vm_compute; reflexivity).
    unfold gpus_accounted. vm_compute. discriminate.
  - repeat split; try (vm_compute; reflexivity).
    unfold gpus_accounted. vm_compute. discriminate.
  - repeat split; vm_compute; reflexivity.
Qed.

(** Releasing the two allocations after the refresh leaves more GPUs
    available than the node has. *)
Lemma release_after_refresh_exceeds_total :
  ∃ al1 al2 n,
    _allocations after_refresh !! 101%N = Some al1 ∧
    _allocations after_refresh !! 102%N = Some al2 ∧
    Py.get (_nodes (fst (release_resources (fst (release_resources after_refresh al1)) al2)))
           "n1" = Some n ∧
    total_gpus n = 1 ∧ available_gpus n = 3.
Proof. do 3 eexists. repeat split; vm_compute; reflexivity. Qed.

(** An instance of the declared [BuildConfiguration] class has no
    [cpu_cores]: the allocation raises after the refresh, and records
    nothing. *)
Lemma allocate_dto_configuration_raises inv now uuid c a :
  allocate_resources inv now uuid (of_BuildConfiguration c) a
  = (refresh_node_resources a inv now, Py.Raise (Py.AttributeError "cpu_cores")).
Proof. reflexivity. Qed.

End AllocatorFacts.

(** ** The load balancer *)
Module BalancerFacts.
Import Balancer PyFacts Scenario.

(** An exception inside the probe is answered with [True]. *)
Lemma check_health_on_exception (lb : LoadBalancer) (wid : string) (p : Probe) :
  is_Some (worker_of lb wid) → p = TimedOut ∨ p = ConnectionFailed →
  probe_ok p = false ∧ _check_worker_health lb wid p = true.
Proof.
  intros [w Hw] Hp. unfold _check_worker_health. unfold worker_of in Hw. rewrite Hw.
  by destruct Hp as [-> | ->].
Qed.

(** A response decides by its status code. *)
Lemma check_health_on_response (lb : LoadBalancer) (wid : string) (st : Z) :
  is_Some (worker_of lb wid) →
  _check_worker_health lb wid (Responded st) = probe_ok (Responded st).
Proof.
  intros [w Hw]. unfold _check_worker_health. unfold worker_of in Hw. by rewrite Hw.
Qed.

(** A check of another worker leaves this one alone. *)
Lemma health_check_other (probe : string → Probe) (now : datetime) (lb : LoadBalancer)
    (wid other : string) :
  other ≠ wid → worker_of (health_check_one probe now lb other) wid = worker_of lb wid.
Proof.
  intros Hne. unfold health_check_one, mark_worker_healthy, mark_worker_unhealthy, worker_of.
  destruct (_check_worker_health lb other (probe other));
    destruct (Py.get (_workers lb) other); simpl; try done; by apply get_set_ne.
Qed.

(** The check of a registered worker whose probe raises marks it healthy
    and stamps the check. *)
Lemma health_check_failed_probe (probe : string → Probe) (now : datetime) (lb : LoadBalancer)
    (wid : string) :
  is_Some (worker_of lb wid) → probe wid = TimedOut ∨ probe wid = ConnectionFailed →
  ∃ w, worker_of (health_check_one probe now lb wid) wid = Some w ∧
       is_healthy w = true ∧ last_health_check w = now.
Proof.
  intros Hreg Hp. unfold health_check_one.
  destruct (check_health_on_exception lb wid (probe wid) Hreg Hp) as [_ ->].
  destruct Hreg as [w Hw]. unfold mark_worker_healthy, worker_of in *. rewrite Hw. simpl.
  eexists. split; [apply get_set_eq | done].
Qed.

(** The same for a whole round of [_perform_health_checks], for any
    registry and any answers of the other workers. *)
Lemma round_marks_failed_probe_healthy (lb : LoadBalancer) (probe : string → Probe)
    (now : datetime) (wid : string) :
  is_Some (worker_of lb wid) → probe wid = TimedOut ∨ probe wid = ConnectionFailed →
  ∃ w, worker_of (_perform_health_checks lb probe now) wid = Some w ∧
       is_healthy w = true ∧ last_health_check w = now.
Proof.
  intros Hreg Hp. unfold _perform_health_checks.
  assert (Hin : wid ∈ Py.keys (_workers lb)).
  { destruct Hreg as [w Hw]. unfold worker_of in Hw. unfold Py.keys.
    induction (_workers lb) as [|[k v] d IH]; [done|]. simpl in *.
    destruct (decide (k = wid)) as [->|]; [apply elem_of_cons; by left|].
    apply elem_of_cons. right. by apply IH. }
  set (good := fun l => ∃ w, worker_of l wid = Some w ∧ is_healthy w = true
                             ∧ last_health_check w = now).
  assert (Hgen : ∀ ks l, is_Some (worker_of l wid) → wid ∈ ks ∨ good l →
                         good (fold_left (health_check_one probe now) ks l)).
  { induction ks as [|k ks IH]; intros l Hl Hor; simpl.
    - destruct Hor as [Hor|Hor]; [by apply elem_of_nil in Hor | done].
    - destruct (decide (k = wid)) as [->|Hne].
      + pose proof (health_check_failed_probe probe now l wid Hl Hp) as Hg.
        apply IH; [|by right]. destruct Hg as (w & -> & _). by eexists.
      + apply IH.
        * by rewrite health_check_other.
        * destruct Hor as [Hor|Hor].
          -- left. apply elem_of_cons in Hor as [->|Hor]; [done | done].
          -- right. unfold good. by rewrite health_check_other. }
  apply Hgen; [done | by left].
Qed.

(** C7. One round of health checks in which the probe of the registered,
    unhealthy worker w1 times out (or cannot connect) leaves w1 marked
    healthy, with [last_health_check] set to the time of the round; only a
    response other than 200 marks it unhealthy. *)
Theorem failed_probe_marks_healthy :
  option_map is_healthy (worker_of one_worker "w1") = Some false ∧
  probe_ok TimedOut = false ∧ probe_ok ConnectionFailed = false ∧
  (let lb := _perform_health_checks one_worker (fun _ => TimedOut) 50 in
   option_map is_healthy (worker_of lb "w1") = Some true ∧
   option_map last_health_check (worker_of lb "w1") = Some 50) ∧
  (let lb := _perform_health_checks one_worker (fun _ => ConnectionFailed) 50 in
   option_map is_healthy (worker_of lb "w1") = Some true ∧
   option_map last_health_check (worker_of lb "w1") = Some 50) ∧
  (let lb := _perform_health_checks
               (mark_worker_healthy one_worker "w1" 40) (fun _ => Responded 503) 50 in
   option_map is_healthy (worker_of lb "w1") = Some false).
Proof. repeat split; vm_compute; reflexivity. Qed.

(** What [record_build_completion] does to a registered worker: the load
    goes down by one, not below 0; the count of completed builds goes up by
    one; the average becomes the running mean [((n-1)*old + d) / n], in
    float arithmetic, with [n] the new count. *)
Lemma record_build_completion_registered (lb : LoadBalancer) (wid : string) (d : float)
    (w : WorkerInfo) :
  worker_of lb wid = Some w → 0 ≤ total_builds_completed w →
  ∃ w', worker_of (fst (record_build_completion wid d lb)) wid = Some w' ∧
        snd (record_build_completion wid d lb) = Py.Return tt ∧
        current_load w' = Z.max 0 (current_load w - 1) ∧
        total_builds_completed w' = total_builds_completed w + 1 ∧
        average_build_time_seconds w'
        = PrimFloat.div
            (PrimFloat.add
               (PrimFloat.mul (Py.float_of_Z (total_builds_completed w' - 1))
                              (average_build_time_seconds w)) d)
            (Py.float_of_Z (total_builds_completed w')).
Proof.
  intros Hw Hn. unfold worker_of in *. unfold record_build_completion. rewrite Hw.
  destruct (Z.eqb_spec (total_builds_completed w + 1) 0) as [H0|_]; [lia|].
  eexists. simpl. split; [apply get_set_eq|]. done.
Qed.

(** For instance, a first build of 300 s on a fresh worker: the average
    becomes 300. *)
Example first_completion_average :
  option_map average_build_time_seconds
    (worker_of (fst (record_build_completion "w1" 300%float one_worker)) "w1")
  = Some 300%float.
Proof. vm_compute. reflexivity. Qed.

(** [update_worker_load] changes nothing but the load of the worker it
    names, and nothing at all for a name that is not registered. *)
Lemma update_worker_load_unregistered (lb : LoadBalancer) (wid : string) (delta : Z) :
  worker_of lb wid = None → update_worker_load lb wid delta = lb.
Proof. intros H. unfold update_worker_load. unfold worker_of in H. by rewrite H. Qed.

Lemma update_worker_load_keeps_count (lb : LoadBalancer) (wid other : string) (delta : Z) :
  option_map total_builds_completed (worker_of (update_worker_load lb wid delta) other)
  = option_map total_builds_completed (worker_of lb other) ∧
  option_map average_build_time_seconds (worker_of (update_worker_load lb wid delta) other)
  = option_map average_build_time_seconds (worker_of lb other).
Proof.
  unfold update_worker_load, worker_of.
  destruct (Py.get (_workers lb) wid) as [w|] eqn:Hw; [|done]. simpl.
  destruct (decide (wid = other)) as [<-|Hne].
  - rewrite get_set_eq, Hw. done.
  - by rewrite get_set_ne.
Qed.

End BalancerFacts.

(** ** The state manager *)
Module StateFacts.
Import Constants Dto State Scenario.

(** The enumeration has a member [FAILURE] and none called [FAILED]. *)
Lemma no_member_FAILED :
  BuildStatus_attr "FAILURE" = Py.Return FAILURE ∧
  BuildStatus_attr "FAILED" = Py.Raise (Py.AttributeError "FAILED") ∧
  terminal_statuses = Py.Raise (Py.AttributeError "FAILED").
Proof. repeat split; reflexivity. Qed.

(** C8. Every call of [update_build_status] raises [AttributeError]: the
    status, [updated_at] and the metadata are written, then the lookup of
    [BuildStatus.FAILED] fails before any [completed_at] is stamped.  For
    the saved build 7 and each of the terminal statuses the state ends up
    with the new status and without [completed_at]. *)
Theorem update_build_status_raises :
  (∀ build_id status metadata now sm,
     snd (update_build_status build_id status metadata now sm)
     = Py.Raise (Py.AttributeError "FAILED")) ∧
  Forall (fun status =>
            let sm := fst (update_build_status 7%N status None 9 one_saved) in
            state_of sm 7%N "status" = Some (VStr (BuildStatus_value status)) ∧
            state_of sm 7%N "updated_at" = Some (VTime 9) ∧
            state_of sm 7%N "completed_at" = None)
         [SUCCESS; FAILURE; CANCELLED; TIMEOUT].
Proof.
  split.
  - intros. reflexivity.
  - repeat constructor; vm_compute; reflexivity.
Qed.

(** Even with the lookup repaired, the tuple would not hold [TIMEOUT]. *)
Lemma timeout_not_in_stamped_tuple :
  TIMEOUT ∉ [SUCCESS; FAILURE; CANCELLED].
Proof. rewrite !elem_of_cons, elem_of_nil. intros [?|[?|[?|[]]]]; discriminate. Qed.

(** A build saved and left pending is what [restore_pending_builds]
    returns. *)
Lemma restore_returns_pending :
  restore_pending_builds one_saved [] = [saved_job].
Proof. vm_compute. reflexivity. Qed.

End StateFacts.

(** ** The coordinator *)
Module CoordinatorFacts.
Import Constants Dto Coordinator Scenario.

(** [start] leaves the queue, the state manager and every other component
    as they were; it only sets the running flag and creates the task. *)
Lemma start_only_spawns (w : World) (c : BuildCoordinator) :
  start w c = start_spawn c ∧
  _queue_manager (start w c) = _queue_manager c ∧
  _state_manager (start w c) = _state_manager c.
Proof. done. Qed.

(** C2. [start] creates the dispatcher task first and calls
    [restore_pending_builds] afterwards, without using what it returns, so
    it never changes the queue.  For the coordinator that holds the pending
    build 7 in memory, and for the one that finds it in the persistent
    store, the call returns build 7, and after [start] the queue is still
    empty and does not contain it. *)
Theorem start_drops_restored_builds :
  (∀ w c, start w c = start_restore w (start_spawn c) ∧
          _processing_task (start_spawn c) = true ∧
          _queue_manager (start w c) = _queue_manager c) ∧
  (State.state_of (_state_manager restarted) 7%N "status"
   = Some (State.VStr (BuildStatus_value PENDING)) ∧
   State.restore_pending_builds (_state_manager (start_spawn restarted))
     (from_redis (quiet_world 10)) = [saved_job] ∧
   Queue._queue (_queue_manager (start (quiet_world 10) restarted)) = [] ∧
   Queue.contains (_queue_manager (start (quiet_world 10) restarted)) (id saved_job) = false) ∧
  (State.restore_pending_builds (_state_manager (start_spawn restarted_from_store))
     (from_redis (store_world 10)) = [saved_job] ∧
   Queue._queue (_queue_manager (start (store_world 10) restarted_from_store)) = [] ∧
   Queue.contains (_queue_manager (start (store_world 10) restarted_from_store)) (id saved_job)
   = false).
Proof.
  split; [| split].
  - intros w c. repeat split.
  - repeat split; vm_compute; reflexivity.
  - repeat split; vm_compute; reflexivity.
Qed.

(** Re-submitting the build, as the recovery is described, would queue it. *)
Lemma submit_would_queue :
  let w := quiet_world 10 in
  Queue.contains (_queue_manager (fst (submit_build w saved_job restarted)))
                 (id saved_job) = true.
Proof. vm_compute. reflexivity. Qed.

(** C3, counterexample.  R2 is re-enqueued at reading 30: its new item
    carries 30, not 10, and the next dequeue returns the later-submitted R3
    of the same class. *)
Lemma reenqueue_loses_rank :
  priority job_R2 = priority job_R3 ∧
  ¬ reenqueue_keeps_rank r3_waiting (quiet_world 30) job_R2 10 ∧
  (let q := _queue_manager (fst (enqueue_again (quiet_world 30) job_R2 r3_waiting)) in
   option_map Queue.timestamp (Queue._build_ids q !! id job_R2) = Some 30 ∧
   snd (Queue.dequeue q None) = Queue.Returned (Some job_R3)).
Proof.
  split; [reflexivity|]. split.
  - intros [Hts _]. vm_compute in Hts. discriminate Hts.
  - split; vm_compute; reflexivity.
Qed.

(** C3, as amended.  A request put back by the coordinator goes through
    [enqueue]: when it is accepted (the queue is not full and does not hold
    the id), its new queue item has the priority value of the request's
    unchanged priority class and the time of the re-enqueue as arrival
    timestamp; so every item of the same class with an earlier timestamp
    comes before it in the queue order, and, the queue being a heap, while
    such an item is queued a dequeue returns a request that precedes the
    re-enqueued one. *)
Theorem reenqueue_takes_fresh_timestamp (w : World) (r : BuildRequest) (c : BuildCoordinator) :
  Z.of_nat (length (Queue._queue (_queue_manager c))) < Queue._max_queue_size (_queue_manager c) →
  Queue._build_ids (_queue_manager c) !! id r = None →
  ∃ item,
    Queue._build_ids (_queue_manager (fst (enqueue_again w r c))) !! id r = Some item ∧
    item ∈ Queue._queue (_queue_manager (fst (enqueue_again w r c))) ∧
    Queue.request item = r ∧
    Queue.priority_value item = Queue._get_priority_value (priority r) ∧
    Queue.timestamp item = now w ∧
    (∀ other, Queue.priority_value other = Queue.priority_value item →
              Queue.timestamp other < now w →
              Queue.QueueItem_lt other item = true ∧ Queue.QueueItem_lt item other = false) ∧
    (Heapq.heap_ordered Queue.QueueItem_lt (Queue._queue (_queue_manager c)) →
     ∀ other q' r',
       other ∈ Queue._queue (_queue_manager c) →
       Queue.priority_value other = Queue.priority_value item →
       Queue.timestamp other < now w →
       Queue.dequeue (_queue_manager (fst (enqueue_again w r c))) None
       = (q', Queue.Returned (Some r')) →
       ∃ first, first ∈ Queue._queue (_queue_manager (fst (enqueue_again w r c))) ∧
                Queue.request first = r' ∧ Queue.QueueItem_lt first item = true).
Proof.
  intros Hlen Hid.
  destruct (QueueFacts.enqueue_records_fresh_item _ r (now w) Hlen Hid) as (_ & Hrec & Hin).
  exists (Queue.from_request r (now w)).
  split; [exact Hrec|]. split; [exact Hin|].
  split; [reflexivity|]. split; [reflexivity|]. split; [reflexivity|]. split.
  - intros other Hp Ht. by apply QueueFacts.same_class_order.
  - intros Hord other q' r' Hother Hp Ht Hdq.
    pose proof (QueueFacts.enqueue_keeps_heap _ r (now w) Hord) as Hord'.
    destruct (QueueFacts.dequeue_returns_minimum_on_heap _ _ _ Hord' Hdq)
      as (first & Hfirst & Hreq & Hmin).
    exists first. split; [exact Hfirst|]. split; [exact Hreq|].
    assert (Hother' : other ∈ Queue._queue (fst (Queue.enqueue (_queue_manager c) r (now w)))).
    { by apply QueueFacts.enqueue_keeps_items. }
    specialize (Hmin other Hother'). unfold item_le in Hmin.
    apply QueueFacts.QueueItem_lt_spec. simpl in *. lia.
Qed.

(** The theorem at work on the scenario of the counterexample. *)
Lemma reenqueue_takes_fresh_timestamp_witness :
  ∃ item,
    Queue._build_ids (_queue_manager (fst (enqueue_again (quiet_world 30) job_R2 r3_waiting)))
      !! id job_R2 = Some item ∧
    item ∈ Queue._queue (_queue_manager (fst (enqueue_again (quiet_world 30) job_R2 r3_waiting))) ∧
    Queue.request item = job_R2 ∧
    Queue.priority_value item = Queue._get_priority_value (priority job_R2) ∧
    Queue.timestamp item = now (quiet_world 30) ∧
    (∀ other, Queue.priority_value other = Queue.priority_value item →
              Queue.timestamp other < now (quiet_world 30) →
              Queue.QueueItem_lt other item = true ∧ Queue.QueueItem_lt item other = false) ∧
    (Heapq.heap_ordered Queue.QueueItem_lt (Queue._queue (_queue_manager r3_waiting)) →
     ∀ other q' r',
       other ∈ Queue._queue (_queue_manager r3_waiting) →
       Queue.priority_value other = Queue.priority_value item →
       Queue.timestamp other < now (quiet_world 30) →
       Queue.dequeue (_queue_manager (fst (enqueue_again (quiet_world 30) job_R2 r3_waiting))) None
       = (q', Queue.Returned (Some r')) →
       ∃ first,
         first ∈ Queue._queue (_queue_manager (fst (enqueue_again (quiet_world 30) job_R2 r3_waiting))) ∧
         Queue.request first = r' ∧ Queue.QueueItem_lt first item = true).
Proof.
  apply (reenqueue_takes_fresh_timestamp (quiet_world 30) job_R2 r3_waiting);
    vm_compute; reflexivity.
Defined.

(** The queue of that scenario is a heap, and R3 waits in it with its
    earlier timestamp: the last part of the amended claim applies. *)
Lemma r3_waiting_is_heap :
  Heapq.heap_ordered Queue.QueueItem_lt (Queue._queue (_queue_manager r3_waiting)) ∧
  Queue.from_request job_R3 20 ∈ Queue._queue (_queue_manager r3_waiting).
Proof.
  split.
  - apply QueueFacts.built_is_heap.
    apply built_enqueue, built_dequeue, built_enqueue, built_new.
  - apply list_elem_of_lookup. exists 0%nat. vm_compute. reflexivity.
Qed.

(** C4. [_handle_build_result] never reaches the load balancer: reading
    [result.completed_at], which [BuildResult] does not have, raises while
    the arguments of [update_build_status] are evaluated, and the
    coordinator is left as it was.  For the selected worker w1 and a
    successful result: the build's status is still pending, and w1 keeps
    its load of 1 and its count of 0 completed builds.  The call that the
    function would make next, [update_worker_load] for the result's node
    name ("unknown"), is not [record_build_completion] and does not name
    w1. *)
Theorem handle_build_result_skips_completion :
  (∀ w build_id result c,
     _handle_build_result w build_id result c
     = (c, Py.Raise (Py.AttributeError "completed_at"))) ∧
  (let c := fst (_handle_build_result (quiet_world 40) 7%N success_result w1_busy) in
   State.state_of (_state_manager c) 7%N "status" = Some (State.VStr "pending") ∧
   option_map Balancer.current_load (worker_of (_load_balancer c) "w1") = Some 1 ∧
   option_map Balancer.total_builds_completed (worker_of (_load_balancer c) "w1")
   = Some 0) ∧
  result_worker success_result = Some "unknown" ∧
  Balancer.update_worker_load (_load_balancer w1_busy) "unknown" (-1) = _load_balancer w1_busy.
Proof.
  split; [| split; [| split]].
  - intros. reflexivity.
  - repeat split; vm_compute; reflexivity.
  - reflexivity.
  - vm_compute. reflexivity.
Qed.

(** [_execute_build] as written always ends in an exception, with the queue
    untouched: marking the build as running raises (see C8), the handler
    raises on [BuildStatus.FAILED], and the [finally] block reads
    [allocation] before it was ever assigned. *)
Lemma execute_build_raises (w : World) (r : BuildRequest) (c : BuildCoordinator) :
  snd (_execute_build w r c) = Py.Raise (Py.UnboundLocalError "allocation") ∧
  _queue_manager (fst (_execute_build w r c)) = _queue_manager c ∧
  _resource_allocator (fst (_execute_build w r c)) = _resource_allocator c ∧
  _load_balancer (fst (_execute_build w r c)) = _load_balancer c.
Proof. repeat split; reflexivity. Qed.

(** The dispatcher's [dequeue()] passes no timeout, so a round never
    waits. *)
Lemma process_queue_round_takes_head (w : World) (c : BuildCoordinator) :
  ∃ q r, Queue.dequeue (_queue_manager c) None = (q, Queue.Returned r).
Proof. apply QueueFacts.dequeue_without_timeout_returns. Qed.

End CoordinatorFacts.

(** ** Dictionaries, continued *)
Module PyDict.
Import Scenario.

Section Dict.
Context {K V : Type} `{EqDecision K}.
Implicit Types (d : list (K * V)) (k : K) (v : V).

Lemma get_None d k : Py.get d k = None ↔ k ∉ Py.keys d.
Proof.
  induction d as [|[k' v'] d IH]; simpl.
  - split; [intros _ H; by apply elem_of_nil in H | done].
  - rewrite not_elem_of_cons. destruct (decide (k' = k)) as [->|Hne].
    + split; [done | by intros [? _]].
    + rewrite IH. split; [by split | by intros [_ ?]].
Qed.

Lemma get_Some_elem d k v : Py.get d k = Some v → (k, v) ∈ d.
Proof.
  induction d as [|[k' v'] d IH]; simpl; [done|].
  destruct (decide (k' = k)) as [->|Hne].
  - intros [= ->]. by left.
  - intros H. right. by apply IH.
Qed.

Lemma elem_get d k v : is_dict d → (k, v) ∈ d → Py.get d k = Some v.
Proof.
  unfold is_dict, Py.keys. induction d as [|[k' v'] d IH]; simpl; intros Hnd Hin.
  - by apply elem_of_nil in Hin.
  - apply NoDup_cons in Hnd as [Hk Hnd].
    apply elem_of_cons in Hin as [[= -> ->]|Hin].
    + by rewrite decide_True.
    + rewrite decide_False; [by apply IH|].
      intros ->. apply Hk. by apply (list_elem_of_fmap_2 fst _ (k, v)).
Qed.

Lemma keys_set d k v :
  Py.keys (Py.set d k v) = if decide (k ∈ Py.keys d) then Py.keys d else Py.keys d ++ [k].
Proof.
  unfold Py.keys. induction d as [|[k' v'] d IH]; simpl.
  - done.
  - destruct (decide (k' = k)) as [->|Hne]; simpl.
    + rewrite decide_True; [done | by left].
    + rewrite IH. destruct (decide (k ∈ map fst d)) as [Hin|Hout].
      * rewrite decide_True; [done | by right].
      * rewrite decide_False; [done|]. rewrite not_elem_of_cons. by split.
Qed.

Lemma is_dict_set d k v : is_dict d → is_dict (Py.set d k v).
Proof.
  unfold is_dict. rewrite keys_set. destruct (decide (k ∈ Py.keys d)) as [|Hout]; [done|].
  intros Hnd. apply NoDup_app. split; [done|]. split.
  - intros x Hx Hk. apply list_elem_of_singleton in Hk as ->. done.
  - apply NoDup_singleton.
Qed.

Lemma length_set d k v :
  length (Py.set d k v) = if decide (k ∈ Py.keys d) then length d else S (length d).
Proof.
  pose proof (keys_set d k v) as Hk. apply (f_equal length) in Hk.
  unfold Py.keys in *. rewrite length_fmap in Hk. rewrite Hk.
  destruct (decide _); [by rewrite length_fmap|].
  rewrite length_app, length_fmap. simpl. lia.
Qed.

(** The entries of [d[k] = v]. *)
Lemma elem_of_set d k v k' v' :
  is_dict d →
  (k', v') ∈ Py.set d k v ↔ (k' = k ∧ v' = v) ∨ (k' ≠ k ∧ (k', v') ∈ d).
Proof.
  intros Hd. pose proof (is_dict_set d k v Hd) as Hd'. split.
  - intros Hin. apply (elem_get _ _ _ Hd') in Hin.
    destruct (decide (k' = k)) as [->|Hne].
    + rewrite PyFacts.get_set_eq in Hin. injection Hin as <-. by left.
    + rewrite PyFacts.get_set_ne in Hin by done. right. split; [done|].
      by apply get_Some_elem.
  - intros [[-> ->]|[Hne Hin]]; apply get_Some_elem.
    + apply PyFacts.get_set_eq.
    + rewrite PyFacts.get_set_ne by done. by apply elem_get.
Qed.

Lemma get_del_eq d k : is_dict d → Py.get (Py.del d k) k = None.
Proof.
  unfold is_dict, Py.keys. induction d as [|[k' v'] d IH]; simpl; [done|].
  intros Hnd. apply NoDup_cons in Hnd as [Hk Hnd].
  destruct (decide (k' = k)) as [->|Hne]; simpl.
  - by apply get_None.
  - rewrite decide_False by done. by apply IH.
Qed.

Lemma get_del_ne d k k' : k ≠ k' → Py.get (Py.del d k) k' = Py.get d k'.
Proof.
  intros Hne. induction d as [|[k0 v0] d IH]; simpl; [done|].
  destruct (decide (k0 = k)) as [->|Hk]; simpl.
  - by rewrite decide_False.
  - by rewrite IH.
Qed.

Lemma keys_del_sub d k x : x ∈ Py.keys (Py.del d k) → x ∈ Py.keys d.
Proof.
  unfold Py.keys. induction d as [|[k0 v0] d IH]; simpl; [done|].
  destruct (decide (k0 = k)) as [->|Hk]; simpl.
  - by right.
  - rewrite !elem_of_cons. intros [->|Hx]; [by left | right; by apply IH].
Qed.

Lemma is_dict_del d k : is_dict d → is_dict (Py.del d k).
Proof.
  unfold is_dict, Py.keys. induction d as [|[k0 v0] d IH]; simpl; [done|].
  intros Hnd. apply NoDup_cons in Hnd as [Hk Hnd].
  destruct (decide (k0 = k)) as [->|Hne]; [done|]. simpl.
  apply NoDup_cons. split; [|by apply IH].
  intros Hin. apply Hk. by apply (keys_del_sub d k).
Qed.

Lemma Forall_set (P : K * V → Prop) d k v :
  Forall P d → P (k, v) → Forall P (Py.set d k v).
Proof.
  intros Hd Hk. induction d as [|[k' v'] d IH]; simpl; [by constructor|].
  apply Forall_cons in Hd as [Hh Ht].
  destruct (decide (k' = k)) as [->|Hne]; constructor; auto.
Qed.

Lemma get_Forall (P : K * V → Prop) d k v : Forall P d → Py.get d k = Some v → P (k, v).
Proof.
  intros Hd Hg. apply get_Some_elem in Hg. rewrite Forall_forall in Hd. by apply Hd.
Qed.

Lemma keys_set_in d k v : k ∈ Py.keys d → Py.keys (Py.set d k v) = Py.keys d.
Proof. intros Hk. by rewrite keys_set, decide_True. Qed.

Lemma keys_set_sub d k v x : x ∈ Py.keys d → x ∈ Py.keys (Py.set d k v).
Proof.
  rewrite keys_set. destruct (decide _); [done|]. intros Hx. apply elem_of_app. by left.
Qed.

End Dict.

(** The sum of the values after an assignment. *)
Lemma sum_set {K} `{EqDecision K} (d : list (K * Z)) (k : K) (v : Z) :
  foldr Z.add 0 (Py.values (Py.set d k v))
  = foldr Z.add 0 (Py.values d) - default 0 (Py.get d k) + v.
Proof.
  unfold Py.values. induction d as [|[k' v'] d IH]; simpl; [lia|].
  destruct (decide (k' = k)) as [->|Hne]; simpl; [lia|]. rewrite IH. lia.
Qed.

End PyDict.

(** ** The binary heap as a container *)
Module HeapqContents.
Import Heapq HeapqFacts.
Local Open Scope nat_scope.

(** Whatever the comparison, the heap operations only move items around. *)
Section Contents.
Context {A : Type} (lt : A → A → bool).

Lemma siftdown_loop_perm fuel h newitem s pos :
  pos < length h →
  let r := siftdown_loop lt fuel h newitem s pos in
  <[r.2 := newitem]> r.1 ≡ₚ <[pos := newitem]> h.
Proof.
  revert h pos. induction fuel as [|fuel IH]; intros h pos Hpos; cbv zeta; [done|].
  rewrite siftdown_loop_S. destruct (Nat.ltb_spec s pos) as [Hs|Hs]; [|done].
  pose proof (parent_lt pos ltac:(lia)) as Hpp.
  destruct (h !! parent pos) as [q|] eqn:Hq; [|done].
  destruct (lt newitem q); [|done].
  rewrite IH by (rewrite length_insert; lia).
  rewrite <- (list_insert_insert_eq h pos q newitem).
  apply Permutation_insert_swap.
  - by apply list_lookup_insert_eq.
  - rewrite list_lookup_insert_ne by lia. done.
Qed.

Lemma _siftdown_perm h s pos : _siftdown lt h s pos ≡ₚ h.
Proof.
  unfold _siftdown. destruct (h !! pos) as [newitem|] eqn:Hn; [|done].
  pose proof (siftdown_loop_perm (length h) h newitem s pos) as Hp.
  destruct (siftdown_loop lt (length h) h newitem s pos) as [h' p]. simpl in Hp.
  rewrite Hp by (by eapply lookup_lt_Some). by rewrite list_insert_id.
Qed.

Lemma siftup_loop_perm fuel h pos newitem :
  pos < length h →
  let r := siftup_loop lt fuel h pos in
  <[r.2 := newitem]> r.1 ≡ₚ <[pos := newitem]> h.
Proof.
  revert h pos. induction fuel as [|fuel IH]; intros h pos Hpos; cbv zeta; [done|].
  rewrite siftup_loop_S. destruct (Nat.ltb_spec (2 * pos + 1) (length h)) as [Hc|Hc]; [|done].
  cbv zeta.
  set (ci := match h !! (2 * pos + 1), h !! (2 * pos + 1 + 1) with
             | Some c, Some r => if negb (lt c r) then 2 * pos + 1 + 1 else 2 * pos + 1
             | _, _ => 2 * pos + 1
             end).
  assert (Hci : pos < ci).
  { unfold ci. destruct (h !! (2 * pos + 1)), (h !! (2 * pos + 1 + 1)); try lia.
    destruct (negb _); lia. }
  destruct (h !! ci) as [c|] eqn:Hcv; [|done].
  rewrite IH by (rewrite length_insert; by eapply lookup_lt_Some).
  rewrite <- (list_insert_insert_eq h pos c newitem).
  apply Permutation_insert_swap.
  - by apply list_lookup_insert_eq.
  - rewrite list_lookup_insert_ne by lia. done.
Qed.

Lemma siftup_loop_length fuel h pos :
  length (siftup_loop lt fuel h pos).1 = length h.
Proof.
  revert h pos. induction fuel as [|fuel IH]; intros h pos; [done|].
  rewrite siftup_loop_S. destruct (2 * pos + 1 <? length h); [|done]. cbv zeta.
  match goal with |- context [h !! ?i] => destruct (h !! i) end; [|done].
  rewrite IH. apply length_insert.
Qed.

Lemma _siftup_perm h pos : _siftup lt h pos ≡ₚ h.
Proof.
  unfold _siftup. destruct (h !! pos) as [newitem|] eqn:Hn; [|done].
  pose proof (siftup_loop_perm (length h) h pos newitem) as Hp.
  destruct (siftup_loop lt (length h) h pos) as [h' p]. simpl in Hp.
  rewrite _siftdown_perm, Hp by (by eapply lookup_lt_Some). by rewrite list_insert_id.
Qed.

Lemma heappush_perm h x : heappush lt h x ≡ₚ x :: h.
Proof. unfold heappush. rewrite _siftdown_perm. by rewrite Permutation_app_comm. Qed.

Lemma heappop_perm h x h' : heappop lt h = Some (x, h') → h ≡ₚ x :: h'.
Proof.
  unfold heappop. destruct (last h) as [lastelt|] eqn:Hlast; [|done].
  apply last_Some in Hlast as [heap ->]. rewrite removelast_last.
  destruct heap as [|returnitem heap]; intros [= <- <-]; [done|].
  rewrite _siftup_perm. simpl. by rewrite (Permutation_app_comm heap [lastelt]).
Qed.


Lemma heapify_perm h : heapify lt h ≡ₚ h.
Proof.
  unfold heapify. generalize (rev (seq 0 (length h / 2))). intros l. revert h.
  induction l as [|i l IH]; intros h; simpl; [done|].
  rewrite IH. apply _siftup_perm.
Qed.

End Contents.

End HeapqContents.

(** ** The queue manager: acceptance, round trips, index and heap *)
Module QueueLaws.
Import Constants Dto Queue Scenario HeapqContents PyDict.

Lemma QueueItem_eq_spec (a b : QueueItem) :
  QueueItem_eq a b = true ↔ priority_value a = priority_value b ∧ timestamp a = timestamp b.
Proof. unfold QueueItem_eq. rewrite andb_true_iff, !Z.eqb_eq. done. Qed.

Lemma list_remove_Some (l l' : list QueueItem) (item : QueueItem) :
  list_remove l item = Some l' →
  ∃ x, QueueItem_eq x item = true ∧ l ≡ₚ x :: l'.
Proof.
  revert l'. induction l as [|a l IH]; intros l'; simpl; [done|].
  destruct (QueueItem_eq a item) eqn:E.
  - intros [= <-]. by exists a.
  - destruct (list_remove l item) as [r|]; [|done]. simpl. intros [= <-].
    destruct (IH r eq_refl) as (x & Hx & Hp). exists x. split; [done|].
    rewrite Hp. apply perm_swap.
Qed.

Lemma list_remove_None (l : list QueueItem) (item : QueueItem) :
  list_remove l item = None → ∀ x, x ∈ l → QueueItem_eq x item = false.
Proof.
  induction l as [|a l IH]; simpl; intros Hr x Hx; [by apply elem_of_nil in Hx|].
  destruct (QueueItem_eq a item) eqn:E; [done|].
  destruct (list_remove l item) as [r|] eqn:Er; [done|].
  apply elem_of_cons in Hx as [->|Hx]; [done | by apply IH].
Qed.

Lemma contains_spec (q : QueueManager) (k : UUID) :
  contains q k = true ↔ is_Some (_build_ids q !! k).
Proof. unfold contains. by rewrite bool_decide_eq_true. Qed.

Lemma contains_false (q : QueueManager) (k : UUID) :
  contains q k = false ↔ _build_ids q !! k = None.
Proof. unfold contains. rewrite bool_decide_eq_false. by rewrite eq_None_not_Some. Qed.

Lemma enqueue_rejects (q : QueueManager) (r : BuildRequest) (now : datetime) :
  _max_queue_size q ≤ get_queue_depth q ∨ contains q (id r) = true →
  enqueue q r now = (q, false).
Proof.
  unfold enqueue, get_queue_depth. rewrite contains_spec. intros [Hfull|Hin].
  - by destruct (Z.leb_spec (_max_queue_size q) (Z.of_nat (length (_queue q)))); [|lia].
  - destruct (_ <=? _); [done|]. by rewrite bool_decide_eq_true_2.
Qed.

Lemma enqueue_accepts (q : QueueManager) (r : BuildRequest) (now : datetime) :
  get_queue_depth q < _max_queue_size q → contains q (id r) = false →
  enqueue q r now
  = ({| _queue := Heapq.heappush QueueItem_lt (_queue q) (from_request r now);
        _max_queue_size := _max_queue_size q;
        _build_ids := <[id r := from_request r now]> (_build_ids q);
        _queue_not_empty := true |}, true).
Proof.
  unfold enqueue, get_queue_depth. rewrite contains_false. intros Hroom Hout.
  destruct (Z.leb_spec (_max_queue_size q) (Z.of_nat (length (_queue q)))); [lia|].
  rewrite bool_decide_eq_false_2; [done|]. rewrite Hout. by intros [? ?].
Qed.

(** X1. [enqueue] accepts a request exactly when the queue is below its
    bound and the id is not queued.  A rejected call leaves the queue manager
    as it was; an accepted one adds the fresh item of the request to the
    heap, records the id, sets the event and touches no other id. *)
Theorem enqueue_accepts_exactly (q : QueueManager) (r : BuildRequest) (now : datetime) :
  let q' := fst (enqueue q r now) in
  let accepted := snd (enqueue q r now) in
  (accepted = true ↔ get_queue_depth q < _max_queue_size q ∧ contains q (id r) = false) ∧
  (accepted = false → q' = q) ∧
  (accepted = true →
     _queue q' ≡ₚ from_request r now :: _queue q ∧
     get_queue_depth q' = get_queue_depth q + 1 ∧
     _build_ids q' !! id r = Some (from_request r now) ∧
     _queue_not_empty q' = true ∧
     ∀ k, k ≠ id r → _build_ids q' !! k = _build_ids q !! k).
Proof.
  cbv zeta. unfold enqueue, get_queue_depth. rewrite contains_false.
  destruct (Z.leb_spec (_max_queue_size q) (Z.of_nat (length (_queue q)))) as [Hfull|Hroom].
  { simpl. split; [|done]. split; [done | lia]. }
  destruct (bool_decide_reflect (is_Some (_build_ids q !! id r))) as [Hin|Hout].
  { simpl. split; [|done]. split; [done|]. intros [_ Hn]. rewrite Hn in Hin. by destruct Hin. }
  simpl. split; [|split; [done|]].
  - split; [intros _ | reflexivity]. split; [lia|]. by apply eq_None_not_Some.
  - intros _. split; [apply heappush_perm|]. split.
    + rewrite (Permutation_length (heappush_perm QueueItem_lt (_queue q) (from_request r now))).
      simpl. lia.
    + split; [by rewrite lookup_insert_eq|]. split; [done|].
      intros k Hk. by rewrite lookup_insert_ne.
Qed.

(** *** The index and the heap *)

Lemma in_step_member (q : QueueManager) (item : QueueItem) :
  in_step q → (item ∈ _queue q ↔ _build_ids q !! id (request item) = Some item).
Proof.
  intros [Hperm Hkey]. rewrite Hperm. rewrite list_elem_of_fmap. split.
  - intros ([k x] & -> & Hin). apply elem_of_map_to_list in Hin. simpl.
    by rewrite (Hkey k x Hin).
  - intros Hl. exists (id (request item), item). split; [done|].
    by apply elem_of_map_to_list.
Qed.

Lemma in_step_push (queue : list QueueItem) (ids : gmap UUID QueueItem) (m : Z) (ev : bool)
    (item : QueueItem) :
  in_step {| _queue := queue; _max_queue_size := m; _build_ids := ids; _queue_not_empty := ev |} →
  ids !! id (request item) = None →
  ∀ ev',
  in_step {| _queue := Heapq.heappush QueueItem_lt queue item; _max_queue_size := m;
             _build_ids := <[id (request item) := item]> ids; _queue_not_empty := ev' |}.
Proof.
  intros [Hperm Hkey] Hnone ev'. simpl in *. split; simpl.
  - rewrite heappush_perm, map_to_list_insert by done. simpl. by rewrite Hperm.
  - intros k x. rewrite lookup_insert_Some. intros [[<- <-]|[_ Hx]]; [done | by apply Hkey].
Qed.

Lemma in_step_drop (queue queue' : list QueueItem) (ids : gmap UUID QueueItem) (m : Z)
    (ev : bool) (item : QueueItem) :
  in_step {| _queue := queue; _max_queue_size := m; _build_ids := ids; _queue_not_empty := ev |} →
  queue ≡ₚ item :: queue' →
  ∀ ev',
  in_step {| _queue := queue'; _max_queue_size := m;
             _build_ids := delete (id (request item)) ids; _queue_not_empty := ev' |}.
Proof.
  intros Hin Hq ev'.
  assert (Hl : ids !! id (request item) = Some item).
  { apply (in_step_member _ item Hin). simpl. rewrite Hq. apply elem_of_cons. by left. }
  destruct Hin as [Hperm Hkey]. simpl in *. split; simpl.
  - apply (Permutation_cons_inv (a := item)).
    rewrite <- Hq, Hperm.
    rewrite <- (map_to_list_delete ids _ _ Hl). done.
  - intros k x. rewrite lookup_delete_Some. intros [_ Hx]. by apply Hkey.
Qed.

Lemma in_step_dequeue_take (q : QueueManager) : in_step q → in_step (fst (dequeue_take q)).
Proof.
  intros Hin. unfold dequeue_take.
  destruct (Heapq.heappop QueueItem_lt (_queue q)) as [[item queue']|] eqn:Hpop; [|done].
  simpl. destruct q as [queue m ids ev]. simpl in *.
  eapply in_step_drop; [exact Hin|]. by apply (heappop_perm QueueItem_lt).
Qed.

Lemma in_step_with_event (q : QueueManager) (flag : bool) : in_step q → in_step (with_event q flag).
Proof. by intros [? ?]. Qed.

Lemma in_step_dequeue (q : QueueManager) (timeout : option float) :
  in_step q → in_step (fst (dequeue q timeout)).
Proof.
  intros Hin. unfold dequeue.
  assert (Hb : in_step (dequeue_begin q)).
  { unfold dequeue_begin. destruct (is_empty q); [by apply in_step_with_event | done]. }
  pose proof (in_step_dequeue_take _ Hb) as Ht.
  destruct (timeout_given timeout).
  - destruct (_queue_not_empty (dequeue_begin q)); [|done].
    by destruct (dequeue_take (dequeue_begin q)).
  - destruct (is_empty (dequeue_begin q)); [done|].
    by destruct (dequeue_take (dequeue_begin q)).
Qed.

Lemma in_step_empty (m : Z) (ev : bool) :
  in_step {| _queue := []; _max_queue_size := m; _build_ids := ∅; _queue_not_empty := ev |}.
Proof.
  split; cbn [_queue _build_ids].
  - by rewrite map_to_list_empty.
  - intros k item. by rewrite lookup_empty.
Qed.

Lemma NoDup_map_eq {A B} (f : A → B) (l : list A) (x y : A) :
  NoDup (map f l) → x ∈ l → y ∈ l → f x = f y → x = y.
Proof.
  induction l as [|a l IH]; simpl; intros Hnd Hx Hy Hf; [by apply elem_of_nil in Hx|].
  apply NoDup_cons in Hnd as [Hna Hnd].
  apply elem_of_cons in Hx as [->|Hx]; apply elem_of_cons in Hy as [->|Hy]; try done.
  - exfalso. apply Hna. rewrite Hf. by apply (list_elem_of_fmap_2 f).
  - exfalso. apply Hna. rewrite <- Hf. by apply (list_elem_of_fmap_2 f).
  - by apply IH.
Qed.

(** Under distinct timestamps [list.remove(item)] removes [item] itself. *)
Lemma list_remove_own (q : QueueManager) (t : datetime) (k : UUID) (item : QueueItem) :
  in_step q → stamped t q → _build_ids q !! k = Some item →
  ∃ queue', list_remove (_queue q) item = Some queue' ∧ _queue q ≡ₚ item :: queue' ∧
            id (request item) = k.
Proof.
  intros Hin [Hnd _] Hl.
  assert (Hk : id (request item) = k) by (by apply (proj2 Hin)).
  assert (Hmem : item ∈ _queue q) by (apply in_step_member; [done | by rewrite Hk]).
  destruct (list_remove (_queue q) item) as [queue'|] eqn:Hr.
  - exists queue'. split; [done|]. split; [|done].
    destruct (list_remove_Some _ _ _ Hr) as (x & Hx & Hp).
    assert (x = item) as ->; [|done].
    apply (NoDup_map_eq timestamp (_queue q)); try done.
    + rewrite Hp. apply elem_of_cons. by left.
    + by apply QueueItem_eq_spec in Hx as [_ ?].
  - pose proof (list_remove_None _ _ Hr item Hmem) as Hne.
    assert (QueueItem_eq item item = true) by (by apply QueueItem_eq_spec).
    congruence.
Qed.

Lemma stamped_sub (t : datetime) (l l' : list QueueItem) (x : QueueItem) :
  l ≡ₚ x :: l' →
  NoDup (map timestamp l) ∧ Forall (fun item => timestamp item ≤ t) l →
  NoDup (map timestamp l') ∧ Forall (fun item => timestamp item ≤ t) l'.
Proof.
  intros Hp [Hnd Hall]. rewrite Hp in Hnd, Hall. simpl in Hnd.
  apply NoDup_cons in Hnd as [_ ?]. by apply Forall_cons in Hall as [_ ?].
Qed.

Lemma stamped_add (t now : datetime) (l l' : list QueueItem) (x : QueueItem) :
  l' ≡ₚ x :: l → timestamp x = now → t < now →
  NoDup (map timestamp l) ∧ Forall (fun item => timestamp item ≤ t) l →
  NoDup (map timestamp l') ∧ Forall (fun item => timestamp item ≤ now) l'.
Proof.
  intros Hp Hx Hlt [Hnd Hall]. rewrite Hp. simpl. split.
  - apply NoDup_cons. split; [|done].
    rewrite list_elem_of_fmap. intros (y & Hy & Hin).
    rewrite Forall_forall in Hall. specialize (Hall y Hin). lia.
  - apply Forall_cons. split; [lia|].
    eapply Forall_impl; [exact Hall|]. simpl. intros; lia.
Qed.

Lemma stamped_later (t now : datetime) (q : QueueManager) :
  t < now → stamped t q → stamped now q.
Proof.
  intros Hlt [Hnd Hall]. split; [done|].
  eapply Forall_impl; [exact Hall|]. simpl. intros; lia.
Qed.

(** The invariant of the queues built under a ticking clock. *)
Lemma ticking_invariant (t : datetime) (q : QueueManager) :
  ticking t q → in_step q ∧ stamped t q.
Proof.
  induction 1 as [n t | q r t now _ [Hin Hst] Hlt | q timeout t _ [Hin Hst]
                  | q b t _ [Hin Hst] | q i t _ [Hin Hst] | q i p t now _ [Hin Hst] Hlt
                  | q t _ [Hin Hst]].
  - split; [apply in_step_empty | split; constructor].
  - unfold enqueue.
    destruct (_ <=? _); [by split; [|apply (stamped_later t)]|].
    destruct (bool_decide_reflect (is_Some (_build_ids q !! id r))) as [Hs|Hn];
      [by split; [|apply (stamped_later t)]|].
    simpl. split.
    + destruct q as [queue m ids ev]. simpl in *.
      apply (in_step_push queue ids m ev (from_request r now)); [done|].
      by apply eq_None_not_Some.
    + apply (stamped_add t now (_queue q) _ (from_request r now)); try done.
      apply heappush_perm.
  - split; [by apply in_step_dequeue|].
    unfold dequeue.
    assert (Hb : stamped t (dequeue_begin q)).
    { unfold dequeue_begin. by destruct (is_empty q). }
    assert (Ht : stamped t (fst (dequeue_take (dequeue_begin q)))).
    { unfold dequeue_take.
      destruct (Heapq.heappop QueueItem_lt (_queue (dequeue_begin q))) as [[item queue']|] eqn:Hpop;
        [|done].
      simpl. apply (stamped_sub t (_queue (dequeue_begin q)) queue' item); [|done].
      by apply (heappop_perm QueueItem_lt). }
    destruct (timeout_given timeout).
    + destruct (_queue_not_empty (dequeue_begin q)); [|done].
      by destruct (dequeue_take (dequeue_begin q)).
    + destruct (is_empty (dequeue_begin q)); [done|].
      by destruct (dequeue_take (dequeue_begin q)).
  - unfold dequeue_resume. destruct b; [|done].
    split; [by apply in_step_dequeue_take|].
    unfold dequeue_take.
    destruct (Heapq.heappop QueueItem_lt (_queue q)) as [[item queue']|] eqn:Hpop; [|done].
    simpl. apply (stamped_sub t (_queue q) queue' item); [|done].
    by apply (heappop_perm QueueItem_lt).
  - unfold remove. destruct (_build_ids q !! i) as [item|] eqn:Hl; [|done].
    destruct (list_remove_own q t i item Hin Hst Hl) as (queue' & -> & Hp & Hk).
    simpl. split.
    + destruct q as [queue m ids ev]. simpl in *. rewrite <- Hk.
      destruct (in_step_drop queue queue' ids m ev item Hin Hp ev) as [Hperm Hkey].
      split; simpl in *; [|done]. by rewrite heapify_perm.
    + destruct (stamped_sub t (_queue q) queue' item Hp Hst) as [Hnd Hall].
      split; simpl; by rewrite heapify_perm.
  - unfold reprioritize. destruct (_build_ids q !! i) as [item|] eqn:Hl;
      [|by split; [|apply (stamped_later t)]].
    destruct (list_remove_own q t i item Hin Hst Hl) as (queue' & -> & Hp & Hk).
    simpl. destruct q as [queue m ids ev]. simpl in *.
    pose proof (in_step_drop queue queue' ids m ev item Hin Hp ev) as Hdrop.
    rewrite Hk in Hdrop. split.
    + set (new_item := from_request (set_priority (request item) p) now).
      assert (Hid : id (request new_item) = i) by done.
      rewrite <- Hid at 1.
      apply (in_step_push queue' (delete i ids) m ev new_item); [done|].
      rewrite Hid. by rewrite lookup_delete_eq.
    + apply (stamped_add t now queue' _ (from_request (set_priority (request item) p) now));
        try done; [apply heappush_perm|].
      by apply (stamped_sub t queue queue' item).
  - split; [apply in_step_empty | split; constructor].
Qed.


Lemma ticking_three_queued : ticking 3 three_queued.
Proof.
  unfold three_queued.
  apply (ticking_enqueue _ job_C 2 3); [|lia].
  apply (ticking_enqueue _ job_B 1 2); [|lia].
  apply (ticking_enqueue _ job_A 0 1); [|lia].
  apply ticking_new.
Qed.

(** X2. Under a clock that advances between the readings taken for queue
    items, every queue that [enqueue], [dequeue], [remove], [reprioritize]
    and [clear] build from an empty one keeps the heap and the index in
    step: an item is in the heap exactly when the index holds it under the
    id of its request, no id is queued twice, the depth is the size of the
    index, and [contains] tells whether a request with the id is queued. *)
Theorem index_matches_heap (t : datetime) (q : QueueManager) :
  ticking t q →
  (∀ item, item ∈ _queue q ↔ _build_ids q !! id (request item) = Some item) ∧
  NoDup (map (fun item => id (request item)) (_queue q)) ∧
  get_queue_depth q = Z.of_nat (size (_build_ids q)) ∧
  ∀ k, contains q k = true ↔ ∃ item, item ∈ _queue q ∧ id (request item) = k.
Proof.
  intros Ht. destruct (ticking_invariant t q Ht) as [Hin _].
  pose proof (in_step_member q) as Hmem.
  destruct Hin as [Hperm Hkey].
  split; [intros item; apply Hmem; by split|]. split; [|split].
  - rewrite Hperm. rewrite <- list_fmap_compose.
    rewrite (list_fmap_ext _ fst (map_to_list (_build_ids q)) );
      [apply NoDup_fst_map_to_list|].
    intros i [k x] Hl. simpl. apply Hkey.
    apply elem_of_map_to_list. by eapply list_elem_of_lookup_2.
  - unfold get_queue_depth. rewrite Hperm, length_fmap, length_map_to_list. done.
  - intros k. rewrite contains_spec. split.
    + intros [item Hl]. exists item. split; [|by apply Hkey].
      apply Hmem; [by split|]. by rewrite (Hkey k item Hl).
    + intros (item & Hi & <-). exists item. apply Hmem; [by split | done].
Qed.

Lemma index_matches_heap_witness :
  (∀ item, item ∈ _queue three_queued
           ↔ _build_ids three_queued !! id (request item) = Some item) ∧
  NoDup (map (fun item => id (request item)) (_queue three_queued)) ∧
  get_queue_depth three_queued = Z.of_nat (size (_build_ids three_queued)) ∧
  ∀ k, contains three_queued k = true
       ↔ ∃ item, item ∈ _queue three_queued ∧ id (request item) = k.
Proof. apply (index_matches_heap 3 three_queued). apply ticking_three_queued. Defined.

(** X3. Under such a clock, [remove] of a queued id succeeds and takes
    exactly the item of that build out of the heap and the id out of the
    index, and it leaves a heap; [remove] of an id that is not queued
    changes nothing. *)
Theorem remove_takes_out_the_build (t : datetime) (q : QueueManager) (i : UUID) :
  ticking t q →
  match _build_ids q !! i with
  | Some item =>
      snd (remove q i) = true ∧
      _queue q ≡ₚ item :: _queue (fst (remove q i)) ∧
      _build_ids (fst (remove q i)) = delete i (_build_ids q) ∧
      Heapq.heap_ordered QueueItem_lt (_queue (fst (remove q i)))
  | None => remove q i = (q, false)
  end.
Proof.
  intros Ht. destruct (ticking_invariant t q Ht) as [Hin Hst].
  unfold remove. destruct (_build_ids q !! i) as [item|] eqn:Hl; [|done].
  destruct (list_remove_own q t i item Hin Hst Hl) as (queue' & -> & Hp & Hk).
  simpl. split; [done|]. split; [by rewrite heapify_perm|]. split; [done|].
  apply (HeapqFacts.heapify_spec QueueItem_lt QueueFacts.QueueItem_lt_irrefl
           QueueFacts.QueueItem_lt_asym QueueFacts.QueueItem_le_trans).
Qed.

Lemma remove_takes_out_the_build_witness :
  match _build_ids three_queued !! 2%N with
  | Some item =>
      snd (remove three_queued 2%N) = true ∧
      _queue three_queued ≡ₚ item :: _queue (fst (remove three_queued 2%N)) ∧
      _build_ids (fst (remove three_queued 2%N)) = delete 2%N (_build_ids three_queued) ∧
      Heapq.heap_ordered QueueItem_lt (_queue (fst (remove three_queued 2%N)))
  | None => remove three_queued 2%N = (three_queued, false)
  end.
Proof. apply (remove_takes_out_the_build 3 three_queued 2%N). apply ticking_three_queued. Defined.

(** X4. Under such a clock, [reprioritize] of a queued id succeeds and
    replaces the item of that build, in the heap and in the index, by one of
    the new class that carries the clock reading of the call; the other
    items and ids stay. *)
Theorem reprioritize_replaces_the_item (t now : datetime) (q : QueueManager) (i : UUID)
    (p : Priority) (item : QueueItem) :
  ticking t q → _build_ids q !! i = Some item →
  let new_item := from_request (set_priority (request item) p) now in
  let q' := fst (reprioritize q i p now) in
  snd (reprioritize q i p now) = true ∧
  (∃ rest, _queue q ≡ₚ item :: rest ∧ _queue q' ≡ₚ new_item :: rest) ∧
  _build_ids q' = <[i := new_item]> (_build_ids q) ∧
  priority_value new_item = _get_priority_value p ∧ timestamp new_item = now ∧
  id (request new_item) = i.
Proof.
  intros Ht Hl. cbv zeta. destruct (ticking_invariant t q Ht) as [Hin Hst].
  unfold reprioritize. rewrite Hl.
  destruct (list_remove_own q t i item Hin Hst Hl) as (queue' & -> & Hp & Hk).
  simpl. split; [done|]. split; [|split; [by rewrite insert_delete_eq | done]].
  exists queue'. split; [done | apply heappush_perm].
Qed.

Lemma reprioritize_replaces_the_item_witness :
  let item := from_request job_A 1 in
  let new_item := from_request (set_priority (request item) LOW) 4 in
  let q' := fst (reprioritize three_queued 1%N LOW 4) in
  snd (reprioritize three_queued 1%N LOW 4) = true ∧
  (∃ rest, _queue three_queued ≡ₚ item :: rest ∧ _queue q' ≡ₚ new_item :: rest) ∧
  _build_ids q' = <[1%N := new_item]> (_build_ids three_queued) ∧
  priority_value new_item = _get_priority_value LOW ∧ timestamp new_item = 4 ∧
  id (request new_item) = 1%N.
Proof.
  apply (reprioritize_replaces_the_item 3 4 three_queued 1%N LOW (from_request job_A 1)).
  - apply ticking_three_queued.
  - reflexivity.
Defined.


(** *** Equal keys *)

(** X5. [remove] looks its item up by id but takes it out of the list with
    [list.remove], which compares class and timestamp only.  When two
    requests of one class were enqueued at the same clock reading, [remove]
    of the second reports success and takes the item of the first out of
    the heap: the removed build stays queued and is what [dequeue] returns
    next, while the index still lists the first, whose item is gone. *)
Theorem remove_takes_equal_item (n : Z) (r1 r2 : BuildRequest) (now : datetime) :
  2 ≤ n → id r1 ≠ id r2 → priority r1 = priority r2 →
  let q := fst (enqueue (fst (enqueue (QueueManager_new n) r1 now)) r2 now) in
  let q' := fst (remove q (id r2)) in
  _queue q = [from_request r1 now; from_request r2 now] ∧
  snd (remove q (id r2)) = true ∧
  _queue q' = [from_request r2 now] ∧
  contains q' (id r2) = false ∧ contains q' (id r1) = true ∧
  snd (dequeue q' None) = Returned (Some r2).
Proof.
  intros Hn Hid Hp. cbv zeta.
  assert (Hlt : QueueItem_lt (from_request r2 now) (from_request r1 now) = false).
  { unfold QueueItem_lt, from_request. simpl. rewrite Hp, !Z.ltb_irrefl. by rewrite andb_false_r. }
  assert (Heq : QueueItem_eq (from_request r1 now) (from_request r2 now) = true).
  { apply QueueItem_eq_spec. simpl. by rewrite Hp. }
  assert (Hq1 : enqueue (QueueManager_new n) r1 now
                = ({| _queue := [from_request r1 now]; _max_queue_size := n;
                      _build_ids := {[ id r1 := from_request r1 now ]};
                      _queue_not_empty := true |}, true)).
  { unfold enqueue. simpl length. simpl _max_queue_size. simpl _build_ids.
    destruct (Z.leb_spec n (Z.of_nat 0)) as [|_]; [lia|].
    rewrite bool_decide_eq_false_2 by (rewrite lookup_empty; by intros [? ?]).
    reflexivity. }
  rewrite Hq1. simpl fst.
  assert (Hq2 : enqueue {| _queue := [from_request r1 now]; _max_queue_size := n;
                           _build_ids := {[ id r1 := from_request r1 now ]};
                           _queue_not_empty := true |} r2 now
                = ({| _queue := [from_request r1 now; from_request r2 now];
                      _max_queue_size := n;
                      _build_ids := <[id r2 := from_request r2 now]>
                                      {[ id r1 := from_request r1 now ]};
                      _queue_not_empty := true |}, true)).
  { unfold enqueue. simpl length. simpl _max_queue_size. simpl _build_ids.
    destruct (Z.leb_spec n (Z.of_nat 1)) as [|_]; [lia|].
    rewrite bool_decide_eq_false_2
      by (rewrite lookup_singleton_ne by done; by intros [? ?]).
    unfold Heapq.heappush, Heapq._siftdown. simpl.
    change (Heapq.parent 1) with 0%nat. simpl. by rewrite Hlt. }
  rewrite Hq2. simpl fst. split; [done|].
  unfold remove. simpl _build_ids. rewrite lookup_insert_eq.
  simpl _queue. simpl list_remove. rewrite Heq. simpl.
  split; [done|]. split; [done|].
  unfold contains. simpl. split; [|split; [|done]].
  - apply bool_decide_eq_false_2. rewrite lookup_delete_eq. by intros [? ?].
  - apply bool_decide_eq_true_2. rewrite delete_insert_eq.
    rewrite delete_singleton_ne by done. rewrite lookup_singleton_eq. by eexists.
Qed.

Lemma remove_takes_equal_item_witness :
  let q := fst (enqueue (fst (enqueue (QueueManager_new 1000) job_R2 10)) job_R3 10) in
  let q' := fst (remove q (id job_R3)) in
  _queue q = [from_request job_R2 10; from_request job_R3 10] ∧
  snd (remove q (id job_R3)) = true ∧
  _queue q' = [from_request job_R3 10] ∧
  contains q' (id job_R3) = false ∧ contains q' (id job_R2) = true ∧
  snd (dequeue q' None) = Returned (Some job_R3).
Proof.
  apply (remove_takes_equal_item 1000 job_R2 job_R3 10); [lia | by vm_compute | reflexivity].
Defined.


(** *** Views of the queue *)



Lemma built_three_queued : built three_queued.
Proof. unfold three_queued. repeat apply built_enqueue. apply built_new. Qed.


Lemma insort_perm (x : QueueItem) (l : list QueueItem) : insort x l ≡ₚ x :: l.
Proof.
  induction l as [|y l IH]; simpl; [done|].
  destruct (QueueItem_lt x y); [done|]. rewrite IH. apply perm_swap.
Qed.

Lemma insort_sorted (x : QueueItem) (l : list QueueItem) :
  Sorted item_le l → Sorted item_le (insort x l).
Proof.
  induction 1 as [|y l Hs IH Hhd]; simpl; [by repeat constructor|].
  destruct (QueueItem_lt x y) eqn:Hlt.
  - constructor; [by constructor|]. constructor.
    apply QueueFacts.QueueItem_lt_false. by apply QueueFacts.QueueItem_lt_asym.
  - constructor; [done|].
    destruct l as [|z l]; simpl.
    + constructor. by apply QueueFacts.QueueItem_lt_false.
    + destruct (QueueItem_lt x z); constructor.
      * by apply QueueFacts.QueueItem_lt_false.
      * by inversion Hhd.
Qed.

Lemma sorted_fold (l acc : list QueueItem) :
  Sorted item_le acc →
  Sorted item_le (fold_left (fun acc x => insort x acc) l acc) ∧
  fold_left (fun acc x => insort x acc) l acc ≡ₚ acc ++ l.
Proof.
  revert acc. induction l as [|x l IH]; intros acc Hs; simpl.
  - by rewrite app_nil_r.
  - destruct (IH (insort x acc) (insort_sorted x acc Hs)) as [H1 H2].
    split; [done|]. rewrite H2, insort_perm. simpl. apply Permutation_middle.
Qed.

Lemma item_le_trans (a b c : QueueItem) : item_le a b → item_le b c → item_le a c.
Proof. unfold item_le. lia. Qed.

(** Stability: the items of one key stay in their order, and the new item
    comes behind them. *)
Lemma insort_stable (x : QueueItem) (l : list QueueItem) (k : QueueItem) :
  Sorted item_le l →
  filter (fun y => QueueItem_eq y k = true) (insort x l)
  = filter (fun y => QueueItem_eq y k = true) l
    ++ filter (fun y => QueueItem_eq y k = true) [x].
Proof.
  intros Hs. apply Sorted_StronglySorted in Hs; [|exact item_le_trans].
  induction Hs as [|y l Hs IH Hall]; [done|]. simpl insort.
  destruct (QueueItem_lt x y) eqn:Hlt; [|by rewrite !(filter_cons _ y), IH; destruct (decide _)].
  rewrite (filter_cons _ x), (filter_cons _ x [] ), filter_nil.
  destruct (decide (QueueItem_eq x k = true)) as [E|E]; [|by rewrite app_nil_r].
  assert (Hnone : filter (fun z => QueueItem_eq z k = true) (y :: l) = []); [|by rewrite Hnone].
  apply QueueFacts.QueueItem_lt_spec in Hlt.
  apply QueueItem_eq_spec in E.
  assert (Hy : ∀ z, z ∈ y :: l → QueueItem_eq z k ≠ true).
  { intros z Hz Ez. apply QueueItem_eq_spec in Ez.
    assert (item_le y z).
    { apply elem_of_cons in Hz as [->|Hz]; [unfold item_le; lia|].
      rewrite Forall_forall in Hall. by apply Hall. }
    unfold item_le in *. lia. }
  clear -Hy. induction (y :: l) as [|z r IHr]; [done|].
  rewrite filter_cons, decide_False by (apply Hy; by left).
  apply IHr. intros w Hw. apply Hy. by right.
Qed.

Lemma sorted_stable_fold (l acc : list QueueItem) (k : QueueItem) :
  Sorted item_le acc →
  filter (fun y => QueueItem_eq y k = true) (fold_left (fun acc x => insort x acc) l acc)
  = filter (fun y => QueueItem_eq y k = true) (acc ++ l).
Proof.
  revert acc. induction l as [|x l IH]; intros acc Hs; simpl; [by rewrite app_nil_r|].
  rewrite IH by (by apply insort_sorted).
  rewrite !filter_app, insort_stable by done.
  rewrite <- app_assoc. f_equal. by rewrite <- filter_app.
Qed.

(** X7. [get_all_items] lists the queued requests in dispatch order, on any
    queue, also one whose heap order [reprioritize] has broken: the listed
    requests are those of the queued items, each once, sorted by class and
    then by enqueue time, and items equal in both keep the order they have
    in the heap list. *)
Theorem get_all_items_in_dispatch_order (q : QueueManager) :
  ∃ items,
    get_all_items q = map request items ∧
    items ≡ₚ _queue q ∧
    Sorted item_le items ∧
    ∀ k, filter (fun y => QueueItem_eq y k = true) items
         = filter (fun y => QueueItem_eq y k = true) (_queue q).
Proof.
  exists (sorted (_queue q)). split; [done|]. unfold sorted.
  destruct (sorted_fold (_queue q) [] ltac:(constructor)) as [Hs Hp].
  split; [done|]. split; [done|].
  intros k. by rewrite sorted_stable_fold by constructor.
Qed.

Lemma position_from_spec (i : UUID) (l : list QueueItem) (base p : Z) :
  position_from i l base = Some p →
  base < p ≤ base + Z.of_nat (length l) ∧
  (∃ item, l !! Z.to_nat (p - base - 1) = Some item ∧ id (request item) = i) ∧
  ∀ j item, (j < Z.to_nat (p - base - 1))%nat → l !! j = Some item → id (request item) ≠ i.
Proof.
  revert base. induction l as [|x l IH]; intros base; simpl; [done|].
  destruct (bool_decide_reflect (id (request x) = i)) as [Hx|Hx].
  - intros [= <-]. split; [lia|]. replace (base + 1 - base - 1) with 0 by lia. simpl.
    split; [by exists x|]. intros; lia.
  - intros Hp. destruct (IH _ Hp) as (Hr & (item & Hl & Hi) & Hfirst).
    split; [lia|].
    replace (Z.to_nat (p - base - 1)) with (S (Z.to_nat (p - (base + 1) - 1))) by lia.
    split; [by exists item|].
    intros [|j] y Hj Hy; simpl in Hy.
    + by injection Hy as <-.
    + apply (Hfirst j y); [lia | done].
Qed.

Lemma position_from_None (i : UUID) (l : list QueueItem) (base : Z) :
  position_from i l base = None ↔ ∀ item, item ∈ l → id (request item) ≠ i.
Proof.
  revert base. induction l as [|x l IH]; intros base; simpl.
  - split; [|done]. intros _ item Hi. by apply elem_of_nil in Hi.
  - destruct (bool_decide_reflect (id (request x) = i)) as [Hx|Hx].
    + split; [done|]. intros H. exfalso. apply (H x); [by left | done].
    + rewrite IH. split.
      * intros H item Hi. apply elem_of_cons in Hi as [->|Hi]; [done | by apply H].
      * intros H item Hi. apply H. by right.
Qed.

(** X8. [get_position] is the 1-based rank in the listing of
    [get_all_items]: a position it returns lies between 1 and the depth and
    is the first place of the listing with a request of that id; it returns
    [None] exactly when the id is not in the index or no queued request
    carries it; and the estimated wait is that position times the average
    build time. *)
Theorem get_position_is_rank (q : QueueManager) (i : UUID) (avg : float) :
  (∀ p, get_position q i = Some p →
        1 ≤ p ≤ get_queue_depth q ∧
        (∃ r, get_all_items q !! Z.to_nat (p - 1) = Some r ∧ id r = i) ∧
        ∀ j r, (j < Z.to_nat (p - 1))%nat → get_all_items q !! j = Some r → id r ≠ i) ∧
  (get_position q i = None ↔
     contains q i = false ∨ ∀ item, item ∈ _queue q → id (request item) ≠ i) ∧
  get_estimated_wait_time q i avg
  = option_map (fun p => PrimFloat.mul (Py.float_of_Z p) avg) (get_position q i).
Proof.
  assert (Hperm : sorted (_queue q) ≡ₚ _queue q).
  { unfold sorted. by destruct (sorted_fold (_queue q) [] ltac:(constructor)) as [_ ?]. }
  split; [|split].
  - intros p. unfold get_position, get_all_items, get_queue_depth.
    destruct (bool_decide _); [|done]. intros Hp.
    destruct (position_from_spec _ _ _ _ Hp) as (Hr & (item & Hl & Hi) & Hfirst).
    rewrite (Permutation_length Hperm) in Hr.
    replace (p - 0 - 1) with (p - 1) in * by lia.
    split; [lia|]. split.
    + exists (request item). by rewrite list_lookup_fmap, Hl.
    + intros j r Hj. rewrite list_lookup_fmap.
      destruct (sorted (_queue q) !! j) as [y|] eqn:Hy; [|done].
      intros [= <-]. by apply (Hfirst j y).
  - unfold get_position, contains.
    destruct (bool_decide (is_Some (_build_ids q !! i))).
    + rewrite position_from_None. split.
      * intros H. right. intros item Hi. apply H. by rewrite Hperm.
      * intros [?|H]; [done|]. intros item Hi. apply H. by rewrite <- Hperm.
    + split; [by left | done].
  - unfold get_estimated_wait_time. by destruct (get_position q i).
Qed.

(** X9. Under a ticking clock, on a queue whose list is a heap, the build
    at position 1 is the one that [dequeue()] returns next. *)
Theorem first_position_is_next (t : datetime) (q q' : QueueManager) (r : BuildRequest) :
  ticking t q → Heapq.heap_ordered QueueItem_lt (_queue q) →
  dequeue q None = (q', Returned (Some r)) →
  get_position q (id r) = Some 1.
Proof.
  intros Ht Hord Hdq. destruct (ticking_invariant t q Ht) as [Hin [Hnd _]].
  destruct (QueueFacts.dequeue_returns_minimum_on_heap q q' r Hord Hdq)
    as (item & Hitem & <- & Hmin).
  unfold get_position.
  rewrite bool_decide_eq_true_2
    by (exists item; by apply (in_step_member q item Hin)).
  destruct (sorted_fold (_queue q) [] ltac:(constructor)) as [Hs Hp].
  fold (sorted (_queue q)) in Hs, Hp. simpl in Hp.
  assert (Hitem' : item ∈ sorted (_queue q)) by (by rewrite Hp).
  assert (Hsub : ∀ x, x ∈ sorted (_queue q) → x ∈ _queue q).
  { intros x Hx. by rewrite <- Hp. }
  clear Hp. destruct (sorted (_queue q)) as [|h l] eqn:Hsq.
  { by apply elem_of_nil in Hitem'. }
  assert (Hh : h ∈ _queue q) by (apply Hsub; by left).
  assert (Hle : item_le h item).
  { apply Sorted_StronglySorted in Hs; [|exact item_le_trans].
    apply StronglySorted_inv in Hs as [_ Hall].
    apply elem_of_cons in Hitem' as [->|Hi].
    - unfold item_le. lia.
    - rewrite Forall_forall in Hall. by apply Hall. }
  assert (h = item) as ->.
  { apply (NoDup_map_eq timestamp (_queue q)); try done.
    specialize (Hmin h Hh). unfold item_le in *. lia. }
  simpl. by rewrite bool_decide_eq_true_2.
Qed.

Lemma first_position_is_next_witness :
  get_position three_queued (id job_A) = Some 1.
Proof.
  apply (first_position_is_next 3 three_queued
           (fst (dequeue three_queued None)) job_A).
  - apply ticking_three_queued.
  - apply QueueFacts.built_is_heap. apply built_three_queued.
  - reflexivity.
Defined.


Lemma Priority_value_inj (p p' : Priority) : Priority_value p = Priority_value p' → p = p'.
Proof. by destruct p, p'. Qed.

Lemma depth_by_priority_fold (l : list QueueItem) (acc : list (Z * Z)) :
  let counts :=
    fold_left (fun counts item =>
                 let priority_name := Priority_value (priority (request item)) in
                 Py.set counts priority_name (default 0 (Py.get counts priority_name) + 1))
              l acc in
  (∀ p, default 0 (Py.get counts (Priority_value p))
        = default 0 (Py.get acc (Priority_value p))
          + Z.of_nat (length (filter (fun item => priority (request item) = p) l))) ∧
  (∀ k, is_Some (Py.get counts k)
        ↔ is_Some (Py.get acc k)
          ∨ ∃ item, item ∈ l ∧ Priority_value (priority (request item)) = k) ∧
  foldr Z.add 0 (Py.values counts) = foldr Z.add 0 (Py.values acc) + Z.of_nat (length l) ∧
  (is_dict acc → is_dict counts).
Proof.
  revert acc. induction l as [|x l IH]; intros acc; cbv zeta; simpl fold_left.
  - split; [intros; simpl; lia|]. split; [|split; [simpl; lia | done]].
    intros k. split; [by left|]. intros [?|(item & Hi & _)]; [done|].
    by apply elem_of_nil in Hi.
  - specialize (IH (Py.set acc (Priority_value (priority (request x)))
                      (default 0 (Py.get acc (Priority_value (priority (request x)))) + 1))).
    cbv zeta in IH. destruct IH as (IH1 & IH2 & IH3 & IH4).
    split; [|split; [|split]].
    + intros p. rewrite IH1, filter_cons.
      destruct (decide (priority (request x) = p)) as [<-|Hne].
      * rewrite PyFacts.get_set_eq. simpl. lia.
      * rewrite PyFacts.get_set_ne; [lia|]. intros Heq. by apply Priority_value_inj in Heq.
    + intros k. rewrite IH2.
      destruct (decide (Priority_value (priority (request x)) = k)) as [<-|Hne].
      * rewrite PyFacts.get_set_eq. split.
        -- intros _. right. exists x. split; [by left | done].
        -- intros _. left. by eexists.
      * rewrite PyFacts.get_set_ne by done. split.
        -- intros [?|(item & Hi & Hk)]; [by left|]. right. exists item. split; [by right | done].
        -- intros [?|(item & Hi & Hk)]; [by left|].
           apply elem_of_cons in Hi as [->|Hi]; [done|]. right. by exists item.
    + rewrite IH3, sum_set. simpl length. lia.
    + intros Hd. apply IH4. by apply is_dict_set.
Qed.

(** X10. [get_queue_depth_by_priority] counts the queued items by the
    priority of their requests: under the value of a priority stands the
    number of queued requests of that priority, a priority with no queued
    request has no entry, no key occurs twice, and the counts add up to the
    queue depth. *)
Theorem depth_by_priority_counts (q : QueueManager) :
  let counts := get_queue_depth_by_priority q in
  (∀ p, default 0 (Py.get counts (Priority_value p))
        = Z.of_nat (length (filter (fun item => priority (request item) = p) (_queue q)))) ∧
  (∀ k, is_Some (Py.get counts k)
        ↔ ∃ item, item ∈ _queue q ∧ Priority_value (priority (request item)) = k) ∧
  is_dict counts ∧
  foldr Z.add 0 (Py.values counts) = get_queue_depth q.
Proof.
  cbv zeta. unfold get_queue_depth_by_priority, get_queue_depth.
  destruct (depth_by_priority_fold (_queue q) []) as (H1 & H2 & H3 & H4).
  cbv zeta in *. split; [|split; [|split]].
  - intros p. rewrite H1. simpl. lia.
  - intros k. rewrite H2. simpl. split; [|by right].
    intros [[? ?]|?]; done.
  - apply H4. constructor.
  - rewrite H3. simpl. lia.
Qed.


(** *** Waiting *)






End QueueLaws.

(** ** The scheduler: comparing, explaining, preempting *)
Module SchedulerLaws.
Import Constants Dto Scheduler.

(** X12. [compare_requests] is a consistent three-way comparison: its
    result is -1, 0 or 1; a request compares equal to itself; swapping the
    arguments negates the result; "not after" is transitive; and a request
    comes first exactly when its score is higher or, at equal scores, it was
    created earlier. *)
Theorem compare_requests_is_an_order (a b c : BuildRequest) :
  (compare_requests a b = -1 ∨ compare_requests a b = 0 ∨ compare_requests a b = 1) ∧
  compare_requests a a = 0 ∧
  compare_requests b a = - compare_requests a b ∧
  (compare_requests a b ≤ 0 → compare_requests b c ≤ 0 → compare_requests a c ≤ 0) ∧
  (compare_requests a b = -1 ↔
     _calculate_priority_score b < _calculate_priority_score a
     ∨ (_calculate_priority_score a = _calculate_priority_score b
        ∧ created_at a < created_at b)) ∧
  (compare_requests a b = 0 ↔
     _calculate_priority_score a = _calculate_priority_score b ∧ created_at a = created_at b).
Proof.
  unfold compare_requests. rewrite !Z.gtb_ltb.
  generalize (_calculate_priority_score a) (_calculate_priority_score b)
             (_calculate_priority_score c) (created_at a) (created_at b) (created_at c).
  intros sa sb sc ta tb tc.
  repeat match goal with
         | |- context [?x <? ?y] => destruct (Z.ltb_spec x y)
         end; lia.
Qed.

Lemma label_boost_nonneg (labels : list string) : 0 ≤ _get_label_priority_boost labels.
Proof.
  rewrite SchedulerFacts.label_boost_is_maximum. apply SchedulerFacts.max_list_nonneg.
Qed.

(** X13. The explanation accounts for the branch and the labels only.  Its
    [total_score] is the base score plus the [score_change] of the listed
    factors, each of which is positive; the score that decides
    [final_priority] is that total with the terms for review readiness,
    draft, bot trigger and retries added, none of which the explanation
    lists. *)
Theorem explanation_leaves_out_four_terms (request : BuildRequest) :
  let e := get_priority_explanation request in
  base_score e = 50 ∧
  total_score e = base_score e + foldr Z.add 0 (map score_change (factors e)) ∧
  Forall (fun f => 0 < score_change f) (factors e) ∧
  final_priority e = Priority_value (calculate_priority request) ∧
  _calculate_priority_score request
  = total_score e
    + delta (default false (is_ready_for_review (metadata request))) 30
    - delta (default false (is_draft (metadata request))) 20
    - delta (_is_dependabot_pr request) 10
    - 5 * default 0 (retry_count (metadata request)).
Proof.
  cbv zeta. unfold get_priority_explanation, _calculate_priority_score.
  pose proof (label_boost_nonneg (default [] (labels (metadata request)))) as Hnn.
  change (weight "is_main_branch") with 100. change (weight "is_release_branch") with 80.
  change (weight "is_hotfix_branch") with 90. change (weight "is_ready_for_review") with 30.
  change (weight "is_draft") with (-20). change (weight "is_dependabot") with (-10).
  change (weight "retry_count") with (-5).
  destruct (_is_main_branch (branch request)), (_is_release_branch (branch request)),
    (_is_hotfix_branch (branch request));
    destruct (Z.ltb_spec 0 (_get_label_priority_boost (default [] (labels (metadata request)))));
    destruct (default false (is_ready_for_review (metadata request))),
      (default false (is_draft (metadata request))), (_is_dependabot_pr request);
    simpl; repeat split; try lia; repeat constructor; simpl; lia.
Qed.

(** X14. [should_preempt] compares the class computed for the new request
    with the class stored on the running one: it holds exactly when the new
    request scores at least 150 and the running request is not critical or
    the new one sits on a hotfix branch.  Hence two critical requests on
    hotfix branches each preempt the other, and such a request preempts
    itself. *)
Theorem should_preempt_exactly (new_request running_request : BuildRequest) :
  (should_preempt new_request running_request = true ↔
     150 ≤ _calculate_priority_score new_request ∧
     (priority running_request ≠ CRITICAL ∨ _is_hotfix_branch (branch new_request) = true)) ∧
  (150 ≤ _calculate_priority_score new_request →
   150 ≤ _calculate_priority_score running_request →
   _is_hotfix_branch (branch new_request) = true →
   _is_hotfix_branch (branch running_request) = true →
   should_preempt new_request running_request = true ∧
   should_preempt running_request new_request = true ∧
   should_preempt new_request new_request = true).
Proof.
  assert (Hc : ∀ r, calculate_priority r = CRITICAL ↔ 150 ≤ _calculate_priority_score r).
  { intros r. unfold calculate_priority.
    repeat match goal with
           | |- context [?x <=? ?y] => destruct (Z.leb_spec x y)
           end; split; (done || lia). }
  assert (Hp : ∀ n r, should_preempt n r = true ↔
                 150 ≤ _calculate_priority_score n ∧
                 (priority r ≠ CRITICAL ∨ _is_hotfix_branch (branch n) = true)).
  { intros n r. rewrite <- Hc. unfold should_preempt.
    destruct (bool_decide_reflect (calculate_priority n = CRITICAL)) as [H1|H1];
      destruct (bool_decide_reflect (priority r = CRITICAL)) as [H2|H2];
      destruct (_is_hotfix_branch (branch n)); simpl; split; try done;
      try (intros _; split; [done|]; (by left) || (by right));
      intros [? [?|?]]; done. }
  split; [apply Hp|]. intros H1 H2 H3 H4. rewrite !Hp. repeat split; auto.
Qed.

(** For instance, a request on a hotfix branch that carries the label
    "urgent" scores 220, and preempts itself. *)
Example urgent_hotfix_preempts_itself :
  let r := Scenario.sample_request "hotfix/gpu-hang" "alice"
             {| labels := Some ["urgent"]; is_ready_for_review := None; is_draft := None;
                retry_count := None; retry_of := None |} in
  _calculate_priority_score r = 220 ∧ should_preempt r r = true.
Proof. vm_compute. by split. Qed.

End SchedulerLaws.

(** ** The state manager: restoring, listing, checkpoints *)
Module StateLaws.
Import Constants Dto State Scenario PyDict.

Lemma restore_fold (sm : StateManager) (states : list (UUID * gmap string value))
    (acc : list BuildRequest) (r : BuildRequest) :
  r ∈ fold_left (restore_step sm) states acc ↔
  r ∈ acc ∨ ∃ k st, (k, st) ∈ states ∧ is_pending_or_running st = true ∧
                    _build_requests sm !! k = Some r.
Proof.
  revert acc. induction states as [|[k st] states IH]; intros acc; simpl.
  - split; [by left|]. intros [?|(k & st & Hin & _)]; [done|]. by apply elem_of_nil in Hin.
  - rewrite IH. unfold restore_step at 1. simpl. split.
    + intros [Hacc|(k' & st' & Hin & Hp & Hr)].
      * destruct (is_pending_or_running st) eqn:Hp; [|by left].
        destruct (_build_requests sm !! k) as [request|] eqn:Hr; [|by left].
        destruct (bool_decide (request ∈ acc)); [by left|].
        apply elem_of_app in Hacc as [?|Hx]; [by left|].
        apply list_elem_of_singleton in Hx as ->. right. exists k, st. split; [by left | done].
      * right. exists k', st'. split; [by right | done].
    + intros [Hacc|(k' & st' & Hin & Hp & Hr)].
      * left. destruct (is_pending_or_running st); [|done].
        destruct (_build_requests sm !! k); [|done].
        destruct (bool_decide _); [done|]. apply elem_of_app. by left.
      * apply elem_of_cons in Hin as [[= -> ->]|Hin].
        -- left. rewrite Hp, Hr.
           destruct (bool_decide_reflect (r ∈ acc)); [done|].
           apply elem_of_app. right. by apply list_elem_of_singleton.
        -- right. by exists k', st'.
Qed.

Lemma restore_fold_NoDup (sm : StateManager) (states : list (UUID * gmap string value))
    (acc : list BuildRequest) :
  NoDup acc → NoDup (fold_left (restore_step sm) states acc).
Proof.
  revert acc. induction states as [|[k st] states IH]; intros acc Hnd; simpl; [done|].
  apply IH. unfold restore_step. simpl.
  destruct (is_pending_or_running st); [|done].
  destruct (_build_requests sm !! k) as [request|]; [|done].
  destruct (bool_decide_reflect (request ∈ acc)) as [|Hout]; [done|].
  apply NoDup_app. split; [done|]. split; [|apply NoDup_singleton].
  intros x Hx Hs. apply list_elem_of_singleton in Hs as ->. done.
Qed.

(** X15. [restore_pending_builds] returns exactly the requests that the
    persistent store hands back (when persistence is enabled) and the
    requests held in memory for the builds whose state is pending or running;
    no request is listed twice when the store lists none twice, and those of
    the store come first, in their order. *)
Theorem restore_returns_the_unfinished (sm : StateManager) (from_redis : list BuildRequest) :
  let stored := if _persistence_enabled sm then from_redis else [] in
  (∀ r, r ∈ restore_pending_builds sm from_redis ↔
        r ∈ stored ∨
        ∃ k st, (k, st) ∈ _build_states sm ∧ is_pending_or_running st = true ∧
                _build_requests sm !! k = Some r) ∧
  (NoDup stored → NoDup (restore_pending_builds sm from_redis)) ∧
  stored `prefix_of` restore_pending_builds sm from_redis.
Proof.
  cbv zeta. unfold restore_pending_builds. split; [|split].
  - intros r. apply restore_fold.
  - apply restore_fold_NoDup.
  - generalize (if _persistence_enabled sm then from_redis else []).
    induction (_build_states sm) as [|[k st] states IH]; intros acc; simpl; [done|].
    etrans; [|apply IH]. unfold restore_step. simpl.
    destruct (is_pending_or_running st); [|done].
    destruct (_build_requests sm !! k); [|done].
    destruct (bool_decide _); [done|]. by apply prefix_app_r.
Qed.

(** X16. Round trip: a request that was saved is among the pending builds
    restored afterwards, and its state reads pending, with the fields of
    the request. *)
Theorem saved_request_is_restored (sm : StateManager) (r : BuildRequest) (now : datetime)
    (from_redis : list BuildRequest) :
  let sm' := save_build_request sm r now in
  r ∈ restore_pending_builds sm' from_redis ∧
  _build_requests sm' !! id r = Some r ∧
  state_of sm' (id r) "status" = Some (VStr "pending") ∧
  state_of sm' (id r) "repository" = Some (VStr (repository r)) ∧
  state_of sm' (id r) "branch" = Some (VStr (branch r)) ∧
  state_of sm' (id r) "commit_sha" = Some (VStr (commit_sha r)) ∧
  state_of sm' (id r) "created_at" = Some (VTime now) ∧
  state_of sm' (id r) "updated_at" = None.
Proof.
  cbv zeta. split.
  - unfold restore_pending_builds. apply restore_fold. right.
    eexists (id r), _. split; [|split].
    + simpl. apply get_Some_elem. apply PyFacts.get_set_eq.
    + reflexivity.
    + simpl. by rewrite lookup_insert_eq.
  - split; [simpl; by rewrite lookup_insert_eq|].
    unfold state_of, get_build_state. simpl. rewrite PyFacts.get_set_eq. simpl.
    repeat split; reflexivity.
Qed.

(** X17. [get_all_active_builds] is the sub-dictionary of the pending and
    running builds: the entries of [_build_states] that are pending or
    running, in their order. *)
Theorem active_builds_are_the_unfinished (sm : StateManager) :
  is_dict (_build_states sm) →
  get_all_active_builds sm
  = filter (fun entry : UUID * gmap string value => is_pending_or_running (snd entry) = true) (_build_states sm).
Proof.
  unfold get_all_active_builds.
  assert (Hgen : ∀ states acc,
    is_dict (acc ++ states) →
    fold_left (fun active_builds entry =>
                 if is_pending_or_running (snd entry)
                 then Py.set active_builds (fst entry) (snd entry)
                 else active_builds) states acc
    = acc ++ filter (fun entry : UUID * gmap string value => is_pending_or_running (snd entry) = true) states).
  { induction states as [|[k st] states IH]; intros acc Hd; simpl; [by rewrite app_nil_r|].
    rewrite filter_cons. simpl.
    assert (Hk : k ∉ Py.keys acc).
    { unfold is_dict, Py.keys in *. rewrite fmap_app in Hd. simpl in Hd.
      apply NoDup_app in Hd as (_ & Hd & _). intros Hin. apply (Hd k Hin). by left. }
    destruct (is_pending_or_running st) eqn:Hp.
    - rewrite decide_True by done.
      assert (Hset : Py.set acc k st = acc ++ [(k, st)]).
      { clear -Hk. unfold Py.keys in Hk. induction acc as [|[k' v'] acc IHa]; simpl; [done|].
        simpl in Hk. apply not_elem_of_cons in Hk as [Hne Hk].
        rewrite decide_False by done. by rewrite IHa. }
      rewrite Hset, IH; [by rewrite <- app_assoc|].
      by rewrite <- app_assoc.
    - rewrite decide_False by congruence. apply IH.
      unfold is_dict, Py.keys in *. rewrite fmap_app in *. simpl in Hd.
      apply NoDup_app in Hd as (H1 & H2 & H3). apply NoDup_cons in H3 as [H3 H4].
      apply NoDup_app. split; [done|]. split; [|done].
      intros x Hx Hx'. apply (H2 x Hx). by right. }
  intros Hd. by rewrite (Hgen (_build_states sm) []).
Qed.

Lemma active_builds_are_the_unfinished_witness :
  get_all_active_builds one_saved
  = filter (fun entry : UUID * gmap string value => is_pending_or_running (snd entry) = true) (_build_states one_saved).
Proof.
  apply (active_builds_are_the_unfinished one_saved).
  unfold is_dict. simpl. apply NoDup_singleton.
Defined.

(** X18. Checkpoints are append-only and the latest one is the last
    written: after [checkpoint_build] the list of the build is the old list
    with the new checkpoint at its end, [latest_stage] is the stage, and
    [get_latest_checkpoint] returns that checkpoint, whatever the persistent
    store holds; the other builds are not touched. *)
Theorem latest_checkpoint_is_last_written (sm : StateManager) (cps : Checkpoints)
    (build_id : UUID) (stage : string) (data : option (list (string * value)))
    (now : datetime) (from_redis : option Checkpoint) :
  let cps' := checkpoint_build cps build_id stage data now in
  let checkpoint := {| State.stage := stage; cp_timestamp := now; State.data := default [] data |} in
  cps' !! build_id
  = Some {| checkpoints := default [] (checkpoints <$> cps !! build_id) ++ [checkpoint];
            latest_stage := Some stage |} ∧
  get_latest_checkpoint sm cps' build_id from_redis = Some checkpoint ∧
  ∀ other, other ≠ build_id →
    cps' !! other = cps !! other ∧
    get_latest_checkpoint sm cps' other from_redis
    = get_latest_checkpoint sm cps other from_redis.
Proof.
  cbv zeta. unfold checkpoint_build, get_latest_checkpoint. split; [|split].
  - rewrite lookup_insert_eq. by destruct (cps !! build_id).
  - rewrite lookup_insert_eq. simpl. by rewrite last_snoc.
  - intros other Hne. by rewrite lookup_insert_ne.
Qed.

(** X19. [delete_build_state] forgets the build in all three dictionaries
    and nothing else: afterwards the build has no state, no request and no
    checkpoint in memory and is not among the builds restored from memory;
    every other build keeps its state, request and checkpoints. *)
Theorem delete_forgets_the_build (sm : StateManager) (cps : Checkpoints) (build_id : UUID) :
  is_dict (_build_states sm) →
  let sm' := fst (delete_build_state sm cps build_id) in
  let cps' := snd (delete_build_state sm cps build_id) in
  get_build_state sm' build_id = None ∧
  get_build_request sm' build_id None = None ∧
  get_latest_checkpoint sm' cps' build_id None = None ∧
  (∀ r, r ∈ restore_pending_builds sm' [] →
        ∃ k st, k ≠ build_id ∧ (k, st) ∈ _build_states sm ∧ _build_requests sm !! k = Some r) ∧
  ∀ other, other ≠ build_id →
    get_build_state sm' other = get_build_state sm other ∧
    _build_requests sm' !! other = _build_requests sm !! other ∧
    cps' !! other = cps !! other.
Proof.
  intros Hd. cbv zeta. unfold delete_build_state, get_build_state, get_build_request,
    get_latest_checkpoint. simpl.
  rewrite get_del_eq by done. rewrite !lookup_delete_eq. simpl.
  split; [done|]. split; [by destruct (_persistence_enabled sm)|].
  split; [by destruct (_persistence_enabled sm)|]. split.
  - intros r Hr. unfold restore_pending_builds in Hr. apply restore_fold in Hr. simpl in Hr.
    destruct Hr as [Hr|(k & st & Hin & _ & Hl)].
    { destruct (_persistence_enabled sm); by apply elem_of_nil in Hr. }
    apply lookup_delete_Some in Hl as [Hne Hl]. exists k, st. split; [done|]. split; [|done].
    apply get_Some_elem. rewrite <- (get_del_ne _ build_id k) by done.
    apply elem_get; [by apply is_dict_del | done].
  - intros other Hne. rewrite get_del_ne by done. by rewrite !lookup_delete_ne.
Qed.

Lemma delete_forgets_the_build_witness :
  let sm' := fst (delete_build_state one_saved ∅ 7%N) in
  let cps' := snd (delete_build_state one_saved ∅ 7%N) in
  get_build_state sm' 7%N = None ∧
  get_build_request sm' 7%N None = None ∧
  get_latest_checkpoint sm' cps' 7%N None = None ∧
  (∀ r, r ∈ restore_pending_builds sm' [] →
        ∃ k st, k ≠ 7%N ∧ (k, st) ∈ _build_states one_saved ∧
                _build_requests one_saved !! k = Some r) ∧
  ∀ other, other ≠ 7%N →
    get_build_state sm' other = get_build_state one_saved other ∧
    _build_requests sm' !! other = _build_requests one_saved !! other ∧
    cps' !! other = (∅ : Checkpoints) !! other.
Proof.
  apply (delete_forgets_the_build one_saved ∅ 7%N).
  unfold is_dict. simpl. apply NoDup_singleton.
Defined.

End StateLaws.

(** ** The allocator: selection, release, refresh *)
Module AllocatorLaws.
Import Allocator Scenario PyDict.

Lemma refresh_k8s_nodes_is_dict nodes items now :
  is_dict nodes → is_dict (refresh_k8s_nodes nodes items now).
Proof.
  revert nodes. induction items as [|[k|] items IH]; intros nodes Hd; simpl; [done| |done].
  apply IH. unfold refresh_k8s_node. destruct (bool_decide _); [|done]. by apply is_dict_set.
Qed.

Lemma refresh_is_dict a inv now :
  is_dict (_nodes a) → is_dict (_nodes (refresh_node_resources a inv now)).
Proof.
  intros Hd. unfold refresh_node_resources. destruct (_k8s_client a).
  - destruct (list_node inv); [|done]. simpl. by apply refresh_k8s_nodes_is_dict.
  - simpl. by apply is_dict_set.
Qed.

Lemma node_or_new_named nodes name now :
  Forall (fun e => node_name (snd e) = fst e) nodes →
  node_name (node_or_new nodes name now) = name.
Proof.
  intros Hn. unfold node_or_new. destruct (Py.get nodes name) as [n|] eqn:Hg; [|done].
  by apply (get_Forall _ _ _ _ Hn Hg).
Qed.

Lemma refresh_named a inv now : named a → named (refresh_node_resources a inv now).
Proof.
  unfold named, refresh_node_resources. intros Hn. destruct (_k8s_client a).
  - destruct (list_node inv) as [items|]; [|done]. simpl.
    revert Hn. generalize (_nodes a). induction items as [|[k|] items IH]; intros nodes Hn;
      simpl; [done| |done].
    apply IH. unfold refresh_k8s_node. destruct (bool_decide _); [|done].
    apply Forall_set; [done|]. simpl. by apply node_or_new_named.
  - simpl. apply Forall_set; [done|]. simpl. by apply node_or_new_named.
Qed.

(** One round of the selection loop. *)
Lemma select_step_spec (cpu : Z) (mem : float) (arch : string)
    (sel : option (string * NodeResources)) (x : string * NodeResources) :
  (∀ s, sel = Some s → node_fits (snd s) 1 cpu mem arch = true) →
  match select_step 1 cpu mem arch sel x with
  | Some s' =>
      (s' = x ∨ sel = Some s') ∧ node_fits (snd s') 1 cpu mem arch = true ∧
      (node_fits (snd x) 1 cpu mem arch = true →
       available_gpus (snd x) ≤ available_gpus (snd s')) ∧
      (∀ s, sel = Some s → available_gpus (snd s) ≤ available_gpus (snd s'))
  | None => sel = None ∧ node_fits (snd x) 1 cpu mem arch = false
  end.
Proof.
  intros Hsel. unfold select_step.
  destruct (node_fits (snd x) 1 cpu mem arch) eqn:Hfx.
  - destruct sel as [s|].
    + destruct (Z.gtb_spec (available_gpus (snd x)) (available_gpus (snd s))) as [Hgt|Hle].
      * split; [by left|]. split; [done|]. split; [lia|]. intros s0 [= <-]. lia.
      * split; [by right|]. split; [by apply Hsel|]. split; [lia|]. intros s0 [= <-]. lia.
    + split; [by left|]. split; [done|]. split; [lia|]. done.
  - destruct sel as [s|]; [|done].
    split; [by right|]. split; [by apply Hsel|]. split; [done|]. intros s0 [= <-]. lia.
Qed.

(** The selection loop: a fitting node with the most available GPUs. *)
Lemma select_fold (cpu : Z) (mem : float) (arch : string)
    (l : list (string * NodeResources)) (sel : option (string * NodeResources)) :
  (∀ s, sel = Some s → node_fits (snd s) 1 cpu mem arch = true) →
  match fold_left (select_step 1 cpu mem arch) l sel with
  | None => sel = None ∧ ∀ e, e ∈ l → node_fits (snd e) 1 cpu mem arch = false
  | Some e =>
      (e ∈ l ∨ sel = Some e) ∧ node_fits (snd e) 1 cpu mem arch = true ∧
      (∀ e', e' ∈ l → node_fits (snd e') 1 cpu mem arch = true →
             available_gpus (snd e') ≤ available_gpus (snd e)) ∧
      (∀ s, sel = Some s → available_gpus (snd s) ≤ available_gpus (snd e))
  end.
Proof.
  revert sel. induction l as [|x l IH]; intros sel Hsel; simpl.
  - destruct sel as [s|].
    + split; [by right|]. split; [by apply Hsel|]. split.
      * intros e' He'. by apply elem_of_nil in He'.
      * intros s0 [= <-]. lia.
    + split; [done|]. intros e He. by apply elem_of_nil in He.
  - pose proof (select_step_spec cpu mem arch sel x Hsel) as Hstep.
    specialize (IH (select_step 1 cpu mem arch sel x)).
    destruct (select_step 1 cpu mem arch sel x) as [s'|] eqn:Hs'.
    + destruct Hstep as (Horigin & Hfit & Hx & Hold).
      destruct (fold_left _ l (Some s')) as [e|].
      * destruct IH as (Hin & Hf & Hmax & Hs); [by intros ? [= <-]|].
        specialize (Hs s' eq_refl).
        split; [|split; [done|split]].
        -- destruct Hin as [?|[= ->]]; [left; by right|].
           destruct Horigin as [->|?]; [left; by left | by right].
        -- intros e' He' Hfe'. apply elem_of_cons in He' as [->|He'].
           ++ specialize (Hx Hfe'). lia.
           ++ by apply Hmax.
        -- intros s Hsel'. specialize (Hold s Hsel'). lia.
      * destruct IH as [? _]; [by intros ? [= <-]|]. done.
    + destruct Hstep as [-> Hfx].
      destruct (fold_left _ l None) as [e|].
      * destruct IH as (Hin & Hf & Hmax & Hs); [done|].
        split; [|split; [done|split; [|done]]].
        -- destruct Hin as [?|?]; [left; by right | done].
        -- intros e' He' Hfe'. apply elem_of_cons in He' as [->|He']; [congruence|].
           by apply Hmax.
      * destruct IH as [_ Hall]; [done|]. split; [done|].
        intros e He. apply elem_of_cons in He as [->|He]; [done | by apply Hall].
Qed.


Lemma allocate_resources_reads (inv : Inventory) (now : datetime) (uuid4 : UUID)
    (config : ConfigObject) (a : ResourceAllocator) cpu mem arch :
  cpu_cores config = Some cpu → memory_gb config = Some mem →
  cfg_gpu_architecture config = Some arch →
  allocate_resources inv now uuid4 config a
  = (fst (allocate_locked (refresh_node_resources a inv now) now uuid4 (Py.int_or cpu 8)
            (Py.float_or mem 32%float) arch),
     Py.Return (snd (allocate_locked (refresh_node_resources a inv now) now uuid4
                       (Py.int_or cpu 8) (Py.float_or mem 32%float) arch))).
Proof.
  intros Hc Hm Ha. unfold allocate_resources. rewrite Hc, Hm, Ha. simpl.
  by destruct (allocate_locked _ _ _ _ _ _).
Qed.

(** X20. What [allocate_resources] selects.  For a configuration that has
    the three attributes read, the call never raises.  When it returns an
    allocation, that allocation is on a node that fits the requirement after
    the refresh (healthy, at least one GPU, enough cores and memory, the
    architecture) and has the most available GPUs among the fitting nodes; it
    carries the fresh id, the first GPU id of the node, the cores and memory
    required, and is recorded under its id; the node loses one GPU and the
    cores and memory, and no other node changes.  When it returns [None], no
    node fits, and nothing but the refresh has happened. *)
Theorem allocation_goes_to_the_best_fit (inv : Inventory) (now : datetime) (uuid4 : UUID)
    (config : ConfigObject) (a : ResourceAllocator) cpu mem arch :
  cpu_cores config = Some cpu → memory_gb config = Some mem →
  cfg_gpu_architecture config = Some arch →
  is_dict (_nodes a) →
  let a0 := refresh_node_resources a inv now in
  let required_cpu := Py.int_or cpu 8 in
  let required_memory := Py.float_or mem 32%float in
  let fits n := node_fits n 1 required_cpu required_memory arch = true in
  match allocate_resources inv now uuid4 config a with
  | (a', Py.Return (Some al)) =>
      ∃ key node node',
        (key, node) ∈ _nodes a0 ∧ fits node ∧
        (∀ k n, (k, n) ∈ _nodes a0 → fits n → available_gpus n ≤ available_gpus node) ∧
        al = {| allocation_id := uuid4; ra_gpu_ids := take 1 (gpu_ids node);
                ra_cpu_cores := required_cpu; ra_memory_gb := required_memory;
                ra_node_name := node_name node; allocated_at := now |} ∧
        _allocations a' = <[uuid4 := al]> (_allocations a) ∧
        Py.get (_nodes a') key = Some node' ∧
        available_gpus node' = available_gpus node - 1 ∧
        available_cpu_cores node' = available_cpu_cores node - required_cpu ∧
        available_memory_gb node' = PrimFloat.sub (available_memory_gb node) required_memory ∧
        (node_name node', total_gpus node', gpu_ids node', gpu_architectures node',
         total_cpu_cores node', total_memory_gb node', is_healthy node')
        = (node_name node, total_gpus node, gpu_ids node, gpu_architectures node,
           total_cpu_cores node, total_memory_gb node, is_healthy node) ∧
        ∀ k, k ≠ key → Py.get (_nodes a') k = Py.get (_nodes a0) k
  | (a', Py.Return None) => a' = a0 ∧ ∀ k n, (k, n) ∈ _nodes a0 → ¬ fits n
  | (_, Py.Raise _) => False
  end.
Proof.
  intros Hc Hm Ha Hd. cbv zeta.
  rewrite (allocate_resources_reads inv now uuid4 config a cpu mem arch Hc Hm Ha).
  assert (Hal : _allocations (refresh_node_resources a inv now) = _allocations a).
  { unfold refresh_node_resources. destruct (_k8s_client a); [|done].
    by destruct (list_node inv). }
  unfold allocate_locked.
  pose proof (select_fold (Py.int_or cpu 8) (Py.float_or mem 32%float) arch
                (_nodes (refresh_node_resources a inv now)) None ltac:(done)) as Hsel.
  destruct (fold_left _ (_nodes (refresh_node_resources a inv now)) None) as [[key node]|].
  - destruct Hsel as (Hin & Hfit & Hmax & _). destruct Hin as [Hin|?]; [|done].
    simpl. eexists key, node, _. split; [done|]. split; [done|]. split.
    { intros k n Hkn Hf. by apply (Hmax (k, n)). }
    split; [done|]. split; [by rewrite Hal|]. split; [apply PyFacts.get_set_eq|].
    simpl. repeat split; try done.
    intros k Hk. by rewrite PyFacts.get_set_ne.
  - destruct Hsel as [_ Hall]. simpl. split; [done|].
    intros k n Hkn Hf. specialize (Hall (k, n) Hkn). simpl in Hall. congruence.
Qed.

Lemma allocation_goes_to_the_best_fit_witness :
  let a0 := refresh_node_resources (ResourceAllocator_new true) single_gpu_cluster 1 in
  let required_cpu := Py.int_or None 8 in
  let required_memory := Py.float_or None 32%float in
  let fits n := node_fits n 1 required_cpu required_memory "" = true in
  match allocate_resources single_gpu_cluster 1 101%N default_request
          (ResourceAllocator_new true) with
  | (a', Py.Return (Some al)) =>
      ∃ key node node',
        (key, node) ∈ _nodes a0 ∧ fits node ∧
        (∀ k n, (k, n) ∈ _nodes a0 → fits n → available_gpus n ≤ available_gpus node) ∧
        al = {| allocation_id := 101%N; ra_gpu_ids := take 1 (gpu_ids node);
                ra_cpu_cores := required_cpu; ra_memory_gb := required_memory;
                ra_node_name := node_name node; allocated_at := 1 |} ∧
        _allocations a' = <[101%N := al]> (_allocations (ResourceAllocator_new true)) ∧
        Py.get (_nodes a') key = Some node' ∧
        available_gpus node' = available_gpus node - 1 ∧
        available_cpu_cores node' = available_cpu_cores node - required_cpu ∧
        available_memory_gb node' = PrimFloat.sub (available_memory_gb node) required_memory ∧
        (node_name node', total_gpus node', gpu_ids node', gpu_architectures node',
         total_cpu_cores node', total_memory_gb node', is_healthy node')
        = (node_name node, total_gpus node, gpu_ids node, gpu_architectures node,
           total_cpu_cores node, total_memory_gb node, is_healthy node) ∧
        ∀ k, k ≠ key → Py.get (_nodes a') k = Py.get (_nodes a0) k
  | (a', Py.Return None) => a' = a0 ∧ ∀ k n, (k, n) ∈ _nodes a0 → ¬ fits n
  | (_, Py.Raise _) => False
  end.
Proof.
  apply (allocation_goes_to_the_best_fit single_gpu_cluster 1 101%N default_request
           (ResourceAllocator_new true) None None "");
    [reflexivity | reflexivity | reflexivity | constructor].
Defined.

(** X21. Round trip.  On an allocator whose nodes are stored under their
    names, releasing the allocation that [allocate_resources] just returned
    succeeds, forgets the allocation and gives the node its GPU and its cores
    back: the recorded allocations and every node's counts are as they were
    right after the refresh of the call.  The memory comes back as the
    float [(available - required) + required]. *)
Theorem release_gives_back_what_allocate_took (inv : Inventory) (now : datetime)
    (uuid4 : UUID) (config : ConfigObject) (a a1 : ResourceAllocator)
    (al : ResourceAllocation) :
  is_dict (_nodes a) → named a → _allocations a !! uuid4 = None →
  allocate_resources inv now uuid4 config a = (a1, Py.Return (Some al)) →
  ra_gpu_ids al ≠ [] →
  let a0 := refresh_node_resources a inv now in
  let a2 := fst (release_resources a1 al) in
  snd (release_resources a1 al) = true ∧
  _allocations a2 = _allocations a ∧
  Py.keys (_nodes a2) = Py.keys (_nodes a0) ∧
  ∀ name n0, Py.get (_nodes a0) name = Some n0 →
    ∃ n2, Py.get (_nodes a2) name = Some n2 ∧
          (node_name n2, total_gpus n2, available_gpus n2, gpu_ids n2, gpu_architectures n2,
           total_cpu_cores n2, available_cpu_cores n2, total_memory_gb n2, is_healthy n2)
          = (node_name n0, total_gpus n0, available_gpus n0, gpu_ids n0, gpu_architectures n0,
             total_cpu_cores n0, available_cpu_cores n0, total_memory_gb n0, is_healthy n0) ∧
          (name ≠ ra_node_name al → available_memory_gb n2 = available_memory_gb n0) ∧
          (name = ra_node_name al →
           available_memory_gb n2
           = PrimFloat.add (PrimFloat.sub (available_memory_gb n0) (ra_memory_gb al))
                           (ra_memory_gb al)).
Proof.
  intros Hd Hn Hfresh Hal Hids. cbv zeta.
  pose proof (refresh_is_dict a inv now Hd) as Hd0.
  pose proof (refresh_named a inv now Hn) as Hn0.
  assert (Hal0 : _allocations (refresh_node_resources a inv now) = _allocations a).
  { unfold refresh_node_resources. destruct (_k8s_client a); [|done].
    by destruct (list_node inv). }
  unfold allocate_resources in Hal.
  destruct (getattr "cpu_cores" (cpu_cores config)) as [cpu|]; [|done].
  destruct (getattr "memory_gb" (memory_gb config)) as [mem|]; [|done].
  destruct (getattr "gpu_architecture" (cfg_gpu_architecture config)) as [arch|]; [|done].
  unfold allocate_locked in Hal.
  pose proof (select_fold (Py.int_or cpu 8) (Py.float_or mem 32%float) arch
                (_nodes (refresh_node_resources a inv now)) None ltac:(done)) as Hsel.
  destruct (fold_left _ (_nodes (refresh_node_resources a inv now)) None) as [[key node]|];
    [|done].
  destruct Hsel as ([Hin|?] & _); [|done].
  injection Hal as <- <-. simpl in Hids.
  assert (Hname : node_name node = key).
  { unfold named in Hn0. rewrite Forall_forall in Hn0. by apply (Hn0 (key, node)). }
  assert (Hlen : length (take 1 (gpu_ids node)) = 1%nat).
  { destruct (gpu_ids node); [done | reflexivity]. }
  unfold release_resources. simpl. rewrite lookup_insert_eq. simpl.
  change (Z.to_nat 1) with 1%nat in *.
  rewrite Hname, PyFacts.get_set_eq. simpl.
  split; [done|]. split; [by rewrite delete_insert_id by (by rewrite Hal0)|]. split.
  { assert (Hk : key ∈ Py.keys (_nodes (refresh_node_resources a inv now))).
    { by apply (list_elem_of_fmap_2 fst _ (key, node)). }
    rewrite keys_set_in; [by apply keys_set_in|]. by rewrite keys_set_in. }
  intros name n0 Hg. destruct (decide (name = key)) as [->|Hne].
  - rewrite PyFacts.get_set_eq.
    assert (n0 = node) as ->.
    { apply (elem_get _ _ _ Hd0) in Hin. congruence. }
    eexists. split; [done|]. simpl. rewrite Hlen, Hname.
    split; [repeat f_equal; lia|]. by split.
  - rewrite !PyFacts.get_set_ne by done.
    exists n0. split; [done|]. split; [done|]. by split.
Qed.


Lemma release_gives_back_what_allocate_took_witness :
  let a0 := refresh_node_resources (ResourceAllocator_new true) single_gpu_cluster 1 in
  let a2 := fst (release_resources after_first first_allocation) in
  snd (release_resources after_first first_allocation) = true ∧
  _allocations a2 = _allocations (ResourceAllocator_new true) ∧
  Py.keys (_nodes a2) = Py.keys (_nodes a0) ∧
  ∀ name n0, Py.get (_nodes a0) name = Some n0 →
    ∃ n2, Py.get (_nodes a2) name = Some n2 ∧
          (node_name n2, total_gpus n2, available_gpus n2, gpu_ids n2, gpu_architectures n2,
           total_cpu_cores n2, available_cpu_cores n2, total_memory_gb n2, is_healthy n2)
          = (node_name n0, total_gpus n0, available_gpus n0, gpu_ids n0, gpu_architectures n0,
             total_cpu_cores n0, available_cpu_cores n0, total_memory_gb n0, is_healthy n0) ∧
          (name ≠ ra_node_name first_allocation →
           available_memory_gb n2 = available_memory_gb n0) ∧
          (name = ra_node_name first_allocation →
           available_memory_gb n2
           = PrimFloat.add
               (PrimFloat.sub (available_memory_gb n0) (ra_memory_gb first_allocation))
               (ra_memory_gb first_allocation)).
Proof.
  apply (release_gives_back_what_allocate_took single_gpu_cluster 1 101%N default_request
           (ResourceAllocator_new true) after_first first_allocation).
  - constructor.
  - constructor.
  - reflexivity.
  - reflexivity.
  - discriminate.
Defined.

(** X22. An allocation is released once: whatever the first
    [release_resources] of an allocation did, a second one of the same
    allocation returns [False] and changes nothing, and so never adds
    resources to a node a second time. *)
Theorem release_is_once_only (a : ResourceAllocator) (al : ResourceAllocation) :
  let a1 := fst (release_resources a al) in
  release_resources a1 al = (a1, false).
Proof.
  cbv zeta. set (a1 := fst (release_resources a al)).
  assert (H : _allocations a1 !! allocation_id al = None).
  { unfold a1, release_resources.
    destruct (_allocations a !! allocation_id al) eqn:Hl; simpl; [|done].
    by rewrite lookup_delete_eq. }
  unfold release_resources.
  by rewrite H.
Qed.

Lemma refresh_k8s_nodes_frame nodes items now name :
  (∀ k, Some k ∈ items → k_name k ≠ name) →
  Py.get (refresh_k8s_nodes nodes items now) name = Py.get nodes name.
Proof.
  revert nodes. induction items as [|[k|] items IH]; intros nodes Hn; simpl; [done| |done].
  rewrite IH by (intros k' Hk'; apply Hn; by right).
  unfold refresh_k8s_node. destruct (bool_decide _); [|done].
  apply PyFacts.get_set_ne. apply Hn. by left.
Qed.

Lemma refresh_k8s_nodes_keys nodes items now name :
  name ∈ Py.keys nodes → name ∈ Py.keys (refresh_k8s_nodes nodes items now).
Proof.
  revert nodes. induction items as [|[k|] items IH]; intros nodes Hn; simpl; [done| |done].
  apply IH. unfold refresh_k8s_node. destruct (bool_decide _); [|done].
  by apply keys_set_sub.
Qed.

(** X23. A refresh never forgets and never retires: it keeps the recorded
    allocations and every node it knows, and a node that the inventory does
    not report (one that has left the cluster, say) stays exactly as it
    was, its health flag and its available amounts included. *)
Theorem refresh_leaves_unreported_nodes (a : ResourceAllocator) (inv : Inventory)
    (now : datetime) :
  let a' := refresh_node_resources a inv now in
  _allocations a' = _allocations a ∧
  _k8s_client a' = _k8s_client a ∧
  (∀ name, name ∈ Py.keys (_nodes a) → name ∈ Py.keys (_nodes a')) ∧
  ∀ name, ¬ reported a inv name → Py.get (_nodes a') name = Py.get (_nodes a) name.
Proof.
  cbv zeta. unfold refresh_node_resources, reported. destruct (_k8s_client a) eqn:Hk.
  - destruct (list_node inv) as [items|]; simpl; [|done].
    split; [done|]. split; [done|]. split.
    + intros name. apply refresh_k8s_nodes_keys.
    + intros name Hn. apply refresh_k8s_nodes_frame.
      intros k Hin Hname. apply Hn. by exists items, k.
  - simpl. split; [done|]. split; [done|]. split.
    + intros name. apply keys_set_sub.
    + intros name Hn. apply PyFacts.get_set_ne. by intros <-.
Qed.

End AllocatorLaws.

(** ** The load balancer: selection, loads, health rounds *)
Module BalancerLaws.
Import Balancer Scenario PyDict.

Lemma least_connections_spec (ws : list WorkerInfo) (w : WorkerInfo) :
  _select_least_connections ws = Some w →
  w ∈ ws ∧ ∀ x, x ∈ ws → current_load w ≤ current_load x.
Proof.
  unfold _select_least_connections. destruct ws as [|w0 rest]; [done|]. intros [= <-].
  assert (Hgen : ∀ l best,
    let r := fold_left (fun best x => if current_load x <? current_load best then x else best)
                       l best in
    (r = best ∨ r ∈ l) ∧ current_load r ≤ current_load best ∧
    ∀ x, x ∈ l → current_load r ≤ current_load x).
  { induction l as [|y l IH]; intros best; cbv zeta; simpl.
    - split; [by left|]. split; [lia|]. intros x Hx. by apply elem_of_nil in Hx.
    - specialize (IH (if current_load y <? current_load best then y else best)).
      cbv zeta in IH. destruct IH as (Ho & Hle & Hmin).
      destruct (Z.ltb_spec (current_load y) (current_load best)).
      + split; [right; destruct Ho as [->|?]; [by left | by right]|]. split; [lia|].
        intros x Hx. apply elem_of_cons in Hx as [->|Hx]; [lia | by apply Hmin].
      + split; [destruct Ho as [->|?]; [by left | right; by right]|]. split; [lia|].
        intros x Hx. apply elem_of_cons in Hx as [->|Hx]; [lia | by apply Hmin]. }
  destruct (Hgen rest w0) as (Ho & Hle & Hmin). split.
  - destruct Ho as [->|?]; [by left | by right].
  - intros x Hx. apply elem_of_cons in Hx as [->|Hx]; [lia | by apply Hmin].
Qed.

Lemma resource_aware_in (ws : list WorkerInfo) (w : WorkerInfo) :
  _select_resource_aware ws = Some w → w ∈ ws.
Proof.
  unfold _select_resource_aware. destruct ws as [|w0 rest]; [done|]. intros [= <-].
  assert (Hgen : ∀ l best,
    let r := fold_left (fun best x =>
                          if PrimFloat.ltb (resource_score best) (resource_score x)
                          then x else best) l best in
    r = best ∨ r ∈ l).
  { induction l as [|y l IH]; intros best; cbv zeta; simpl; [by left|].
    destruct (IH (if PrimFloat.ltb (resource_score best) (resource_score y) then y else best))
      as [->|?]; [|right; by right].
    destruct (PrimFloat.ltb _ _); [right; by left | by left]. }
  destruct (Hgen rest w0) as [->|?]; [by left | by right].
Qed.

Lemma weighted_scan_in (ws : list WorkerInfo) (current target : Z) (w : WorkerInfo) :
  weighted_scan ws current target = Some w → w ∈ ws.
Proof.
  revert current. induction ws as [|x ws IH]; intros current; simpl; [done|].
  destruct (_ <=? _); [intros [= <-]; by left|]. intros H. right. by eapply IH.
Qed.

Lemma weighted_total_nonneg (ws : list WorkerInfo) (acc : Z) :
  Forall (fun w => 0 ≤ weight w) ws → 0 ≤ acc →
  0 ≤ fold_left (fun acc w => acc + weight w * available_capacity w) ws acc.
Proof.
  revert acc. induction ws as [|x ws IH]; intros acc Hall Hacc; simpl; [done|].
  apply Forall_cons in Hall as [Hx Hall]. apply IH; [done|].
  unfold available_capacity. nia.
Qed.

(** Whatever the strategy, the worker selected is one of those offered; a
    non-empty offer yields a worker unless the weighted draw raises, which
    takes a negative weight. *)
Lemma select_by_strategy_spec (lb : LoadBalancer) (ws : list WorkerInfo) (d : Draw) :
  ws ≠ [] →
  match snd (_select_by_strategy lb ws d) with
  | Py.Return (Some w) =>
      w ∈ ws ∧ (_strategy lb = LEAST_CONNECTIONS →
                ∀ x, x ∈ ws → current_load w ≤ current_load x)
  | Py.Return None => False
  | Py.Raise _ => _strategy lb = WEIGHTED_ROUND_ROBIN ∧ ¬ Forall (fun w => 0 ≤ weight w) ws
  end.
Proof.
  intros Hne. unfold _select_by_strategy.
  assert (Hlen : (0 < length ws)%nat) by (destruct ws; [done | simpl; lia]).
  assert (Hleast : ∃ w, _select_least_connections ws = Some w).
  { destruct ws; [done | by eexists]. }
  destruct (_strategy lb) eqn:Hs; simpl.
  - destruct (ws !! Z.to_nat ((_round_robin_index lb + 1) `mod` Z.of_nat (length ws)))
      as [w|] eqn:Hl.
    + split; [by eapply list_elem_of_lookup_2 | done].
    + apply lookup_ge_None in Hl.
      pose proof (Z.mod_pos_bound (_round_robin_index lb + 1) (Z.of_nat (length ws))). lia.
  - destruct Hleast as [w Hw]. rewrite Hw.
    destruct (least_connections_spec ws w Hw). by split.
  - unfold _select_weighted_round_robin.
    destruct (Z.eqb_spec (fold_left (fun acc w => acc + weight w * available_capacity w) ws 0) 0)
      as [H0|H0].
    + destruct Hleast as [w Hw]. rewrite Hw.
      destruct (least_connections_spec ws w Hw). by split.
    + destruct (Z.ltb_spec (fold_left (fun acc w => acc + weight w * available_capacity w) ws 0) 1)
        as [H1|H1].
      * split; [done|]. intros Hall.
        pose proof (weighted_total_nonneg ws 0 Hall ltac:(lia)). lia.
      * destruct (weighted_scan ws 0 (randint d)) as [w|] eqn:Hscan.
        -- split; [by eapply weighted_scan_in | done].
        -- destruct (last ws) as [w|] eqn:Hlast.
           ++ split; [|done]. apply last_Some in Hlast as [l' ->].
              apply elem_of_app. right. by left.
           ++ apply last_None in Hlast. done.
  - destruct (ws !! (choice d `mod` length ws)%nat) as [w|] eqn:Hl.
    + split; [by eapply list_elem_of_lookup_2 | done].
    + apply lookup_ge_None in Hl.
      pose proof (Nat.mod_upper_bound (choice d) (length ws)). lia.
  - destruct ws as [|w0 rest]; [done|].
    destruct (_select_resource_aware (w0 :: rest)) as [w|] eqn:Hw; [|done].
    split; [by apply resource_aware_in | done].
Qed.

Lemma registry_get (lb : LoadBalancer) (w : WorkerInfo) :
  registry lb → w ∈ Py.values (_workers lb) → Py.get (_workers lb) (worker_id w) = Some w.
Proof.
  intros [Hd Hid] Hin. unfold Py.values in Hin.
  apply list_elem_of_fmap in Hin as ([k w'] & -> & Hin). simpl.
  rewrite Forall_forall in Hid. pose proof (Hid _ Hin) as Hk. simpl in Hk. rewrite Hk.
  by apply elem_get.
Qed.

Lemma get_values {V} (d : list (string * V)) (k : string) (v : V) :
  Py.get d k = Some v → v ∈ Py.values d.
Proof.
  intros Hg. apply get_Some_elem in Hg. by apply (list_elem_of_fmap_2 snd _ (k, v)).
Qed.

(** X24. [select_worker] picks among the healthy workers with spare
    capacity.  On a registry that holds each worker under its id: a returned
    id is that of a registered worker that was healthy with its load below
    its bound; the call raises that worker's load by one and touches no
    other worker; under the least-connections strategy no eligible worker
    had a smaller load.  [None] is returned exactly when no worker is
    eligible, and then nothing changes.  The call raises only under the
    weighted strategy, and only when an eligible worker has a negative
    weight. *)
Theorem select_worker_takes_an_eligible_worker (request : Dto.BuildRequest) (d : Draw)
    (lb : LoadBalancer) :
  registry lb →
  match select_worker request d lb with
  | (lb', Py.Return (Some wid)) =>
      ∃ w, Py.get (_workers lb) wid = Some w ∧ eligible w ∧
           Py.get (_workers lb') wid = Some (with_load w (current_load w + 1)) ∧
           (∀ other, other ≠ wid →
                     Py.get (_workers lb') other = Py.get (_workers lb) other) ∧
           Py.keys (_workers lb') = Py.keys (_workers lb) ∧
           (_strategy lb = LEAST_CONNECTIONS →
            ∀ k x, Py.get (_workers lb) k = Some x → eligible x →
                   current_load w ≤ current_load x)
  | (lb', Py.Return None) =>
      lb' = lb ∧ ∀ k x, Py.get (_workers lb) k = Some x → ¬ eligible x
  | (lb', Py.Raise _) =>
      _strategy lb = WEIGHTED_ROUND_ROBIN ∧ _workers lb' = _workers lb ∧
      ∃ k x, Py.get (_workers lb) k = Some x ∧ eligible x ∧ weight x < 0
  end.
Proof.
  intros Hreg. unfold select_worker.
  set (available_workers :=
         filter (fun w => is_healthy w = true ∧ current_load w < max_load w)
                (Py.values (_workers lb))).
  assert (Hav : ∀ w, w ∈ available_workers ↔ w ∈ Py.values (_workers lb) ∧ eligible w).
  { intros w. unfold available_workers. rewrite list_elem_of_filter. unfold eligible. tauto. }
  destruct available_workers as [|w0 rest] eqn:Hws.
  { split; [done|]. intros k x Hg He.
    assert (Hx : x ∈ []) by (apply Hav; split; [by eapply get_values | done]).
    by apply elem_of_nil in Hx. }
  pose proof (select_by_strategy_spec lb (w0 :: rest) d ltac:(done)) as Hsel.
  destruct (_select_by_strategy lb (w0 :: rest) d) as [i o]. simpl in Hsel.
  destruct o as [[selected|]|e]; [| done |].
  - destruct Hsel as [Hin Hmin]. apply Hav in Hin as [Hval Hel].
    pose proof (registry_get lb selected Hreg Hval) as Hget.
    simpl. exists selected. split; [done|]. split; [done|].
    split; [apply PyFacts.get_set_eq|]. split.
    { intros other Hne. by apply PyFacts.get_set_ne. }
    split.
    { apply keys_set_in. apply get_Some_elem in Hget.
      by apply (list_elem_of_fmap_2 fst _ (worker_id selected, selected)). }
    intros Hs k x Hg He. apply (Hmin Hs). apply Hav. split; [by eapply get_values | done].
  - destruct Hsel as [Hs Hneg]. simpl. split; [done|]. split; [done|].
    apply not_Forall_Exists in Hneg; [|intros w; apply Z_le_dec].
    apply Exists_exists in Hneg as (x & Hx & Hw). simpl in Hw.
    apply Hav in Hx as [Hval Hel].
    exists (worker_id x), x. split; [by apply registry_get|]. split; [done | lia].
Qed.


Lemma registry_fresh : registry fresh_registry.
Proof. split; [apply NoDup_singleton | by repeat constructor]. Qed.

Lemma select_worker_takes_an_eligible_worker_witness :
  match select_worker saved_job {| choice := 0; randint := 1 |} fresh_registry with
  | (lb', Py.Return (Some wid)) =>
      ∃ w, Py.get (_workers fresh_registry) wid = Some w ∧ eligible w ∧
           Py.get (_workers lb') wid = Some (with_load w (current_load w + 1)) ∧
           (∀ other, other ≠ wid →
                     Py.get (_workers lb') other = Py.get (_workers fresh_registry) other) ∧
           Py.keys (_workers lb') = Py.keys (_workers fresh_registry) ∧
           (_strategy fresh_registry = LEAST_CONNECTIONS →
            ∀ k x, Py.get (_workers fresh_registry) k = Some x → eligible x →
                   current_load w ≤ current_load x)
  | (lb', Py.Return None) =>
      lb' = fresh_registry ∧
      ∀ k x, Py.get (_workers fresh_registry) k = Some x → ¬ eligible x
  | (lb', Py.Raise _) =>
      _strategy fresh_registry = WEIGHTED_ROUND_ROBIN ∧
      _workers lb' = _workers fresh_registry ∧
      ∃ k x, Py.get (_workers fresh_registry) k = Some x ∧ eligible x ∧ weight x < 0
  end.
Proof.
  apply (select_worker_takes_an_eligible_worker saved_job {| choice := 0; randint := 1 |}
           fresh_registry).
  apply registry_fresh.
Defined.

(** *** Loads *)

Lemma balanced_set (lb : LoadBalancer) (wid : string) (w : WorkerInfo) :
  registry lb → within_capacity lb →
  worker_id w = wid → 0 ≤ current_load w ≤ max_load w →
  registry (with_workers lb (Py.set (_workers lb) wid w)) ∧
  within_capacity (with_workers lb (Py.set (_workers lb) wid w)).
Proof.
  intros [Hd Hid] Hcap Hw Hl. split; [split|]; simpl.
  - by apply is_dict_set.
  - by apply Forall_set.
  - by apply Forall_set.
Qed.

Lemma balanced_get (lb : LoadBalancer) (wid : string) (w : WorkerInfo) :
  registry lb → within_capacity lb → Py.get (_workers lb) wid = Some w →
  worker_id w = wid ∧ 0 ≤ current_load w ≤ max_load w.
Proof.
  intros [Hd Hid] Hcap Hg. split.
  - by apply (get_Forall _ _ _ _ Hid Hg).
  - by apply (get_Forall _ _ _ _ Hcap Hg).
Qed.

Lemma balanced_health_check (probe : string → Probe) (now : datetime) (lb : LoadBalancer)
    (wid : string) :
  registry lb ∧ within_capacity lb →
  registry (health_check_one probe now lb wid) ∧
  within_capacity (health_check_one probe now lb wid).
Proof.
  intros [Hreg Hcap]. unfold health_check_one, mark_worker_healthy, mark_worker_unhealthy.
  destruct (_check_worker_health lb wid (probe wid));
    destruct (Py.get (_workers lb) wid) as [w|] eqn:Hg; try done;
    destruct (balanced_get lb wid w Hreg Hcap Hg); by apply balanced_set.
Qed.

Lemma balanced_del (lb : LoadBalancer) (wid : string) :
  registry lb → within_capacity lb →
  registry (with_workers lb (Py.del (_workers lb) wid)) ∧
  within_capacity (with_workers lb (Py.del (_workers lb) wid)).
Proof.
  intros [Hd Hid] Hcap. unfold registry, within_capacity in *. simpl.
  split; [split; [by apply is_dict_del|]|].
  - clear -Hid. induction (_workers lb) as [|[k' v'] l IH]; simpl; [done|].
    apply Forall_cons in Hid as [? ?]. destruct (decide _); [done|]. constructor; auto.
  - clear -Hcap. induction (_workers lb) as [|[k' v'] l IH]; simpl; [done|].
    apply Forall_cons in Hcap as [? ?]. destruct (decide _); [done|]. constructor; auto.
Qed.

Lemma balanced_select (request : Dto.BuildRequest) (d : Draw) (lb : LoadBalancer) :
  registry lb → within_capacity lb →
  registry (fst (select_worker request d lb)) ∧
  within_capacity (fst (select_worker request d lb)).
Proof.
  intros Hreg Hcap. unfold select_worker.
  destruct (filter _ (Py.values (_workers lb))) as [|w0 rest] eqn:Hws; [done|].
  pose proof (select_by_strategy_spec lb (w0 :: rest) d ltac:(done)) as Hsel.
  destruct (_select_by_strategy lb (w0 :: rest) d) as [i o]. simpl in Hsel.
  destruct o as [[selected|]|e]; try done.
  destruct Hsel as [Hin _]. rewrite <- Hws in Hin.
  apply list_elem_of_filter in Hin as [[_ Hlt] Hval].
  pose proof (registry_get lb selected Hreg Hval) as Hg.
  destruct (balanced_get lb _ selected Hreg Hcap Hg) as [_ Hb].
  simpl. apply (balanced_set (Build_LoadBalancer _ _ _ _)); try done. simpl. lia.
Qed.

(** X25. The loads stay within their bounds.  On a registry that holds each
    worker under its id with every load between 0 and the worker's bound,
    this remains so after [register_worker] (with a bound that is not
    negative), [unregister_worker], [select_worker], [update_worker_load]
    with a delta that is not positive, [record_build_completion], the two
    marks and a round of health checks: [select_worker] never loads a worker
    beyond its bound, and a release never takes a load below 0. *)
Theorem loads_stay_within_bounds (lb : LoadBalancer) :
  registry lb → within_capacity lb →
  let ok lb' := registry lb' ∧ within_capacity lb' in
  (∀ wid addr port weight max_load now,
     0 ≤ max_load → ok (register_worker lb wid addr port weight max_load now)) ∧
  (∀ wid, ok (fst (unregister_worker lb wid))) ∧
  (∀ request d, ok (fst (select_worker request d lb))) ∧
  (∀ wid delta, delta ≤ 0 → ok (update_worker_load lb wid delta)) ∧
  (∀ wid t, ok (fst (record_build_completion wid t lb))) ∧
  (∀ wid, ok (mark_worker_unhealthy lb wid)) ∧
  (∀ wid now, ok (mark_worker_healthy lb wid now)) ∧
  (∀ probe now, ok (_perform_health_checks lb probe now)).
Proof.
  intros Hreg Hcap. cbv zeta.
  split; [|split; [|split; [|split; [|split; [|split; [|split]]]]]].
  - intros k addr port wt ml now Hml. apply (balanced_set lb); try done; simpl; lia.
  - intros k. unfold unregister_worker. destruct (Py.get (_workers lb) k); [|done].
    by apply balanced_del.
  - intros request d. by apply balanced_select.
  - intros k delta Hdelta. unfold update_worker_load.
    destruct (Py.get (_workers lb) k) as [w|] eqn:Hg; [|done].
    destruct (balanced_get lb k w Hreg Hcap Hg). apply balanced_set; try done. simpl. lia.
  - intros k t. unfold record_build_completion.
    destruct (Py.get (_workers lb) k) as [w|] eqn:Hg; [|done].
    destruct (balanced_get lb k w Hreg Hcap Hg).
    destruct (_ =? 0); simpl; apply balanced_set; try done; simpl; lia.
  - intros k. unfold mark_worker_unhealthy.
    destruct (Py.get (_workers lb) k) as [w|] eqn:Hg; [|done].
    destruct (balanced_get lb k w Hreg Hcap Hg). by apply balanced_set.
  - intros k now. unfold mark_worker_healthy.
    destruct (Py.get (_workers lb) k) as [w|] eqn:Hg; [|done].
    destruct (balanced_get lb k w Hreg Hcap Hg). by apply balanced_set.
  - intros probe now.
    unfold _perform_health_checks. generalize (Py.keys (_workers lb)). intros ks.
    assert (H : registry lb ∧ within_capacity lb) by done. revert H. generalize lb.
    induction ks as [|k ks IH]; intros lb0 H0; simpl; [apply H0|].
    apply IH. by apply balanced_health_check.
Qed.

Lemma loads_stay_within_bounds_witness :
  let ok lb' := registry lb' ∧ within_capacity lb' in
  (∀ wid addr port weight max_load now,
     0 ≤ max_load → ok (register_worker fresh_registry wid addr port weight max_load now)) ∧
  (∀ wid, ok (fst (unregister_worker fresh_registry wid))) ∧
  (∀ request d, ok (fst (select_worker request d fresh_registry))) ∧
  (∀ wid delta, delta ≤ 0 → ok (update_worker_load fresh_registry wid delta)) ∧
  (∀ wid t, ok (fst (record_build_completion wid t fresh_registry))) ∧
  (∀ wid, ok (mark_worker_unhealthy fresh_registry wid)) ∧
  (∀ wid now, ok (mark_worker_healthy fresh_registry wid now)) ∧
  (∀ probe now, ok (_perform_health_checks fresh_registry probe now)).
Proof.
  apply (loads_stay_within_bounds fresh_registry).
  - apply registry_fresh.
  - repeat constructor; simpl; lia.
Defined.

(** *** Health rounds *)

Lemma get_middle {V} (l1 l2 : list (string * V)) (k : string) (v : V) :
  k ∉ Py.keys l1 → Py.get (l1 ++ (k, v) :: l2) k = Some v.
Proof.
  unfold Py.keys. induction l1 as [|[k' v'] l1 IH]; simpl; intros Hk.
  - by rewrite decide_True.
  - apply not_elem_of_cons in Hk as [Hne Hk]. rewrite decide_False by done. by apply IH.
Qed.

Lemma set_middle {V} (l1 l2 : list (string * V)) (k : string) (v v' : V) :
  k ∉ Py.keys l1 → Py.set (l1 ++ (k, v) :: l2) k v' = l1 ++ (k, v') :: l2.
Proof.
  unfold Py.keys. induction l1 as [|[k0 v0] l1 IH]; simpl; intros Hk.
  - by rewrite decide_True.
  - apply not_elem_of_cons in Hk as [Hne Hk]. rewrite decide_False by done. by rewrite IH.
Qed.

Lemma check_registered (lb : LoadBalancer) (wid : string) (p : Probe) (w : WorkerInfo) :
  Py.get (_workers lb) wid = Some w → _check_worker_health lb wid p = check_of p.
Proof. intros Hg. unfold _check_worker_health. rewrite Hg. by destruct p. Qed.

(** X26. A round of health checks rewrites the health flag and the time of
    the last check of every worker, and nothing else: each worker whose
    probe answers 200 or raises ends up healthy with the time of the round,
    each worker whose probe answers another status ends up unhealthy with its
    old time, and ids, order, loads, bounds, weights and statistics are
    those before the round. *)
Theorem health_round_rewrites_flags_only (lb : LoadBalancer) (probe : string → Probe)
    (now : datetime) :
  is_dict (_workers lb) →
  _perform_health_checks lb probe now
  = with_workers lb
      (map (fun e => (fst e, checked (probe (fst e)) now (snd e))) (_workers lb)).
Proof.
  intros Hd. unfold _perform_health_checks.
  assert (Hgen : ∀ todo seen,
    is_dict (seen ++ todo) →
    fold_left (health_check_one probe now) (Py.keys todo)
      (with_workers lb
         (map (fun e => (fst e, checked (probe (fst e)) now (snd e))) seen ++ todo))
    = with_workers lb
        (map (fun e => (fst e, checked (probe (fst e)) now (snd e))) (seen ++ todo))).
  { induction todo as [|[k w] todo IH]; intros seen Hdd; simpl; [by rewrite !app_nil_r|].
    assert (Hk : k ∉ Py.keys (map (fun e => (fst e, checked (probe (fst e)) now (snd e))) seen)).
    { unfold is_dict, Py.keys in *. rewrite fmap_app in Hdd. simpl in Hdd.
      apply NoDup_app in Hdd as (_ & Hdd & _). intros Hin. apply (Hdd k); [|by left].
      rewrite <- list_fmap_compose in Hin. by rewrite (list_fmap_ext _ fst seen) in Hin. }
    assert (Hstep : health_check_one probe now
              (with_workers lb
                 (map (fun e => (fst e, checked (probe (fst e)) now (snd e))) seen
                  ++ (k, w) :: todo)) k
            = with_workers lb
                (map (fun e => (fst e, checked (probe (fst e)) now (snd e))) (seen ++ [(k, w)])
                 ++ todo)).
    { unfold health_check_one.
      rewrite (check_registered _ k (probe k) w) by (simpl; by apply get_middle).
      unfold mark_worker_healthy, mark_worker_unhealthy. simpl.
      rewrite get_middle by done.
      rewrite fmap_app. simpl. rewrite <- app_assoc. simpl. unfold checked.
      destruct (check_of (probe k)); simpl; by rewrite set_middle. }
    rewrite Hstep. rewrite IH; rewrite <- app_assoc; done. }
  specialize (Hgen (_workers lb) []). simpl in Hgen.
  replace (with_workers lb (_workers lb)) with lb in Hgen by (by destruct lb).
  by apply Hgen.
Qed.

Lemma health_round_rewrites_flags_only_witness :
  _perform_health_checks fresh_registry (fun _ => Responded 503) 50
  = with_workers fresh_registry
      (map (fun e => (fst e, checked (Responded 503) 50 (snd e))) (_workers fresh_registry)).
Proof.
  apply (health_round_rewrites_flags_only fresh_registry (fun _ => Responded 503) 50).
  apply NoDup_singleton.
Defined.

End BalancerLaws.

(** ** The coordinator: submitting, asking, cancelling, dispatching *)
Module CoordinatorLaws.
Import Constants Dto Coordinator Scenario.

(** What [update_build_status] leaves behind when its metadata does not
    name the status. *)
Lemma status_written (build_id : UUID) (status : BuildStatus)
    (metadata : list (string * State.value)) (now : datetime) (sm : State.StateManager) :
  Forall (fun kv => fst kv ≠ "status") metadata →
  State.state_of (fst (State.update_build_status build_id status (Some metadata) now sm))
    build_id "status"
  = Some (State.VStr (BuildStatus_value status)).
Proof.
  intros Hmd. unfold State.update_build_status, State.state_of, State.get_build_state.
  change State.terminal_statuses with
    (Py.Raise (Py.AttributeError "FAILED") : Py.outcome (list BuildStatus)).
  simpl. rewrite PyFacts.get_set_eq. simpl.
  set (st := <["updated_at" := State.VTime now]>
               (<["status" := State.VStr (BuildStatus_value status)]>
                  (default ∅ (Py.get (State._build_states sm) build_id)))).
  assert (Hst : st !! "status" = Some (State.VStr (BuildStatus_value status))).
  { unfold st. rewrite lookup_insert_ne by done. by rewrite lookup_insert_eq. }
  assert (Hgen : ∀ md d, Forall (fun kv => fst kv ≠ "status") md →
            State.dict_update d md !! "status" = d !! "status").
  { unfold State.dict_update. induction md as [|[k v] md IH]; intros d Hall; simpl; [done|].
    apply Forall_cons in Hall as [Hk Hall]. rewrite IH by done. simpl in Hk.
    by rewrite lookup_insert_ne. }
  destruct metadata as [|kv md]; [done|].
  change (State.dict_update st (kv :: md) !! "status" = Some (State.VStr (BuildStatus_value status))).
  by rewrite Hgen.
Qed.

(** X27. [submit_build] returns the id of the request whatever [enqueue]
    answers.  The request is saved with the computed priority and the state
    pending; it is queued, with that priority and the time of the call, when
    the queue has room and does not hold the id; when the queue is full or
    holds the id, the queue is left as it was and the caller is not told. *)
Theorem submit_build_saves_then_tries_to_queue (w : World) (request : BuildRequest)
    (c : BuildCoordinator) :
  let scored := set_priority request (Scheduler.calculate_priority request) in
  let q := _queue_manager c in
  let c' := fst (submit_build w request c) in
  snd (submit_build w request c) = id request ∧
  State._build_requests (_state_manager c') !! id request = Some scored ∧
  State.state_of (_state_manager c') (id request) "status" = Some (State.VStr "pending") ∧
  (Queue.get_queue_depth q < Queue._max_queue_size q → Queue.contains q (id request) = false →
   Queue._build_ids (_queue_manager c') !! id request = Some (Queue.from_request scored (now w)) ∧
   Queue._queue (_queue_manager c') ≡ₚ Queue.from_request scored (now w) :: Queue._queue q) ∧
  (Queue._max_queue_size q ≤ Queue.get_queue_depth q ∨ Queue.contains q (id request) = true →
   _queue_manager c' = q) ∧
  _resource_allocator c' = _resource_allocator c ∧ _load_balancer c' = _load_balancer c ∧
  _active_builds c' = _active_builds c.
Proof.
  cbv zeta. unfold submit_build. simpl.
  split; [done|]. split; [by rewrite lookup_insert_eq|]. split.
  { unfold State.state_of, State.get_build_state. simpl. by rewrite PyFacts.get_set_eq. }
  split; [|split; [|done]].
  - intros Hroom Hnew. rewrite QueueLaws.enqueue_accepts by done. simpl.
    split; [by rewrite lookup_insert_eq | apply HeapqContents.heappush_perm].
  - intros Hno. by rewrite QueueLaws.enqueue_rejects.
Qed.

(** X28. [get_build_status] never returns a summary: for a build without a
    state (in memory or, with persistence, in the store) it returns [None],
    and for every build that has a state it raises [AttributeError], as
    [BuildStatus] has no member [UNKNOWN]; it changes nothing. *)
Theorem get_build_status_never_answers (state_from_redis : option (gmap string State.value))
    (build_id : UUID) (c : BuildCoordinator) :
  get_build_status state_from_redis build_id c
  = (c, match State.load_build_state (_state_manager c) build_id state_from_redis with
        | None => Py.Return None
        | Some _ => Py.Raise (Py.AttributeError "UNKNOWN")
        end).
Proof.
  unfold get_build_status.
  by destruct (State.load_build_state (_state_manager c) build_id state_from_redis).
Qed.

(** X29. [cancel_build] never returns [True].  For a build that is neither
    queued nor active it returns [False]; for a queued or an active build it
    takes the build out of the queue, writes the status cancelled with who
    and why, and then raises the [AttributeError] of [update_build_status];
    a build that was active stays among the active builds. *)
Theorem cancel_build_never_confirms (w : World) (build_id : UUID)
    (cancelled_by reason : option string) (c : BuildCoordinator) :
  let removed := snd (Queue.remove (_queue_manager c) build_id) in
  let active := bool_decide (is_Some (_active_builds c !! build_id)) in
  let c' := fst (cancel_build w build_id cancelled_by reason c) in
  _queue_manager c' = fst (Queue.remove (_queue_manager c) build_id) ∧
  _active_builds c' = _active_builds c ∧
  if removed || active then
    snd (cancel_build w build_id cancelled_by reason c)
    = Py.Raise (Py.AttributeError "FAILED") ∧
    State.state_of (_state_manager c') build_id "status" = Some (State.VStr "cancelled") ∧
    State.state_of (_state_manager c') build_id "cancelled_by" = Some (opt_str cancelled_by) ∧
    State.state_of (_state_manager c') build_id "reason" = Some (opt_str reason)
  else
    snd (cancel_build w build_id cancelled_by reason c) = Py.Return false ∧
    _state_manager c' = _state_manager c.
Proof.
  cbv zeta. unfold cancel_build.
  destruct (Queue.remove (_queue_manager c) build_id) as [q removed]. simpl.
  assert (Hwritten : ∀ sm,
    let sm' := fst (State.update_build_status build_id CANCELLED
                      (Some [("cancelled_by", opt_str cancelled_by); ("reason", opt_str reason)])
                      (now w) sm) in
    State.state_of sm' build_id "status" = Some (State.VStr "cancelled") ∧
    State.state_of sm' build_id "cancelled_by" = Some (opt_str cancelled_by) ∧
    State.state_of sm' build_id "reason" = Some (opt_str reason)).
  { intros sm. cbv zeta. split; [apply status_written; by repeat constructor|].
    unfold State.update_build_status, State.state_of, State.get_build_state.
    change State.terminal_statuses with
      (Py.Raise (Py.AttributeError "FAILED") : Py.outcome (list BuildStatus)).
    simpl. rewrite PyFacts.get_set_eq. simpl.
    split; [by rewrite lookup_insert_ne, lookup_insert_eq | by rewrite lookup_insert_eq]. }
  destruct removed; simpl.
  - split; [done|]. split; [done|]. split; [done|]. apply Hwritten.
  - destruct (bool_decide (is_Some (_active_builds c !! build_id))); simpl.
    + split; [done|]. split; [done|]. split; [done|]. apply Hwritten.
    + done.
Qed.

(** X30. A dispatched build is stranded.  Whatever the coordinator, the
    world and the request, [_execute_build] ends in the [UnboundLocalError] of
    its [finally] block: the state of the build reads running, the build is
    no longer among the active builds, the request has not been put back
    into the queue, and nothing was allocated and no worker selected. *)
Theorem dispatched_build_is_stranded (w : World) (r : BuildRequest) (c : BuildCoordinator) :
  let c' := fst (_execute_build w r c) in
  snd (_execute_build w r c) = Py.Raise (Py.UnboundLocalError "allocation") ∧
  State.state_of (_state_manager c') (id r) "status" = Some (State.VStr "running") ∧
  State.state_of (_state_manager c') (id r) "started_at" = Some (State.VTime (now w)) ∧
  _active_builds c' !! id r = None ∧
  _queue_manager c' = _queue_manager c ∧
  _resource_allocator c' = _resource_allocator c ∧
  _load_balancer c' = _load_balancer c.
Proof.
  cbv zeta. split; [reflexivity|].
  assert (Hst : _state_manager (fst (_execute_build w r c))
                = fst (State.update_build_status (id r) RUNNING
                         (Some [("started_at", State.VTime (now w))]) (now w)
                         (_state_manager c))) by reflexivity.
  rewrite Hst. split; [apply status_written; by repeat constructor|]. split.
  { unfold State.update_build_status, State.state_of, State.get_build_state.
    change State.terminal_statuses with
      (Py.Raise (Py.AttributeError "FAILED") : Py.outcome (list BuildStatus)).
    simpl. rewrite PyFacts.get_set_eq. simpl. by rewrite lookup_insert_eq. }
  split; [|by repeat split].
  change (_active_builds (fst (_execute_build w r c)))
    with (delete (id r) (<[id r := r]> (_active_builds c))).
  by rewrite lookup_delete_eq.
Qed.

End CoordinatorLaws.
